(** * cstr.mjs: a lazy mark-and-sweep constraint engine

    Shallow embedding of [src/cstr.mjs] (classes [ConstraintSystem],
    [Dependency], [Variable] and the module-level [addDaemon]).

    - A [Variable] object is a record stored in a heap, a list indexed by
      the object's reference ([vref]); JavaScript [===] on Variables is
      equality of references.  A reference beyond the end of the heap has
      no counterpart in JavaScript: it reads as an inert object (no formula,
      no daemon, no edge, up to date) and updates through it are dropped.
    - A [Dependency] object lives in exactly one [_dependents] array, so it
      is stored inline in that list; its JavaScript identity (used by
      [indexOf]) is the field [oid], allocated from [next_oid].
    - Formulas and daemons are user callables.  They are trees of calls to
      the public API ([Prog]); [this] is passed as an argument, which is
      what [f.bind(thisFormula)()] does.
    - The engine is state passing over [State] with an outcome that is a
      normal return, a JavaScript exception, or exhausted fuel (the
      recursions [mark -> daemon -> setter -> mark] and
      [get value -> formula -> get value] need not terminate).  The module
      has no [try]: an exception ends every enclosing call of the engine,
      which is what [bind] does; only user code catches.
    - The arrays [demandingVariables] and [markedVariables] are used as
      stacks only ([push], [pop], last element, [includes]); they are lists
      whose head is the top of the stack.
    - [tick] is an unbounded integer. *)

From Stdlib Require Import ZArith Lia.
From stdpp Require Import base option list gmap.

Local Open Scope Z_scope.

(** ** Values, exceptions and user code *)

Inductive value : Type :=
| VNull
| VNum (z : Z).

Inductive exn : Type :=
| TypeError            (* raised by the runtime: [null.bind] *)
| Thrown (v : value).  (* raised by user code: [throw v] *)

Definition vref := nat.

(** User callables: what a formula, an outOfDateDaemon, a system daemon or
    the top-level script may do.  [Incr] and [ReadCounter] act on the
    JavaScript variables captured by the closures (the [n] of the tests);
    [TryCatch body handler k] is [try { body } catch (e) { handler }]
    followed by [k]. *)
#[local] Unset Elimination Schemes.
Inductive Prog : Type :=
| Ret (v : value)
| Throw (v : value)
| GetValue (x : vref) (k : value -> Prog)
| Peek (x : vref) (k : value -> Prog)
| SetValue (x : vref) (v : value) (k : Prog)
| SetFormulaValue (x : vref) (v : value) (k : Prog)
| SetFormula (x : vref) (f : value -> Prog) (k : Prog)
| SetThisFormula (x : vref) (t : value) (k : Prog)
| SetOutOfDateDaemon (x : vref) (d : option (value -> Prog)) (k : Prog)
| NewVariable (v : value) (f : option (value -> Prog)) (t : value)
              (d : option (value -> Prog)) (k : vref -> Prog)
| Copy (x : vref) (k : vref -> Prog)
| AddDaemon (d : Prog) (k : Prog)
| Incr (c : nat) (k : Prog)
| ReadCounter (c : nat) (k : Z -> Prog)
| TryCatch (body : Prog) (handler : exn -> Prog) (k : value -> Prog).
#[local] Set Elimination Schemes.

(** ** Data model *)

(** class Dependency: [variable] and [tick]. *)
Record Dependency : Type := mkDependency {
  oid : nat;
  dep_variable : vref;
  dep_tick : Z
}.

(** class Variable ([Variable] is a reserved word of Rocq). *)
Record Var : Type := mkVar {
  _value : value;
  _formula : option (value -> Prog);
  _thisFormula : value;
  _outOfDateDaemon : option (value -> Prog);
  tick : Z;
  _outOfDate : bool;
  _dependents : list Dependency
}.

(** class ConstraintSystem. *)
Record ConstraintSystem : Type := mkSystem {
  demandingVariables : list vref;
  daemonQueue : list Prog;
  executingDaemons : option (list Prog)
}.

Record State : Type := mkState {
  system : ConstraintSystem;
  heap : list Var;
  captured : gmap nat Z;
  next_oid : nat
}.

(** [x !== null] for an optional callable. *)
Definition non_null {A : Type} (o : option A) : bool :=
  match o with Some _ => true | None => false end.

(** [new Variable({value, formula, thisFormula, outOfDateDaemon})] *)
Definition Variable_new (v : value) (f : option (value -> Prog)) (t : value)
    (d : option (value -> Prog)) : Var :=
  {| _value := v; _formula := f; _thisFormula := t; _outOfDateDaemon := d;
     tick := 0; _outOfDate := non_null f;
     _dependents := [] |}.

#[global] Instance Var_inhabited : Inhabited Var :=
  populate (Variable_new VNull None VNull None).

(** ** Field updates *)

Definition set__value (x : value) (v : Var) : Var :=
  {| _value := x; _formula := _formula v; _thisFormula := _thisFormula v;
     _outOfDateDaemon := _outOfDateDaemon v; tick := tick v;
     _outOfDate := _outOfDate v; _dependents := _dependents v |}.

Definition set__formula (f : option (value -> Prog)) (v : Var) : Var :=
  {| _value := _value v; _formula := f; _thisFormula := _thisFormula v;
     _outOfDateDaemon := _outOfDateDaemon v; tick := tick v;
     _outOfDate := _outOfDate v; _dependents := _dependents v |}.

Definition set__thisFormula (t : value) (v : Var) : Var :=
  {| _value := _value v; _formula := _formula v; _thisFormula := t;
     _outOfDateDaemon := _outOfDateDaemon v; tick := tick v;
     _outOfDate := _outOfDate v; _dependents := _dependents v |}.

Definition set__outOfDateDaemon (d : option (value -> Prog)) (v : Var) : Var :=
  {| _value := _value v; _formula := _formula v; _thisFormula := _thisFormula v;
     _outOfDateDaemon := d; tick := tick v;
     _outOfDate := _outOfDate v; _dependents := _dependents v |}.

Definition set__outOfDate (b : bool) (v : Var) : Var :=
  {| _value := _value v; _formula := _formula v; _thisFormula := _thisFormula v;
     _outOfDateDaemon := _outOfDateDaemon v; tick := tick v;
     _outOfDate := b; _dependents := _dependents v |}.

(** [this.tick++] *)
Definition incr_tick (v : Var) : Var :=
  {| _value := _value v; _formula := _formula v; _thisFormula := _thisFormula v;
     _outOfDateDaemon := _outOfDateDaemon v; tick := tick v + 1;
     _outOfDate := _outOfDate v; _dependents := _dependents v |}.

Definition set__dependents (l : list Dependency) (v : Var) : Var :=
  {| _value := _value v; _formula := _formula v; _thisFormula := _thisFormula v;
     _outOfDateDaemon := _outOfDateDaemon v; tick := tick v;
     _outOfDate := _outOfDate v; _dependents := l |}.

Definition with_system (f : ConstraintSystem -> ConstraintSystem) (s : State) : State :=
  {| system := f (system s); heap := heap s; captured := captured s;
     next_oid := next_oid s |}.

Definition with_heap (f : list Var -> list Var) (s : State) : State :=
  {| system := system s; heap := f (heap s); captured := captured s;
     next_oid := next_oid s |}.

(** The Variable object behind a reference. *)
Definition var (s : State) (x : vref) : Var := heap s !!! x.

(** In-place update of the object behind [x]. *)
Definition upd_var (x : vref) (f : Var -> Var) (s : State) : State :=
  with_heap (alter f x) s.

(** [system.demandingVariables.push(this)] *)
Definition push_demanding (x : vref) (s : State) : State :=
  with_system (fun c => {| demandingVariables := x :: demandingVariables c;
                           daemonQueue := daemonQueue c;
                           executingDaemons := executingDaemons c |}) s.

(** [system.demandingVariables.pop()]: no effect on an empty array. *)
Definition pop_demanding (s : State) : State :=
  with_system (fun c => {| demandingVariables := tail (demandingVariables c);
                           daemonQueue := daemonQueue c;
                           executingDaemons := executingDaemons c |}) s.

(** ConstraintSystem.addDaemon: [this.daemonQueue.push(daemon)] *)
Definition addDaemon (d : Prog) (s : State) : State :=
  with_system (fun c => {| demandingVariables := demandingVariables c;
                           daemonQueue := daemonQueue c ++ [d];
                           executingDaemons := executingDaemons c |}) s.

(** [this.executingDaemons = this.daemonQueue; this.daemonQueue = [];] *)
Definition take_batch (s : State) : State :=
  with_system (fun c => {| demandingVariables := demandingVariables c;
                           daemonQueue := [];
                           executingDaemons := Some (daemonQueue c) |}) s.

(** [this.executingDaemons = null;] *)
Definition clear_executing (s : State) : State :=
  with_system (fun c => {| demandingVariables := demandingVariables c;
                           daemonQueue := daemonQueue c;
                           executingDaemons := None |}) s.

(** Allocation of a Variable object; its reference is the old heap size. *)
Definition alloc (v : Var) (s : State) : vref * State :=
  (length (heap s), with_heap (fun h => h ++ [v]) s).

(** The captured variable number [c]; variables start at 0. *)
Definition counter (s : State) (c : nat) : Z := default 0 (captured s !! c).

(** [n++] on a captured variable. *)
Definition incr_counter (c : nat) (s : State) : State :=
  {| system := system s; heap := heap s;
     captured := <[c := counter s c + 1]> (captured s);
     next_oid := next_oid s |}.

(** ** Outcomes and the state monad *)

Inductive outcome (A : Type) : Type :=
| Ok (a : A)
| Threw (e : exn)
| OutOfFuel.
Arguments Ok {A} a.
Arguments Threw {A} e.
Arguments OutOfFuel {A}.

Definition M (A : Type) : Type := State -> outcome A * State.

Definition ret {A : Type} (a : A) : M A := fun s => (Ok a, s).

Definition throw {A : Type} (e : exn) : M A := fun s => (Threw e, s).

Definition bind {A B : Type} (m : M A) (f : A -> M B) : M B :=
  fun s =>
    match m s with
    | (Ok a, s') => f a s'
    | (Threw e, s') => (Threw e, s')
    | (OutOfFuel, s') => (OutOfFuel, s')
    end.

Definition modify (f : State -> State) : M unit := fun s => (Ok tt, f s).

(** [try { m } catch (e) { h e }] of user code. *)
Definition try_catch {A : Type} (m : M A) (h : exn -> M A) : M A :=
  fun s =>
    match m s with
    | (Threw e, s') => h e s'
    | r => r
    end.

Notation "x <- m ;; k" := (bind m (fun x => k))
  (at level 100, m at next level, right associativity).
Notation "m ;;; k" := (bind m (fun _ => k))
  (at level 100, right associativity).

(** ** class Dependency *)

(** [get outOfDate() { return this.tick < this.variable.tick; }] *)
Definition outOfDate (d : Dependency) (s : State) : bool :=
  dep_tick d <? tick (var s (dep_variable d)).

(** [new Dependency(variable)]: [this.tick = this.variable.tick + 1]. *)
Definition Dependency_new (o : nat) (x : vref) (s : State) : Dependency :=
  {| oid := o; dep_variable := x; dep_tick := tick (var s x) + 1 |}.

(** ** Array primitives used by the engine *)

(** [arr.indexOf(dep)]: first position holding that very object, or -1. *)
Definition indexOf (d : Dependency) (l : list Dependency) : Z :=
  match list_find (fun d' => oid d' = oid d) l with
  | Some (i, _) => Z.of_nat i
  | None => -1
  end.

(** [arr.splice(pos, 1)]: a negative [pos] counts from the end, and the start
    is clamped to the array. *)
Definition splice1 (pos : Z) (l : list Dependency) : list Dependency :=
  let len := Z.of_nat (length l) in
  let start := if pos <? 0 then Z.max (len + pos) 0 else Z.min pos len in
  delete (Z.to_nat start) l.

(** One step of [removals.forEach]: find the edge and splice it out. *)
Definition remove_dependent (this : vref) (d : Dependency) (s : State) : State :=
  upd_var this
    (fun v => set__dependents (splice1 (indexOf d (_dependents v)) (_dependents v)) v) s.

(** Variable.updateDependencies *)
Definition updateDependencies (this : vref) (s : State) : State :=
  match demandingVariables (system s) with
  | [] => s
  | demandingVariable :: _ =>
      match list_find (fun d => dep_variable d = demandingVariable)
                      (_dependents (var s this)) with
      | None =>
          let d := Dependency_new (next_oid s) demandingVariable s in
          {| system := system s;
             heap := alter (fun v => set__dependents (_dependents v ++ [d]) v)
                           this (heap s);
             captured := captured s;
             next_oid := S (next_oid s) |}
      | Some (i, dep) =>
          let dep' := {| oid := oid dep; dep_variable := dep_variable dep;
                         dep_tick := tick (var s demandingVariable) + 1 |} in
          upd_var this
            (fun v => set__dependents (<[i := dep']> (_dependents v)) v) s
      end
  end.

(** Reading the state. *)
Definition gets {A : Type} (f : State -> A) : M A := fun s => (Ok (f s), s).

(** ** The engine, relative to the calls back into user code

    [call] runs a user callable; [mark_rec] is the recursive call
    [dep.mark(markedVariables)], that is [dep.variable.mark(markedVariables)].
    The recursion is closed over the fuel in [run] and [mark] below. *)
Section Engine.

Variable call : Prog -> M value.
Variable mark_rec : vref -> list vref -> M (list vref).

(** [this.executingDaemons.forEach(daemon => { daemon(); })].  The array is
    the former [daemonQueue]; nothing holds a reference that mutates it. *)
Fixpoint forEach_daemons (batch : list Prog) : M unit :=
  match batch with
  | [] => ret tt
  | daemon :: rest => _ <- call daemon ;; forEach_daemons rest
  end.

(** ConstraintSystem.executeDaemons *)
Definition executeDaemons : M unit := fun s =>
  match daemonQueue (system s), executingDaemons (system s) with
  | _ :: _, None =>
      (forEach_daemons (daemonQueue (system s)) ;;;
       modify clear_executing) (take_batch s)
  | _, _ => (Ok tt, s)
  end.

(** Variable.executeOutOfDateDaemon *)
Definition executeOutOfDateDaemon (this : vref) : M unit :=
  d <- gets (fun s => _outOfDateDaemon (var s this)) ;;
  match d with
  | None => ret tt
  | Some daemon =>
      t <- gets (fun s => _thisFormula (var s this)) ;;
      _ <- call (daemon t) ;;
      ret tt
  end.

(** [this._dependents.forEach(dep => ...)] of Variable.mark: the length is
    read once, the element at index [k] is read from the live array when the
    index is reached and an index that is no longer present is skipped.
    [n] is the number of indices still to visit. *)
Fixpoint forEach_dependents (n k : nat) (this : vref) (marked : list vref)
    (removals : list Dependency) : M (list vref * list Dependency) :=
  match n with
  | O => ret (marked, removals)
  | S n' =>
      e <- gets (fun s => _dependents (var s this) !! k) ;;
      match e with
      | None => forEach_dependents n' (S k) this marked removals
      | Some dep =>
          old <- gets (outOfDate dep) ;;
          if old then
            forEach_dependents n' (S k) this marked (removals ++ [dep])
          else
            marked' <- mark_rec (dep_variable dep) marked ;;
            forEach_dependents n' (S k) this marked' removals
      end
  end.

(** [removals.forEach(dep => { ...indexOf...splice... })] *)
Definition forEach_removals (this : vref) (removals : list Dependency) : M unit :=
  modify (fun s => foldl (fun s' dep => remove_dependent this dep s') s removals).

(** Variable.mark, with [markedVariables] already resolved by the caller
    ([[]] for [mark()], the shared array for [dep.mark(marked)]).  The array
    is returned because the callee pushes on it and pops from it. *)
Definition mark_body (this : vref) (markedVariables : list vref) : M (list vref) :=
  stale <- gets (fun s => _outOfDate (var s this)) ;;
  if negb stale && negb (bool_decide (this ∈ markedVariables)) then
    modify (upd_var this (set__outOfDate true)) ;;;
    executeOutOfDateDaemon this ;;;
    len <- gets (fun s => length (_dependents (var s this))) ;;
    r <- forEach_dependents len 0 this (this :: markedVariables) [] ;;
    forEach_removals this (snd r) ;;;
    ret (tail (fst r))
  else ret markedVariables.

(** [this.mark()] from a setter: a fresh [markedVariables] array. *)
Definition mark_top (this : vref) : M unit :=
  _ <- mark_rec this [] ;; ret tt.

(** Variable.computeFormula *)
Definition computeFormula (this : vref) : M unit :=
  stale <- gets (fun s => _outOfDate (var s this)) ;;
  if stale then
    modify (push_demanding this) ;;;
    modify (upd_var this (set__outOfDate false)) ;;;
    f <- gets (fun s => _formula (var s this)) ;;
    match f with
    | None => throw TypeError
    | Some formula =>
        t <- gets (fun s => _thisFormula (var s this)) ;;
        r <- call (formula t) ;;
        modify (upd_var this (set__value r)) ;;;
        modify (upd_var this incr_tick) ;;;
        modify pop_demanding
    end
  else ret tt.

(** Variable.sweep *)
Definition sweep (this : vref) : M unit :=
  modify (updateDependencies this) ;;;
  computeFormula this.

(** [get value()] *)
Definition get_value (this : vref) : M value :=
  executeDaemons ;;;
  sweep this ;;;
  gets (fun s => _value (var s this)).

(** [peek()] *)
Definition peek (this : vref) : M value :=
  gets (fun s => _value (var s this)).

(** [set value(value)] *)
Definition set_value (this : vref) (v : value) : M unit :=
  modify (upd_var this (set__value v)) ;;;
  modify (upd_var this (set__formula None)) ;;;
  modify (upd_var this (set__outOfDateDaemon None)) ;;;
  mark_top this ;;;
  modify (upd_var this (set__outOfDate false)).

(** [set formulaValue(value)] *)
Definition set_formulaValue (this : vref) (v : value) : M unit :=
  modify (upd_var this (set__value v)) ;;;
  mark_top this ;;;
  modify (upd_var this (set__outOfDate false)).

(** [set formula(formula)] *)
Definition set_formula (this : vref) (f : value -> Prog) : M unit :=
  modify (upd_var this (set__formula (Some f))) ;;;
  mark_top this.

(** [set thisFormula(thisFormula)] *)
Definition set_thisFormula (this : vref) (t : value) : M unit :=
  modify (upd_var this (set__thisFormula t)).

(** [set outOfDateDaemon(daemon)] *)
Definition set_outOfDateDaemon (this : vref) (d : option (value -> Prog)) : M unit :=
  modify (upd_var this (set__outOfDateDaemon d)).

(** The constructor called from user code. *)
Definition new_Variable (v : value) (f : option (value -> Prog)) (t : value)
    (d : option (value -> Prog)) : M vref :=
  fun s => let r := alloc (Variable_new v f t d) s in (Ok (fst r), snd r).

(** [copy()] *)
Definition copy (this : vref) : M vref :=
  v <- gets (fun s => var s this) ;;
  match _formula v with
  | None => new_Variable (_value v) None VNull None
  | Some f => new_Variable (_value v) (Some f) (_thisFormula v) (_outOfDateDaemon v)
  end.

End Engine.

(** ** Closing the recursion

    [fuel] bounds the depth of nested calls: every call into user code and
    every recursive [mark] runs with one unit less. *)
Fixpoint run (fuel : nat) (p : Prog) {struct fuel} : M value :=
  match fuel with
  | O => fun s => (OutOfFuel, s)
  | S n =>
      match p with
      | Ret v => ret v
      | Throw v => throw (Thrown v)
      | GetValue x k => v <- get_value (run n) x ;; run n (k v)
      | Peek x k => v <- peek x ;; run n (k v)
      | SetValue x v k => set_value (mark n) x v ;;; run n k
      | SetFormulaValue x v k => set_formulaValue (mark n) x v ;;; run n k
      | SetFormula x f k => set_formula (mark n) x f ;;; run n k
      | SetThisFormula x t k => set_thisFormula x t ;;; run n k
      | SetOutOfDateDaemon x d k => set_outOfDateDaemon x d ;;; run n k
      | NewVariable v f t d k => x <- new_Variable v f t d ;; run n (k x)
      | Copy x k => y <- copy x ;; run n (k y)
      | AddDaemon d k => modify (addDaemon d) ;;; run n k
      | Incr c k => modify (incr_counter c) ;;; run n k
      | ReadCounter c k => z <- gets (fun s => counter s c) ;; run n (k z)
      | TryCatch body handler k =>
          v <- try_catch (run n body) (fun e => run n (handler e)) ;; run n (k v)
      end
  end
with mark (fuel : nat) (this : vref) (markedVariables : list vref) {struct fuel}
    : M (list vref) :=
  match fuel with
  | O => fun s => (OutOfFuel, s)
  | S n => mark_body (run n) (mark n) this markedVariables
  end.

(** The public operations as the top-level script calls them. *)
Definition read (fuel : nat) (x : vref) : M value := get_value (run fuel) x.
Definition write (fuel : nat) (x : vref) (v : value) : M unit :=
  set_value (mark fuel) x v.
Definition seed (fuel : nat) (x : vref) (v : value) : M unit :=
  set_formulaValue (mark fuel) x v.
Definition replace_formula (fuel : nat) (x : vref) (f : value -> Prog) : M unit :=
  set_formula (mark fuel) x f.

(** The state of a freshly loaded module: [const system = new ConstraintSystem()]. *)
Definition init : State :=
  {| system := {| demandingVariables := []; daemonQueue := [];
                  executingDaemons := None |};
     heap := []; captured := ∅; next_oid := 0 |}.

(** ** Programs used as scenarios *)

(** The daemon [function() { n++; }] on the captured variable number [c]. *)
Definition counting (c : nat) : value -> Prog := fun _ => Incr c (Ret VNull).

(** The formula [function() { return z.value; }]. *)
Definition reading (z : vref) : value -> Prog := fun _ => GetValue z Ret.

(** [10 * v]; [null] counts as 0 in JavaScript arithmetic. *)
Definition times10 (v : value) : value :=
  match v with VNum z => VNum (10 * z) | VNull => VNum 0 end.

(** [v + k] *)
Definition plus (k : Z) (v : value) : value :=
  match v with VNum z => VNum (z + k) | VNull => VNum k end.

(** [u + v] *)
Definition sum (u v : value) : value :=
  match u, v with
  | VNum p, VNum q => VNum (p + q)
  | VNum p, VNull => VNum p
  | VNull, VNum q => VNum q
  | VNull, VNull => VNum 0
  end.

(** [new Variable(...)] at the top level, keeping only the new state. *)
Definition declare (v : value) (f : option (value -> Prog))
    (d : option (value -> Prog)) (s : State) : State :=
  snd (new_Variable v f VNull d s).

(** Scenario 1 of the specification: [x] is reference 0, [y] is reference 1,
    [n] is captured variable 0. *)
Module Scenario1.
Definition x : vref := 0%nat.
Definition y : vref := 1%nat.
Definition n (s : State) : Z := counter s 0.
Definition y_formula : value -> Prog :=
  fun _ => GetValue x (fun v => Ret (times10 v)).
Definition start : State :=
  declare VNull (Some y_formula) (Some (counting 0))
    (declare (VNum 0) None None init).
(** No read before the first write. *)
Definition after_write1 : State := snd (write 10 x (VNum 1) start).
Definition after_read_x1 : State := snd (read 10 x after_write1).
Definition after_read_y1 : State := snd (read 10 y after_read_x1).
Definition after_write2 : State := snd (write 10 x (VNum 2) after_read_y1).
(** With [x.value] and [y.value] read first, as the repository's test does. *)
Definition warmed : State := snd (read 10 y (snd (read 10 x start))).
Definition w_after_write1 : State := snd (write 10 x (VNum 1) warmed).
Definition w_after_read_x1 : State := snd (read 10 x w_after_write1).
Definition w_after_read_y1 : State := snd (read 10 y w_after_read_x1).
Definition w_after_write2 : State := snd (write 10 x (VNum 2) w_after_read_y1).
End Scenario1.

(** A former formula Variable overwritten by the write setter, with a
    surviving dependency edge: [z] is reference 0, [x] is reference 1.
    [x.value; x.value = 5; z.value = 7; x.value]. *)
Module StaleNoFormula.
Definition z : vref := 0%nat.
Definition x : vref := 1%nat.
Definition start : State :=
  declare VNull (Some (reading z)) None (declare (VNum 1) None None init).
Definition after_read : State := snd (read 10 x start).
Definition after_write_x : State := snd (write 10 x (VNum 5) after_read).
Definition after_write_z : State := snd (write 10 z (VNum 7) after_write_x).
End StaleNoFormula.

(** A formula that throws: [z] is reference 0, [x] is reference 1 with
    formula [function() { throw 42; }]. *)
Module ThrowingFormula.
Definition z : vref := 0%nat.
Definition x : vref := 1%nat.
Definition start : State :=
  declare VNull (Some (fun _ => Throw (VNum 42))) None
    (declare (VNum 1) None None init).
Definition after_failed_read : State := snd (read 10 x start).
Definition after_read_z : State := snd (read 10 z after_failed_read).
(** The same read of [z] had the failed read never happened. *)
Definition clean_read_z : State := snd (read 10 z start).
End ThrowingFormula.

(** A diamond: [x] (0) is read by [a] (1) and [b] (2), both read by [d] (3);
    the daemon of Variable [i] counts in captured variable [i]. *)
Module Diamond.
Definition x : vref := 0%nat.
Definition a : vref := 1%nat.
Definition b : vref := 2%nat.
Definition d : vref := 3%nat.
Definition d_formula : value -> Prog :=
  fun _ => GetValue a (fun u => GetValue b (fun v => Ret (sum u v))).
Definition build (d_daemon : value -> Prog) : State :=
  declare VNull (Some d_formula) (Some d_daemon)
    (declare VNull (Some (reading x)) (Some (counting 2))
      (declare VNull (Some (reading x)) (Some (counting 1))
        (declare (VNum 1) None None init))).
(** All edges recorded by one read of [d]. *)
Definition wired (d_daemon : value -> Prog) : State :=
  snd (read 10 d (build d_daemon)).
Definition after_write1 : State := snd (write 10 x (VNum 5) (wired (counting 3))).
Definition after_write2 : State := snd (write 10 x (VNum 6) after_write1).
(** [d]'s daemon seeds its own Variable:
    [function() { n3++; d.formulaValue = 0; }]. *)
Definition seeding : value -> Prog :=
  fun _ => Incr 3 (SetFormulaValue d (VNum 0) (Ret VNull)).
Definition seeded_after_write : State :=
  snd (write 10 x (VNum 5) (wired seeding)).
(** [d.formula = function() { return 7; }] with the seeding daemon. *)
Definition seeded_replaced : State :=
  snd (replace_formula 10 d (fun _ => Ret (VNum 7)) (wired seeding)).
End Diamond.

(** Two mutually dependent formulas: [celsius] (0) is [fahrenheit - 32],
    [fahrenheit] (1) is [celsius + 32] and counts its marks in captured
    variable 0. *)
Module Circular.
Definition celsius : vref := 0%nat.
Definition fahrenheit : vref := 1%nat.
Definition start : State :=
  declare (VNum 32) (Some (fun _ => GetValue celsius (fun v => Ret (plus 32 v))))
          (Some (counting 0))
    (declare (VNum 0)
             (Some (fun _ => GetValue fahrenheit (fun v => Ret (plus (-32) v))))
             None init).
Definition both_read : State := snd (read 10 fahrenheit (snd (read 10 celsius start))).
(** [fahrenheit.formulaValue = 50]: celsius is now stale, fahrenheit is not. *)
Definition seeded : State := snd (seed 10 fahrenheit (VNum 50) both_read).
(** [celsius.formula = function() { return 7; }] *)
Definition replaced : State :=
  snd (replace_formula 10 celsius (fun _ => Ret (VNum 7)) seeded).
End Circular.

(** System daemons.  [x] is reference 0; [counting_daemon c] is
    [function() { n_c++; }]. *)
Module SystemDaemons.
Definition x : vref := 0%nat.
Definition counting_daemon (c : nat) : Prog := Incr c (Ret VNull).
(** [addDaemon(d)] where [d] registers [counting_daemon 1], reads [x.value]
    (a reentrant read) and then counts in captured variable 0. *)
Definition registering : Prog :=
  AddDaemon (counting_daemon 1)
    (GetValue x (fun _ => counting_daemon 0)).
Definition start : State :=
  declare (VNum 0) None None
    (addDaemon (counting_daemon 2) (addDaemon registering init)).
Definition after_registering : State := snd (run 10 registering (take_batch start)).
Definition after_batch : State :=
  snd (run 10 (counting_daemon 2) after_registering).
Definition after_read : State := snd (read 10 x start).
(** A batch whose second daemon throws:
    [addDaemon(counting_daemon 0); addDaemon(() => { throw 7; });
     addDaemon(counting_daemon 1)]. *)
Definition throwing : Prog := Throw (VNum 7).
Definition start_throwing : State :=
  declare (VNum 0) None None
    (addDaemon (counting_daemon 1)
      (addDaemon throwing (addDaemon (counting_daemon 0) init))).
Definition before_throw : State :=
  snd (run 10 (counting_daemon 0) (take_batch start_throwing)).
Definition after_throw : State := snd (read 10 x start_throwing).
(** The program goes on: it registers another daemon and reads again. *)
Definition later : State :=
  snd (read 10 x (addDaemon (counting_daemon 3) after_throw)).
End SystemDaemons.

(** ** Vocabulary of the statements *)

(** A preorder on states that every elementary state change of the engine
    respects.  The two bracketed changes (push and pop of the demand stack,
    taking and releasing the daemon batch) are constrained as brackets. *)
Record respected (R : State -> State -> Prop) : Prop := {
  resp_refl : forall s, R s s;
  resp_trans : forall s1 s2 s3, R s1 s2 -> R s2 s3 -> R s1 s3;
  resp_field : forall s x f,
    (forall v, tick (f v) = tick v) ->
    (forall v, _dependents (f v) = _dependents v) ->
    R s (upd_var x f s);
  resp_tick : forall s x, R s (upd_var x incr_tick s);
  resp_updateDependencies : forall s x, R s (updateDependencies x s);
  resp_remove : forall s x d, R s (remove_dependent x d s);
  resp_demand : forall x s s',
    R (push_demanding x s) s' -> R s s' /\ R s (pop_demanding s');
  resp_flush : forall s s',
    executingDaemons (system s) = None ->
    R (take_batch s) s' -> R s s' /\ R s (clear_executing s');
  resp_addDaemon : forall s d, R s (addDaemon d s);
  resp_alloc : forall s v f t d,
    R s (snd (alloc (Variable_new v f t d) s));
  resp_incr : forall s c, R s (incr_counter c s)
}.

(** [m] respects [R] from every state and whatever its outcome. *)
Definition preserves (R : State -> State -> Prop) {A : Type} (m : M A) : Prop :=
  forall s, R s (snd (m s)).

(** Two Variable objects that differ at most in their [_dependents]. *)
Definition same_but_dependents (v v' : Var) : Prop :=
  _value v' = _value v /\ _formula v' = _formula v /\
  _thisFormula v' = _thisFormula v /\ _outOfDateDaemon v' = _outOfDateDaemon v /\
  tick v' = tick v /\ _outOfDate v' = _outOfDate v.

(** The demand stack of [s'] is the one of [s] with entries pushed on top. *)
Definition stack_extends (s s' : State) : Prop :=
  exists extra,
    demandingVariables (system s') = extra ++ demandingVariables (system s).

(** The state in which [computeFormula] invokes the formula of [x]: the edge
    to the demander is recorded, [x] is pushed and its flag is cleared. *)
Definition entering (x : vref) (s : State) : State :=
  upd_var x (set__outOfDate false) (push_demanding x (updateDependencies x s)).

(** While a flush is in progress with batch [b], it stays in progress and the
    queue only receives new registrations. *)
Definition flush_stuck (b : list Prog) (s s' : State) : Prop :=
  executingDaemons (system s) = Some b ->
  executingDaemons (system s') = Some b /\
  exists extra, daemonQueue (system s') = daemonQueue (system s) ++ extra.

(** The daemons of a batch run one after the other, first registered first,
    each exactly once and each returning normally. *)
Inductive runs_in_order (fuel : nat) : list Prog -> State -> State -> Prop :=
| runs_nil (s : State) : runs_in_order fuel [] s s
| runs_cons (d : Prog) (rest : list Prog) (s s1 s2 : State) (v : value) :
    run fuel d s = (Ok v, s1) ->
    runs_in_order fuel rest s1 s2 ->
    runs_in_order fuel (d :: rest) s s2.

(** No generation decreases. *)
Definition ticks_le (s s' : State) : Prop :=
  forall x, tick (var s x) <= tick (var s' x).

(** No generation changes. *)
Definition ticks_eq (s s' : State) : Prop :=
  forall x, tick (var s' x) = tick (var s x).

(** At most one edge per dependent Variable, in every [_dependents]. *)
Definition deduplicated (s : State) : Prop :=
  forall x, NoDup (dep_variable <$> _dependents (var s x)).

(** Deduplication is kept from [s] to [s']. *)
Definition keeps_deduplicated (s s' : State) : Prop :=
  deduplicated s -> deduplicated s'.

(** The out-of-date flag of the object behind [x]. *)
Definition stale (s : State) (x : vref) : bool := _outOfDate (var s x).

(** Number of Variables of the heap that are not out of date. *)
Fixpoint count_fresh (h : list Var) : nat :=
  match h with
  | [] => O
  | v :: h' => ((if _outOfDate v then 0 else 1) + count_fresh h')%nat
  end.

(** The same count for the heap of a state. *)
Definition nfresh (s : State) : nat := count_fresh (heap s).

(** Every outOfDateDaemon is absent or counts its invocations: the daemon of
    Variable [x] is [function() { n_x++; }] on captured variable [x]. *)
Definition instrumented (s : State) : Prop :=
  forall x, _outOfDateDaemon (var s x) = None \/
            _outOfDateDaemon (var s x) = Some (counting x).

(** 1 when [x] went from up to date to out of date and has a daemon. *)
Definition fires (s s' : State) (x : vref) : Z :=
  if negb (stale s x) && stale s' x && non_null (_outOfDateDaemon (var s x))
  then 1 else 0.

(** Two Variable objects that differ at most in flag and edges. *)
Definition same_configuration (v v' : Var) : Prop :=
  _value v' = _value v /\ _formula v' = _formula v /\
  _thisFormula v' = _thisFormula v /\ _outOfDateDaemon v' = _outOfDateDaemon v /\
  tick v' = tick v.

(** What a mark pass with counting daemons may do between [s] and [s']. *)
Record pass (s s' : State) : Prop := {
  pass_system : system s' = system s;
  pass_length : length (heap s') = length (heap s);
  pass_fields : forall x, same_configuration (var s x) (var s' x);
  pass_stale : forall x, stale s x = true -> var s' x = var s x;
  pass_fresh : forall x, stale s' x = false -> var s' x = var s x;
  pass_counter : forall c, counter s' c = counter s c + fires s s' c
}.

(** [y] has an edge to [z] that a mark pass would follow. *)
Definition live_edge (s : State) (y z : vref) : Prop :=
  exists dep, dep ∈ _dependents (var s y) /\ dep_variable dep = z /\
              outOfDate dep s = false.

(** Every Variable marked between [s] and [s'] has all its followed edges
    leading to out-of-date Variables in [s']. *)
Definition closed_under_edges (s s' : State) : Prop :=
  forall y z, stale s y = false -> stale s' y = true -> live_edge s y z ->
              (z < length (heap s))%nat -> stale s' z = true.

(** Reachability from [root] along followed edges through Variables that are
    not yet out of date. *)
Inductive reaches (s : State) (root : vref) : vref -> Prop :=
| reaches_root : reaches s root root
| reaches_step (y z : vref) :
    reaches s root y -> stale s y = false -> live_edge s y z ->
    reaches s root z.

(** The heap never loses an object. *)
Definition heap_grows (s s' : State) : Prop :=
  (length (heap s) <= length (heap s'))%nat.

(** The state of [x] right after [mark] set its flag and ran its daemon. *)
Definition flagged (x : vref) (s : State) : State :=
  let s1 := upd_var x (set__outOfDate true) s in
  if non_null (_outOfDateDaemon (var s1 x)) then incr_counter x s1 else s1.

(** What one call [m x marked] of a mark function achieves from the states
    satisfying [bound]. *)
Definition mark_meets (bound : State -> Prop)
    (m : vref -> list vref -> M (list vref)) : Prop :=
  forall s x marked,
    instrumented s ->
    (forall y, y ∈ marked -> stale s y = true) ->
    bound s ->
    exists s',
      m x marked s = (Ok marked, s') /\
      pass s s' /\ closed_under_edges s s' /\
      ((x < length (heap s))%nat -> stale s' x = true).

(** The state in which [set value] starts its mark pass. *)
Definition written (x : vref) (v : value) (s : State) : State :=
  upd_var x (set__outOfDateDaemon None)
    (upd_var x (set__formula None) (upd_var x (set__value v) s)).

(** The formula [function() { return f(z.value); }] for a pure [f]. *)
Definition reads_then (z : vref) (f : value -> value) : value -> Prog :=
  fun _ => GetValue z (fun v => Ret (f v)).

(** No flush will run at the next read: nothing queued or a flush in progress. *)
Definition no_flush (s : State) : Prop :=
  daemonQueue (system s) = [] \/ executingDaemons (system s) <> None.

(** User code that never reads a Variable through [value]: it may peek,
    assign, create Variables, register daemons and use its captured
    variables, and the outOfDateDaemons it installs never read either. *)
Inductive no_read : Prog -> Prop :=
| no_read_Ret (v : value) : no_read (Ret v)
| no_read_Throw (v : value) : no_read (Throw v)
| no_read_Peek (x : vref) (k : value -> Prog) :
    (forall v, no_read (k v)) -> no_read (Peek x k)
| no_read_SetValue (x : vref) (v : value) (k : Prog) :
    no_read k -> no_read (SetValue x v k)
| no_read_SetFormulaValue (x : vref) (v : value) (k : Prog) :
    no_read k -> no_read (SetFormulaValue x v k)
| no_read_SetFormula (x : vref) (f : value -> Prog) (k : Prog) :
    no_read k -> no_read (SetFormula x f k)
| no_read_SetThisFormula (x : vref) (t : value) (k : Prog) :
    no_read k -> no_read (SetThisFormula x t k)
| no_read_SetOutOfDateDaemon (x : vref) (d : option (value -> Prog)) (k : Prog) :
    (forall d', d = Some d' -> forall t, no_read (d' t)) ->
    no_read k -> no_read (SetOutOfDateDaemon x d k)
| no_read_NewVariable (v : value) (f : option (value -> Prog)) (t : value)
    (d : option (value -> Prog)) (k : vref -> Prog) :
    (forall d', d = Some d' -> forall t', no_read (d' t')) ->
    (forall y, no_read (k y)) -> no_read (NewVariable v f t d k)
| no_read_Copy (x : vref) (k : vref -> Prog) :
    (forall y, no_read (k y)) -> no_read (Copy x k)
| no_read_AddDaemon (d k : Prog) : no_read k -> no_read (AddDaemon d k)
| no_read_Incr (c : nat) (k : Prog) : no_read k -> no_read (Incr c k)
| no_read_ReadCounter (c : nat) (k : Z -> Prog) :
    (forall z, no_read (k z)) -> no_read (ReadCounter c k)
| no_read_TryCatch (body : Prog) (handler : exn -> Prog) (k : value -> Prog) :
    no_read body -> (forall e, no_read (handler e)) ->
    (forall v, no_read (k v)) -> no_read (TryCatch body handler k).

(** No outOfDateDaemon stored in the heap reads a Variable. *)
Definition quiet_heap (s : State) : Prop :=
  forall x d, _outOfDateDaemon (var s x) = Some d -> forall t, no_read (d t).

(** From a quiet heap, the heap stays quiet and no generation changes. *)
Definition keeps_ticks (s s' : State) : Prop :=
  quiet_heap s -> quiet_heap s' /\ ticks_eq s s'.

(** [m2] gives every result that [m1] gives without running out of fuel. *)
Definition extends {A : Type} (m1 m2 : M A) : Prop :=
  forall s r s', m1 s = (r, s') -> r <> OutOfFuel -> m2 s = (r, s').

(** The state in which [set formulaValue] starts its mark pass. *)
Definition seeded_with (x : vref) (v : value) (s : State) : State :=
  upd_var x (set__value v) s.

(** The formula [function() { return h(this); }] for a pure [h]. *)
Definition of_context (h : value -> value) : value -> Prog :=
  fun this => Ret (h this).

(** The state in which [computeFormula] leaves [x] once the formula has
    returned [r] in state [s1]: value stored, generation incremented, demand
    stack popped. *)
Definition leaving (x : vref) (r : value) (s1 : State) : State :=
  pop_demanding (upd_var x incr_tick (upd_var x (set__value r) s1)).


(** The repository's second test with the daemon of [y] counting in the
    captured variable of its own number: [x] is reference 0, [y = 10 * x] is
    reference 1 and has been read once. *)
Module Propagation.
Definition x : vref := 0%nat.
Definition y : vref := 1%nat.
Definition start : State :=
  declare VNull (Some (reads_then x times10)) (Some (counting 1))
    (declare (VNum 0) None None init).
Definition wired : State := snd (read 10 y start).
End Propagation.

(** The edges in each [_dependents] are distinct objects. *)
Definition distinct_identities (s : State) : Prop :=
  forall z, NoDup (oid <$> _dependents (var s z)).

(** The edges of [z] that are not out of date in [s], in their order. *)
Definition current_edges (s : State) (z : vref) : list Dependency :=
  filter (fun d => outOfDate d s = false) (_dependents (var s z)).

(** [removals.forEach(...)] of Variable.mark on the array itself. *)
Definition splice_all (l removals : list Dependency) : list Dependency :=
  foldl (fun l0 d => splice1 (indexOf d l0) l0) l removals.

(** What a mark pass from [x] over counting daemons changes and nothing
    more: a Variable it marks is reachable from [x], and is left with its
    edges that are not out of date. *)
Record exact_pass (x : vref) (s s' : State) : Prop := {
  exact_reaches : forall z,
    stale s z = false -> stale s' z = true -> reaches s x z;
  exact_pruned : forall z,
    stale s z = false -> stale s' z = true ->
    _dependents (var s' z) = current_edges s z
}.

(** Every edge has an identity below the next one to be given out, and no
    [_dependents] holds the same object twice. *)
Definition identified (s : State) : Prop :=
  distinct_identities s /\
  forall z d, d ∈ _dependents (var s z) -> (oid d < next_oid s)%nat.

(** Identities are kept from [s] to [s']. *)
Definition keeps_identified (s s' : State) : Prop :=
  identified s -> identified s'.

(** An edge that has gone out of date: [y] (1) was computed from [z] (0),
    then given a formula that no longer reads [z], and computed again. *)
Module Pruning.
Definition z : vref := 0%nat.
Definition y : vref := 1%nat.
Definition start : State :=
  declare VNull (Some (reads_then z times10)) None
    (declare (VNum 1) None None init).
Definition rewired : State :=
  snd (replace_formula 10 y (of_context (plus 1)) (snd (read 10 y start))).
Definition ready : State := snd (read 10 y rewired).
End Pruning.

(** The formula [function() { return f(z.peek()); }] for a pure [f]. *)
Definition peeks_then (z : vref) (f : value -> value) : value -> Prog :=
  fun _ => Peek z (fun v => Ret (f v)).

(** The formula of the repository's test of [thisFormula], without its
    [this.push(value)]:
    [function() { const value = n.value; n.value = value + 1; return value; }]. *)
Definition bumping (n : vref) : value -> Prog :=
  fun _ => GetValue n (fun v => SetValue n (plus 1 v) (Ret v)).

(** [evens] (1) and [odds] (2) share the formula that bumps [n] (0). *)
Module Bumping.
Definition n : vref := 0%nat.
Definition evens : vref := 1%nat.
Definition odds : vref := 2%nat.
Definition start : State :=
  declare VNull (Some (bumping n)) None
    (declare VNull (Some (bumping n)) None
      (declare (VNum 0) None None init)).
End Bumping.

(** User code without [try ... catch], installing only formulas and daemons
    without [try ... catch]. *)
Inductive no_catch : Prog -> Prop :=
| no_catch_Ret (v : value) : no_catch (Ret v)
| no_catch_Throw (v : value) : no_catch (Throw v)
| no_catch_GetValue (x : vref) (k : value -> Prog) :
    (forall v, no_catch (k v)) -> no_catch (GetValue x k)
| no_catch_Peek (x : vref) (k : value -> Prog) :
    (forall v, no_catch (k v)) -> no_catch (Peek x k)
| no_catch_SetValue (x : vref) (v : value) (k : Prog) :
    no_catch k -> no_catch (SetValue x v k)
| no_catch_SetFormulaValue (x : vref) (v : value) (k : Prog) :
    no_catch k -> no_catch (SetFormulaValue x v k)
| no_catch_SetFormula (x : vref) (f : value -> Prog) (k : Prog) :
    (forall t, no_catch (f t)) -> no_catch k -> no_catch (SetFormula x f k)
| no_catch_SetThisFormula (x : vref) (t : value) (k : Prog) :
    no_catch k -> no_catch (SetThisFormula x t k)
| no_catch_SetOutOfDateDaemon (x : vref) (d : option (value -> Prog)) (k : Prog) :
    (forall d', d = Some d' -> forall t, no_catch (d' t)) ->
    no_catch k -> no_catch (SetOutOfDateDaemon x d k)
| no_catch_NewVariable (v : value) (f : option (value -> Prog)) (t : value)
    (d : option (value -> Prog)) (k : vref -> Prog) :
    (forall f', f = Some f' -> forall t', no_catch (f' t')) ->
    (forall d', d = Some d' -> forall t', no_catch (d' t')) ->
    (forall y, no_catch (k y)) -> no_catch (NewVariable v f t d k)
| no_catch_Copy (x : vref) (k : vref -> Prog) :
    (forall y, no_catch (k y)) -> no_catch (Copy x k)
| no_catch_AddDaemon (d k : Prog) :
    no_catch d -> no_catch k -> no_catch (AddDaemon d k)
| no_catch_Incr (c : nat) (k : Prog) : no_catch k -> no_catch (Incr c k)
| no_catch_ReadCounter (c : nat) (k : Z -> Prog) :
    (forall z, no_catch (k z)) -> no_catch (ReadCounter c k).

(** No formula, outOfDateDaemon or queued daemon catches exceptions. *)
Record catch_free (s : State) : Prop := {
  cf_formula : forall x f, _formula (var s x) = Some f -> forall t, no_catch (f t);
  cf_daemon : forall x d,
    _outOfDateDaemon (var s x) = Some d -> forall t, no_catch (d t);
  cf_queue : Forall no_catch (daemonQueue (system s))
}.

(** When [m] returns normally from a catch-free state, the state is
    catch-free again and the demand stack is as it was. *)
Definition restores {A : Type} (m : M A) : Prop :=
  forall s r s', catch_free s -> m s = (Ok r, s') ->
    catch_free s' /\
    demandingVariables (system s') = demandingVariables (system s).

(** The repository's last test with integers and without daemons: [celsius]
    (0) is [fahrenheit - 32], [fahrenheit] (1) is [celsius + 32], and both have
    been read. *)
Module Conversion.
Definition celsius : vref := 0%nat.
Definition fahrenheit : vref := 1%nat.
Definition start : State :=
  declare (VNum 32) (Some (reads_then celsius (plus 32))) None
    (declare (VNum 0) (Some (reads_then fahrenheit (plus (-32)))) None init).
Definition both_read : State :=
  snd (read 10 fahrenheit (snd (read 10 celsius start))).
End Conversion.

(** A Variable whose daemon stores its [this] as the context of another:
    [w] (0) is plain, [x] (1) has context 4 and the daemon
    [function() { w.thisFormula = this; }]. *)
Module ContextDaemon.
Definition w : vref := 0%nat.
Definition x : vref := 1%nat.
Definition daemon : value -> Prog := fun this => SetThisFormula w this (Ret VNull).
Definition start : State :=
  snd (new_Variable (VNum 0) None (VNum 4) (Some daemon)
         (declare (VNum 0) None None init)).
End ContextDaemon.

(** An out-of-date daemon that reads: [x] (0) is plain, [y] (1) is
    [10 * x.value] with the daemon [function() { w.value; }], and [w] (2) has
    the formula [function() { return 5; }].  [y] has been read once, [w]
    never. *)
Module ReadingDaemon.
Definition x : vref := 0%nat.
Definition y : vref := 1%nat.
Definition w : vref := 2%nat.
Definition daemon : value -> Prog := fun _ => GetValue w (fun _ => Ret VNull).
Definition start : State :=
  declare VNull (Some (fun _ => Ret (VNum 5))) None
    (declare VNull (Some (reads_then x times10)) (Some daemon)
      (declare (VNum 0) None None init)).
Definition wired : State := snd (read 10 y start).
Definition after_write : State := snd (write 10 x (VNum 1) wired).
End ReadingDaemon.

(** The reads that follow [SystemDaemons.after_read]. *)
Module DeferredDaemon.
Definition second_read : State := snd (read 10 SystemDaemons.x SystemDaemons.after_read).
Definition third_read : State := snd (read 10 SystemDaemons.x second_read).
End DeferredDaemon.

(** The formula
    [function() { n.value; n.value = 0; return other.value; }]: it reads
    [n], writes [n] and returns the value of the other Variable. *)
Definition restless (n other : vref) : value -> Prog :=
  fun _ => GetValue n (fun _ => SetValue n (VNum 0) (GetValue other Ret)).

(** The states in which the formula of [x] has just been entered in a pair
    [x], [y] of Variables with formulas [restless n y] and [restless n x]:
    [y] is out of date, [n] is not, the daemons only count and no flush is
    pending. *)
Record restless_pair (n x y : vref) (s : State) : Prop := {
  rp_xy : x <> y;
  rp_nx : n <> x;
  rp_ny : n <> y;
  rp_n : (n < length (heap s))%nat;
  rp_fx : _formula (var s x) = Some (restless n y);
  rp_fy : _formula (var s y) = Some (restless n x);
  rp_daemons : instrumented s;
  rp_flush : no_flush s;
  rp_n_fresh : stale s n = false;
  rp_y_stale : stale s y = true;
  rp_top : exists rest, demandingVariables (system s) = x :: rest
}.

(** [n] (0) is plain; [a] (1) and [b] (2) read each other and both read and
    write [n]. *)
Module Restless.
Definition n : vref := 0%nat.
Definition a : vref := 1%nat.
Definition b : vref := 2%nat.
Definition start : State :=
  declare VNull (Some (restless n a)) None
    (declare VNull (Some (restless n b)) None
      (declare (VNum 0) None None init)).
(** Two more Variables whose formulas only read each other, [c] (3) is
    [d.value + 1] and [d] (4) is [c.value + 1], and the queued daemon
    [function() { a.value; }]. *)
Definition c : vref := 3%nat.
Definition d : vref := 4%nat.
Definition queued : State :=
  addDaemon (GetValue a (fun _ => Ret VNull))
    (declare VNull (Some (reads_then c (plus 1))) None
      (declare VNull (Some (reads_then d (plus 1))) None start)).
End Restless.

(** A formula body that does nothing but read, through [value], Variables
    that satisfy [allowed], any number of times and in any order, peek at
    Variables, and return a result computed from what it obtained. *)
Inductive reads_only (allowed : vref -> Prop) : Prog -> Prop :=
| reads_only_Ret (v : value) : reads_only allowed (Ret v)
| reads_only_GetValue (x : vref) (k : value -> Prog) :
    allowed x ->
    (forall v, reads_only allowed (k v)) ->
    reads_only allowed (GetValue x k)
| reads_only_Peek (x : vref) (k : value -> Prog) :
    (forall v, reads_only allowed (k v)) ->
    reads_only allowed (Peek x k).

(** The Variables that the formulas of a pair [a], [b] may read: [a], [b]
    and the Variables of [others]. *)
Definition pair_or (a b : vref) (others : vref -> Prop) : vref -> Prop :=
  fun x => x = a \/ x = b \/ others x.

(** [s'] differs from [s] in the [_dependents] arrays only. *)
Definition edges_only (s s' : State) : Prop :=
  system s' = system s /\ length (heap s') = length (heap s) /\
  forall z, same_but_dependents (var s z) (var s' z).

(** [pass_invokes fuel x marked s F p sd]: the call [x.mark(marked)] made in
    state [s] invokes the outOfDateDaemon body [p] in state [sd] (with fuel
    [F]), either as the daemon of [x] itself, right after the flag of [x] is
    set, or inside the recursive call [dep.mark(marked)] that the loop over
    [_dependents] makes at some index [k], the daemon of [x] and the loop up
    to [k] having returned normally. *)
Inductive pass_invokes :
  nat -> vref -> list vref -> State -> nat -> Prog -> State -> Prop :=
| invokes_own (fuel : nat) (x : vref) (marked : list vref) (s : State)
    (d : value -> Prog) :
    stale s x = false -> x ∉ marked ->
    _outOfDateDaemon (var s x) = Some d ->
    pass_invokes (S fuel) x marked s
      fuel (d (_thisFormula (var s x))) (upd_var x (set__outOfDate true) s)
| invokes_below (fuel : nat) (x : vref) (marked : list vref) (s s1 s2 : State)
    (k : nat) (m : list vref) (removals : list Dependency) (dep : Dependency)
    (F : nat) (p : Prog) (sd : State) :
    stale s x = false -> x ∉ marked ->
    executeOutOfDateDaemon (run fuel) x (upd_var x (set__outOfDate true) s)
      = (Ok tt, s1) ->
    (k < length (_dependents (var s1 x)))%nat ->
    forEach_dependents (mark fuel) k 0 x (x :: marked) [] s1
      = (Ok (m, removals), s2) ->
    _dependents (var s2 x) !! k = Some dep ->
    outOfDate dep s2 = false ->
    pass_invokes fuel (dep_variable dep) m s2 F p sd ->
    pass_invokes (S fuel) x marked s F p sd.

(** [x] (0) is plain, [y = 10 * x] (1) has a daemon that counts in captured
    variable 1 and [z = 10 * y] (2) has the daemon
    [function() { throw 9; }]; [z] has been read once. *)
Module ThrowingDaemon.
Definition x : vref := 0%nat.
Definition y : vref := 1%nat.
Definition z : vref := 2%nat.
Definition thrower : value -> Prog := fun _ => Throw (VNum 9).
Definition start : State :=
  declare VNull (Some (reads_then y times10)) (Some thrower)
    (declare VNull (Some (reads_then x times10)) (Some (counting 1))
      (declare (VNum 0) None None init)).
Definition wired : State := snd (read 10 z start).
(** The state in which the daemon of [z] is invoked by the write
    [x.value = 1], and the state it leaves. *)
Definition at_daemon : State :=
  upd_var z (set__outOfDate true)
    (incr_counter 1 (upd_var y (set__outOfDate true)
      (upd_var x (set__outOfDate true) (written x (VNum 1) wired)))).
Definition after_failed_write : State := snd (write 10 x (VNum 1) wired).
End ThrowingDaemon.

(** From [s] to [s'] only edges changed, except that [b] may have been
    recomputed, once. *)
Definition at_most_one_recomputation (b : vref) (s s' : State) : Prop :=
  system s' = system s /\ length (heap s') = length (heap s) /\
  (forall z, z <> b -> same_but_dependents (var s z) (var s' z)) /\
  _formula (var s' b) = _formula (var s b) /\
  tick (var s b) <= tick (var s' b) <= tick (var s b) + 1.
(** * Basic facts about the heap and the monad *)

Lemma var_upd_var (x : vref) (f : Var -> Var) (s : State) (y : vref) :
  var (upd_var x f s) y =
    if decide (x = y /\ (x < length (heap s))%nat) then f (var s x) else var s y.
Proof. unfold var, upd_var; simpl. apply list_lookup_total_alter. Qed.

Lemma var_upd_var_ne (x : vref) (f : Var -> Var) (s : State) (y : vref) :
  x <> y -> var (upd_var x f s) y = var s y.
Proof. intros Hne. rewrite var_upd_var. case_decide; [tauto | reflexivity]. Qed.

Lemma var_upd_var_eq (x : vref) (f : Var -> Var) (s : State) :
  (x < length (heap s))%nat -> var (upd_var x f s) x = f (var s x).
Proof. intros Hlt. rewrite var_upd_var. case_decide; [reflexivity | tauto]. Qed.

Lemma var_out_of_range (s : State) (x : vref) :
  (length (heap s) <= x)%nat -> var s x = Variable_new VNull None VNull None.
Proof.
  intros Hge. unfold var. rewrite list_lookup_total_alt.
  rewrite (lookup_ge_None_2 _ _ Hge). reflexivity.
Qed.

Lemma upd_var_out_of_range (x : vref) (f : Var -> Var) (s : State) :
  (length (heap s) <= x)%nat -> upd_var x f s = s.
Proof.
  intros Hge. destruct s as [c h k o]. unfold upd_var, with_heap; simpl in *.
  f_equal. apply list_eq. intros j. rewrite list_lookup_alter.
  case_decide; [subst|reflexivity].
  rewrite (lookup_ge_None_2 _ _ Hge). reflexivity.
Qed.

Lemma length_heap_upd_var (x : vref) (f : Var -> Var) (s : State) :
  length (heap (upd_var x f s)) = length (heap s).
Proof. unfold upd_var; simpl. apply length_alter. Qed.

Lemma bind_Ok {A B : Type} (m : M A) (f : A -> M B) (s s' : State) (a : A) :
  m s = (Ok a, s') -> bind m f s = f a s'.
Proof. intros H. unfold bind. rewrite H. reflexivity. Qed.

Lemma bind_Threw {A B : Type} (m : M A) (f : A -> M B) (s s' : State) (e : exn) :
  m s = (Threw e, s') -> bind m f s = (Threw e, s').
Proof. intros H. unfold bind. rewrite H. reflexivity. Qed.

(** * Relations preserved by every operation

    A respected preorder is respected by every run of user code, whatever the
    fuel and the outcome. *)
Section Preservation.

Variable R : State -> State -> Prop.
Hypothesis HR : respected R.

Let R_refl := resp_refl R HR.
Let R_trans := resp_trans R HR.
Let R_field := resp_field R HR.
Let R_tick := resp_tick R HR.
Let R_updateDependencies := resp_updateDependencies R HR.
Let R_remove := resp_remove R HR.
Let R_demand := resp_demand R HR.
Let R_flush := resp_flush R HR.
Let R_addDaemon := resp_addDaemon R HR.
Let R_alloc := resp_alloc R HR.
Let R_incr := resp_incr R HR.

Lemma preserves_ret {A : Type} (a : A) : preserves R (ret a).
Proof. intros s. apply R_refl. Qed.

Lemma preserves_throw {A : Type} (e : exn) : preserves R (@throw A e).
Proof. intros s. apply R_refl. Qed.

Lemma preserves_gets {A : Type} (f : State -> A) : preserves R (gets f).
Proof. intros s. apply R_refl. Qed.

Lemma preserves_modify (f : State -> State) :
  (forall s, R s (f s)) -> preserves R (modify f).
Proof. intros H s. apply H. Qed.

Lemma preserves_bind {A B : Type} (m : M A) (f : A -> M B) :
  preserves R m -> (forall a, preserves R (f a)) -> preserves R (bind m f).
Proof.
  intros Hm Hf s. unfold bind. specialize (Hm s).
  destruct (m s) as [[a|e|] s1]; simpl in *; auto.
  eapply R_trans; [exact Hm | apply Hf].
Qed.

Lemma preserves_try_catch {A : Type} (m : M A) (h : exn -> M A) :
  preserves R m -> (forall e, preserves R (h e)) -> preserves R (try_catch m h).
Proof.
  intros Hm Hh s. unfold try_catch. specialize (Hm s).
  destruct (m s) as [[a|e|] s1]; simpl in *; auto.
  eapply R_trans; [exact Hm | apply Hh].
Qed.

Lemma preserves_out_of_fuel {A : Type} :
  preserves R (fun s => (@OutOfFuel A, s)).
Proof. intros s. apply R_refl. Qed.

Lemma R_set_field (g : Var -> Var) (x : vref) :
  (forall v, tick (g v) = tick v) ->
  (forall v, _dependents (g v) = _dependents v) ->
  preserves R (modify (upd_var x g)).
Proof. intros Ht Hd. apply preserves_modify. intros s. by apply R_field. Qed.

Section Callbacks.

Variable call : Prog -> M value.
Variable mark_rec : vref -> list vref -> M (list vref).
Hypothesis call_ok : forall p, preserves R (call p).
Hypothesis mark_ok : forall x m, preserves R (mark_rec x m).

Lemma preserves_forEach_daemons (batch : list Prog) :
  preserves R (forEach_daemons call batch).
Proof.
  induction batch as [|d rest IH]; simpl.
  - apply preserves_ret.
  - apply preserves_bind; [apply call_ok | intros _; exact IH].
Qed.

Lemma preserves_executeDaemons : preserves R (executeDaemons call).
Proof.
  intros s. unfold executeDaemons.
  destruct (daemonQueue (system s)) as [|d q] eqn:Hq; [apply R_refl|].
  destruct (executingDaemons (system s)) eqn:He; [apply R_refl|].
  pose proof (preserves_forEach_daemons (d :: q) (take_batch s)) as Hb.
  destruct (R_flush s _ He Hb) as [Hexit Hdone].
  unfold bind, modify.
  destruct (forEach_daemons call (d :: q) (take_batch s)) as [[[]|e|] s1];
    simpl in *; auto.
Qed.

Lemma preserves_executeOutOfDateDaemon (x : vref) :
  preserves R (executeOutOfDateDaemon call x).
Proof.
  unfold executeOutOfDateDaemon.
  apply preserves_bind; [apply preserves_gets|]. intros [d|].
  - apply preserves_bind; [apply preserves_gets|]. intros t.
    apply preserves_bind; [apply call_ok|]. intros _. apply preserves_ret.
  - apply preserves_ret.
Qed.

Lemma preserves_forEach_dependents (n k : nat) (this : vref)
    (marked : list vref) (removals : list Dependency) :
  preserves R (forEach_dependents mark_rec n k this marked removals).
Proof.
  revert k marked removals.
  induction n as [|n IH]; intros k marked removals; simpl.
  - apply preserves_ret.
  - apply preserves_bind; [apply preserves_gets|]. intros [dep|]; [|apply IH].
    apply preserves_bind; [apply preserves_gets|]. intros [|]; [apply IH|].
    apply preserves_bind; [apply mark_ok|]. intros m. apply IH.
Qed.

Lemma preserves_forEach_removals (this : vref) (removals : list Dependency) :
  preserves R (forEach_removals this removals).
Proof.
  apply preserves_modify. induction removals as [|d l IH]; intros s; simpl.
  - apply R_refl.
  - eapply R_trans; [apply R_remove | apply IH].
Qed.

Lemma preserves_mark_body (this : vref) (marked : list vref) :
  preserves R (mark_body call mark_rec this marked).
Proof.
  unfold mark_body.
  apply preserves_bind; [apply preserves_gets|]. intros stale.
  destruct (negb stale && negb (bool_decide (this ∈ marked)));
    [|apply preserves_ret].
  apply preserves_bind; [by apply R_set_field|]. intros _.
  apply preserves_bind; [apply preserves_executeOutOfDateDaemon|]. intros _.
  apply preserves_bind; [apply preserves_gets|]. intros len.
  apply preserves_bind; [apply preserves_forEach_dependents|]. intros r.
  apply preserves_bind; [apply preserves_forEach_removals|]. intros _.
  apply preserves_ret.
Qed.

Lemma preserves_mark_top (this : vref) : preserves R (mark_top mark_rec this).
Proof.
  apply preserves_bind; [apply mark_ok|]. intros _. apply preserves_ret.
Qed.

Lemma preserves_computeFormula (this : vref) :
  preserves R (computeFormula call this).
Proof.
  intros s. unfold computeFormula, bind, gets, modify, throw; simpl.
  destruct (_outOfDate (var s this)); [|apply R_refl].
  set (s1 := push_demanding this s).
  set (s2 := upd_var this (set__outOfDate false) s1).
  assert (H12 : R s1 s2) by (by apply R_field).
  destruct (_formula (var s2 this)) as [f|]; simpl.
  - pose proof (call_ok (f (_thisFormula (var s2 this))) s2) as Hc.
    destruct (call (f (_thisFormula (var s2 this))) s2) as [[r|e|] s3];
      simpl in *.
    + apply (R_demand this s). eapply R_trans; [exact H12|].
      eapply R_trans; [exact Hc|].
      eapply R_trans;
        [apply (R_field s3 this (set__value r)); reflexivity | apply R_tick].
    + apply (R_demand this s). eapply R_trans; eassumption.
    + apply (R_demand this s). eapply R_trans; eassumption.
  - apply (R_demand this s). exact H12.
Qed.

Lemma preserves_sweep (this : vref) : preserves R (sweep call this).
Proof.
  apply preserves_bind.
  - apply preserves_modify. intros s. apply R_updateDependencies.
  - intros _. apply preserves_computeFormula.
Qed.

Lemma preserves_get_value (this : vref) : preserves R (get_value call this).
Proof.
  apply preserves_bind; [apply preserves_executeDaemons|]. intros _.
  apply preserves_bind; [apply preserves_sweep|]. intros _.
  apply preserves_gets.
Qed.

Lemma preserves_set_value (this : vref) (v : value) :
  preserves R (set_value mark_rec this v).
Proof.
  unfold set_value.
  apply preserves_bind; [by apply R_set_field|]. intros _.
  apply preserves_bind; [by apply R_set_field|]. intros _.
  apply preserves_bind; [by apply R_set_field|]. intros _.
  apply preserves_bind; [apply preserves_mark_top|]. intros _.
  by apply R_set_field.
Qed.

Lemma preserves_set_formulaValue (this : vref) (v : value) :
  preserves R (set_formulaValue mark_rec this v).
Proof.
  unfold set_formulaValue.
  apply preserves_bind; [by apply R_set_field|]. intros _.
  apply preserves_bind; [apply preserves_mark_top|]. intros _.
  by apply R_set_field.
Qed.

Lemma preserves_set_formula (this : vref) (f : value -> Prog) :
  preserves R (set_formula mark_rec this f).
Proof.
  unfold set_formula.
  apply preserves_bind; [by apply R_set_field|]. intros _.
  apply preserves_mark_top.
Qed.

End Callbacks.

Lemma preserves_new_Variable v f t d : preserves R (new_Variable v f t d).
Proof. intros s. apply R_alloc. Qed.

Lemma preserves_copy (this : vref) : preserves R (copy this).
Proof.
  unfold copy. apply preserves_bind; [apply preserves_gets|]. intros v.
  destruct (_formula v); apply preserves_new_Variable.
Qed.

(** Every run of user code and every mark pass respects [R]. *)
Lemma preserves_run_mark (fuel : nat) :
  (forall p, preserves R (run fuel p)) /\
  (forall x m, preserves R (mark fuel x m)).
Proof.
  induction fuel as [|n [IHrun IHmark]].
  - split; intros; apply preserves_out_of_fuel.
  - split.
    + intros p. destruct p; simpl.
      * apply preserves_ret.
      * apply preserves_throw.
      * apply preserves_bind; [by apply preserves_get_value|]. intros; apply IHrun.
      * apply preserves_bind; [apply preserves_gets|]. intros; apply IHrun.
      * apply preserves_bind; [by apply preserves_set_value|]. intros; apply IHrun.
      * apply preserves_bind; [by apply preserves_set_formulaValue|].
        intros; apply IHrun.
      * apply preserves_bind; [by apply preserves_set_formula|]. intros; apply IHrun.
      * apply preserves_bind; [by apply R_set_field|]. intros; apply IHrun.
      * apply preserves_bind; [by apply R_set_field|]. intros; apply IHrun.
      * apply preserves_bind; [apply preserves_new_Variable|]. intros; apply IHrun.
      * apply preserves_bind; [apply preserves_copy|]. intros; apply IHrun.
      * apply preserves_bind; [|intros; apply IHrun].
        apply preserves_modify. intros s. apply R_addDaemon.
      * apply preserves_bind; [|intros; apply IHrun].
        apply preserves_modify. intros s. apply R_incr.
      * apply preserves_bind; [apply preserves_gets|]. intros; apply IHrun.
      * apply preserves_bind; [|intros; apply IHrun].
        apply preserves_try_catch; [apply IHrun | intros; apply IHrun].
    + intros x m. simpl. by apply preserves_mark_body.
Qed.

Lemma preserves_run (fuel : nat) (p : Prog) : preserves R (run fuel p).
Proof. apply preserves_run_mark. Qed.

Lemma preserves_mark (fuel : nat) (x : vref) (m : list vref) :
  preserves R (mark fuel x m).
Proof. apply preserves_run_mark. Qed.

Lemma preserves_read (fuel : nat) (x : vref) : preserves R (read fuel x).
Proof. apply preserves_get_value. apply preserves_run. Qed.

Lemma preserves_write (fuel : nat) (x : vref) (v : value) :
  preserves R (write fuel x v).
Proof. apply preserves_set_value. apply preserves_mark. Qed.

Lemma preserves_seed (fuel : nat) (x : vref) (v : value) :
  preserves R (seed fuel x v).
Proof. apply preserves_set_formulaValue. apply preserves_mark. Qed.

Lemma preserves_replace_formula (fuel : nat) (x : vref) (f : value -> Prog) :
  preserves R (replace_formula fuel x f).
Proof. apply preserves_set_formula. apply preserves_mark. Qed.

End Preservation.

(** * What the elementary state changes leave alone *)

Lemma system_upd_var (x : vref) (f : Var -> Var) (s : State) :
  system (upd_var x f s) = system s.
Proof. reflexivity. Qed.

Lemma system_updateDependencies (x : vref) (s : State) :
  system (updateDependencies x s) = system s.
Proof.
  unfold updateDependencies.
  destruct (demandingVariables (system s)) as [|dv st]; [reflexivity|].
  destruct (list_find _ _) as [[i dep]|]; reflexivity.
Qed.

Lemma system_remove_dependent (x : vref) (d : Dependency) (s : State) :
  system (remove_dependent x d s) = system s.
Proof. reflexivity. Qed.

Lemma system_alloc (v : Var) (s : State) : system (snd (alloc v s)) = system s.
Proof. reflexivity. Qed.

Lemma system_incr_counter (c : nat) (s : State) :
  system (incr_counter c s) = system s.
Proof. reflexivity. Qed.

Lemma same_but_dependents_refl (v : Var) : same_but_dependents v v.
Proof. repeat split. Qed.

Lemma same_but_dependents_set (l : list Dependency) (v : Var) :
  same_but_dependents v (set__dependents l v).
Proof. repeat split. Qed.

Lemma var_upd_dependents (x : vref) (g : Var -> list Dependency) (s : State)
    (y : vref) :
  same_but_dependents (var s y)
    (var (upd_var x (fun v => set__dependents (g v) v) s) y).
Proof.
  rewrite var_upd_var. case_decide as H.
  - destruct H as [-> _]. apply same_but_dependents_set.
  - apply same_but_dependents_refl.
Qed.

Lemma var_updateDependencies (x : vref) (s : State) (y : vref) :
  same_but_dependents (var s y) (var (updateDependencies x s) y).
Proof.
  unfold updateDependencies.
  destruct (demandingVariables (system s)) as [|dv st];
    [apply same_but_dependents_refl|].
  destruct (list_find _ _) as [[i dep]|].
  - apply (var_upd_dependents x (fun v => <[i:=_]> (_dependents v))).
  - apply (var_upd_dependents x (fun v => _dependents v ++ [_]) s y).
Qed.

Lemma var_updateDependencies_ne (x : vref) (s : State) (y : vref) :
  x <> y -> var (updateDependencies x s) y = var s y.
Proof.
  intros Hne. unfold updateDependencies.
  destruct (demandingVariables (system s)) as [|dv st]; [reflexivity|].
  destruct (list_find _ _) as [[i dep]|].
  - by apply var_upd_var_ne.
  - by apply (var_upd_var_ne x (fun v => set__dependents (_dependents v ++ [_]) v) s y).
Qed.

Lemma var_remove_dependent (x : vref) (d : Dependency) (s : State) (y : vref) :
  same_but_dependents (var s y) (var (remove_dependent x d s) y).
Proof.
  apply (var_upd_dependents x
    (fun v => splice1 (indexOf d (_dependents v)) (_dependents v))).
Qed.

Lemma var_alloc (v : Var) (s : State) (y : vref) :
  var (snd (alloc v s)) y =
    if decide (y = length (heap s)) then v else var s y.
Proof.
  unfold var, alloc; simpl. case_decide as H.
  - subst y. rewrite lookup_total_app_r by lia.
    by rewrite Nat.sub_diag.
  - destruct (decide (y < length (heap s))%nat) as [Hlt|Hge].
    + by rewrite lookup_total_app_l.
    + rewrite !list_lookup_total_alt.
      rewrite !lookup_ge_None_2; [reflexivity | lia |].
      rewrite length_app; simpl; lia.
Qed.

Lemma stack_extends_refl (s : State) : stack_extends s s.
Proof. by exists []. Qed.

Lemma stack_extends_trans (s1 s2 s3 : State) :
  stack_extends s1 s2 -> stack_extends s2 s3 -> stack_extends s1 s3.
Proof.
  intros [e1 H1] [e2 H2]. exists (e2 ++ e1).
  by rewrite H2, H1, app_assoc.
Qed.

Lemma stack_extends_same_system (s s' : State) :
  system s' = system s -> stack_extends s s'.
Proof. intros H. exists []. by rewrite H. Qed.

Lemma stack_extends_demand (x : vref) (s s' : State) :
  stack_extends (push_demanding x s) s' ->
  stack_extends s s' /\ stack_extends s (pop_demanding s').
Proof.
  intros [extra H]. simpl in H. split.
  - exists (extra ++ [x]). by rewrite H, <- app_assoc.
  - destruct extra as [|e extra]; simpl in *.
    + exists []. simpl. by rewrite H.
    + exists (extra ++ [x]). simpl. by rewrite H, <- app_assoc.
Qed.

Lemma stack_extends_flush (s s' : State) :
  stack_extends (take_batch s) s' ->
  stack_extends s s' /\ stack_extends s (clear_executing s').
Proof. intros [extra H]. simpl in H. split; exists extra; simpl; exact H. Qed.

Lemma stack_extends_respected : respected stack_extends.
Proof.
  split.
  - apply stack_extends_refl.
  - apply stack_extends_trans.
  - intros; by apply stack_extends_same_system.
  - intros; by apply stack_extends_same_system.
  - intros; apply stack_extends_same_system, system_updateDependencies.
  - intros; by apply stack_extends_same_system.
  - apply stack_extends_demand.
  - intros s s' _. apply stack_extends_flush.
  - intros; by exists [].
  - intros; by apply stack_extends_same_system.
  - intros; by apply stack_extends_same_system.
Qed.

Lemma stack_extends_run (fuel : nat) (p : Prog) (s : State) :
  stack_extends s (snd (run fuel p s)).
Proof. apply preserves_run, stack_extends_respected. Qed.

(** A reference whose object is out of date is a reference into the heap. *)
Lemma stale_in_range (s : State) (x : vref) :
  _outOfDate (var s x) = true -> (x < length (heap s))%nat.
Proof.
  intros H. destruct (decide (x < length (heap s))%nat) as [|Hge]; [done|].
  rewrite var_out_of_range in H by lia. discriminate.
Qed.

Lemma formula_in_range (s : State) (x : vref) (f : value -> Prog) :
  _formula (var s x) = Some f -> (x < length (heap s))%nat.
Proof.
  intros H. destruct (decide (x < length (heap s))%nat) as [|Hge]; [done|].
  rewrite var_out_of_range in H by lia. discriminate.
Qed.

Lemma length_heap_updateDependencies (x : vref) (s : State) :
  length (heap (updateDependencies x s)) = length (heap s).
Proof.
  unfold updateDependencies.
  destruct (demandingVariables (system s)) as [|dv st]; [reflexivity|].
  destruct (list_find _ _) as [[i dep]|]; simpl; apply length_alter.
Qed.

(** A flush is skipped when nothing is queued or a flush is in progress. *)
Lemma executeDaemons_skip (call : Prog -> M value) (s : State) :
  daemonQueue (system s) = [] \/ executingDaemons (system s) <> None ->
  executeDaemons call s = (Ok tt, s).
Proof.
  intros H. unfold executeDaemons.
  destruct (daemonQueue (system s)); [reflexivity|].
  destruct (executingDaemons (system s)); [reflexivity|].
  destruct H; congruence.
Qed.

Lemma var_entering (x : vref) (s : State) :
  (x < length (heap s))%nat ->
  var (entering x s) x = set__outOfDate false (var (updateDependencies x s) x).
Proof.
  intros Hlt. unfold entering. rewrite var_upd_var_eq; [reflexivity|].
  simpl. by rewrite length_heap_updateDependencies.
Qed.

(** What a read of a stale formula Variable does, up to the formula call. *)
Lemma get_value_stale (call : Prog -> M value) (x : vref) (s : State)
    (f : value -> Prog) :
  daemonQueue (system s) = [] \/ executingDaemons (system s) <> None ->
  _outOfDate (var s x) = true ->
  _formula (var s x) = Some f ->
  get_value call x s =
    (r <- call (f (_thisFormula (var s x))) ;;
     modify (upd_var x (set__value r)) ;;;
     modify (upd_var x incr_tick) ;;;
     modify pop_demanding ;;;
     gets (fun s' => _value (var s' x))) (entering x s).
Proof.
  intros Hq Hstale Hf.
  pose proof (stale_in_range _ _ Hstale) as Hlt.
  destruct (var_updateDependencies x s x) as (_ & Hf' & Ht' & _ & _ & Hs').
  assert (Hef : _formula (var (entering x s) x) = Some f)
    by (rewrite var_entering by done; simpl; congruence).
  assert (Het : _thisFormula (var (entering x s) x) = _thisFormula (var s x))
    by (rewrite var_entering by done; simpl; congruence).
  unfold get_value. rewrite (bind_Ok _ _ _ _ _ (executeDaemons_skip call s Hq)).
  unfold sweep, computeFormula, bind at 1 2 3; simpl.
  unfold gets at 1, bind at 1; simpl. rewrite Hs', Hstale.
  unfold bind at 1 2 3 4 5, modify at 1 2, gets at 1 2; simpl.
  fold (entering x s). rewrite Hef, Het.
  unfold bind, modify, gets. destruct (call _ _) as [[r|e|] s1]; reflexivity.
Qed.

(** * A flush in progress stays in progress *)

Lemma flush_stuck_same_system (b : list Prog) (s s' : State) :
  system s' = system s -> flush_stuck b s s'.
Proof.
  intros H Hb. rewrite H. split; [exact Hb|]. exists []. by rewrite app_nil_r.
Qed.

Lemma flush_stuck_respected (b : list Prog) : respected (flush_stuck b).
Proof.
  split.
  - intros s. by apply flush_stuck_same_system.
  - intros s1 s2 s3 H12 H23 Hb.
    destruct (H12 Hb) as [Hb2 [e1 Hq2]]. destruct (H23 Hb2) as [Hb3 [e2 Hq3]].
    split; [exact Hb3|]. exists (e1 ++ e2). by rewrite Hq3, Hq2, app_assoc.
  - intros; by apply flush_stuck_same_system.
  - intros; by apply flush_stuck_same_system.
  - intros; apply flush_stuck_same_system, system_updateDependencies.
  - intros; by apply flush_stuck_same_system.
  - intros x s s' H. split.
    + intros Hb. apply (H Hb).
    + intros Hb. destruct (H Hb) as [Hb' [extra Hq]]. simpl in *.
      split; [exact Hb'|]. by exists extra.
  - intros s s' Hidle _. split; intros Hb; congruence.
  - intros s d Hb. simpl. split; [exact Hb|]. by exists [d].
  - intros; by apply flush_stuck_same_system.
  - intros; by apply flush_stuck_same_system.
Qed.

(** * Generations never decrease *)

Lemma ticks_le_same_heap (s s' : State) : heap s' = heap s -> ticks_le s s'.
Proof. intros H x. unfold var. rewrite H. lia. Qed.

Lemma ticks_le_respected : respected ticks_le.
Proof.
  split.
  - intros s x. lia.
  - intros s1 s2 s3 H12 H23 x. specialize (H12 x). specialize (H23 x). lia.
  - intros s x f Ht _ y. rewrite var_upd_var. case_decide as H.
    + destruct H as [-> _]. rewrite Ht. lia.
    + lia.
  - intros s x y. rewrite var_upd_var. case_decide as H.
    + destruct H as [-> _]. simpl. lia.
    + lia.
  - intros s x y.
    destruct (var_updateDependencies x s y) as (_ & _ & _ & _ & Ht & _). lia.
  - intros s x d y.
    destruct (var_remove_dependent x d s y) as (_ & _ & _ & _ & Ht & _). lia.
  - intros x s s' H. split; exact H.
  - intros s s' _ H. split; exact H.
  - intros; by apply ticks_le_same_heap.
  - intros s v f t d y. rewrite var_alloc. case_decide as H; [|lia].
    subst y. rewrite var_out_of_range by lia. simpl. lia.
  - intros; by apply ticks_le_same_heap.
Qed.

(** * One edge per dependent *)

Lemma deduplicated_same_heap (s s' : State) :
  heap s' = heap s -> keeps_deduplicated s s'.
Proof. intros H Hd x. unfold var. rewrite H. apply Hd. Qed.

Lemma NoDup_fmap_refresh (l : list Dependency) (i : nat) (d d' : Dependency) :
  l !! i = Some d -> dep_variable d' = dep_variable d ->
  dep_variable <$> <[i := d']> l = dep_variable <$> l.
Proof.
  intros Hi Hv. rewrite list_fmap_insert, Hv.
  apply list_insert_id. by rewrite list_lookup_fmap, Hi.
Qed.

Lemma NoDup_fmap_splice1 (pos : Z) (l : list Dependency) :
  NoDup (dep_variable <$> l) -> NoDup (dep_variable <$> splice1 pos l).
Proof.
  intros H. unfold splice1. rewrite list_fmap_delete.
  eapply sublist_NoDup; [exact H | apply sublist_delete].
Qed.

(** The edges of [x] after [updateDependencies] under the demander [dv]. *)
Lemma dependents_updateDependencies (x dv : vref) (rest : list vref) (s : State) :
  demandingVariables (system s) = dv :: rest ->
  (x < length (heap s))%nat ->
  _dependents (var (updateDependencies x s) x) =
    match list_find (fun d => dep_variable d = dv) (_dependents (var s x)) with
    | None => _dependents (var s x) ++ [Dependency_new (next_oid s) dv s]
    | Some (i, dep) =>
        <[i := {| oid := oid dep; dep_variable := dep_variable dep;
                  dep_tick := tick (var s dv) + 1 |}]> (_dependents (var s x))
    end.
Proof.
  intros Hst Hlt. unfold updateDependencies. rewrite Hst.
  destruct (list_find _ _) as [[i dep]|].
  - by rewrite var_upd_var_eq.
  - unfold var at 1; simpl. by rewrite list_lookup_total_alter_eq.
Qed.

Lemma deduplicated_updateDependencies (x : vref) (s : State) :
  keeps_deduplicated s (updateDependencies x s).
Proof.
  intros Hd y. destruct (decide (x = y)) as [<-|Hne];
    [|rewrite var_updateDependencies_ne by done; apply Hd].
  destruct (decide (x < length (heap s))%nat) as [Hlt|Hge].
  - destruct (demandingVariables (system s)) as [|dv rest] eqn:Hst.
    { unfold updateDependencies. rewrite Hst. apply Hd. }
    rewrite (dependents_updateDependencies x dv rest s Hst Hlt).
    destruct (list_find _ _) as [[i dep]|] eqn:Hfind.
    + apply list_find_Some in Hfind as (Hi & _ & _).
      rewrite (NoDup_fmap_refresh _ i dep); [apply Hd | exact Hi | reflexivity].
    + apply list_find_None in Hfind. rewrite fmap_app. apply NoDup_app.
      split; [apply Hd|]. split; [|apply NoDup_singleton].
      intros z Hz Hz'. apply list_elem_of_singleton in Hz'. simpl in Hz'. subst z.
      apply list_elem_of_fmap in Hz as (d & Hdv & Hin).
      rewrite Forall_forall in Hfind. by apply (Hfind d Hin).
  - assert (Hsame : var (updateDependencies x s) x = var s x).
    { rewrite !var_out_of_range; [reflexivity | lia |].
      rewrite length_heap_updateDependencies. lia. }
    rewrite Hsame. apply Hd.
Qed.

Lemma keeps_deduplicated_respected : respected keeps_deduplicated.
Proof.
  split.
  - intros s H. exact H.
  - intros s1 s2 s3 H12 H23 H. apply H23, H12, H.
  - intros s x f _ Hdeps Hd y. rewrite var_upd_var. case_decide as H.
    + destruct H as [-> _]. rewrite Hdeps. apply Hd.
    + apply Hd.
  - intros s x Hd y. rewrite var_upd_var. case_decide as H.
    + destruct H as [-> _]. apply Hd.
    + apply Hd.
  - intros s x. apply deduplicated_updateDependencies.
  - intros s x d Hd y. unfold remove_dependent. rewrite var_upd_var.
    case_decide as H; [|apply Hd].
    destruct H as [-> _]. simpl. apply NoDup_fmap_splice1, Hd.
  - intros x s s' H. split; exact H.
  - intros s s' _ H. split; exact H.
  - intros; by apply deduplicated_same_heap.
  - intros s v f t d Hd y. rewrite var_alloc. case_decide as H; [|apply Hd].
    simpl. apply NoDup_nil_2.
  - intros; by apply deduplicated_same_heap.
Qed.

(** * The heap never shrinks *)

Lemma heap_grows_respected : respected heap_grows.
Proof.
  unfold heap_grows. split.
  - intros; lia.
  - intros; lia.
  - intros. by rewrite length_heap_upd_var.
  - intros. by rewrite length_heap_upd_var.
  - intros. by rewrite length_heap_updateDependencies.
  - intros. unfold remove_dependent. by rewrite length_heap_upd_var.
  - intros x s s' H. split; exact H.
  - intros s s' _ H. split; exact H.
  - intros; simpl; lia.
  - intros; simpl. rewrite length_app; simpl; lia.
  - intros; simpl; lia.
Qed.

(** * More fuel changes no result *)

Lemma extends_refl {A : Type} (m : M A) : extends m m.
Proof. intros s r s' H _. exact H. Qed.

Lemma extends_trans {A : Type} (m1 m2 m3 : M A) :
  extends m1 m2 -> extends m2 m3 -> extends m1 m3.
Proof. intros H12 H23 s r s' H Hr. apply H23; [|exact Hr]. by apply H12. Qed.

Lemma extends_bind {A B : Type} (m1 m2 : M A) (f1 f2 : A -> M B) :
  extends m1 m2 -> (forall a, extends (f1 a) (f2 a)) ->
  extends (bind m1 f1) (bind m2 f2).
Proof.
  intros Hm Hf s r s' H Hr. unfold bind in *.
  destruct (m1 s) as [[a|e|] s1] eqn:E1.
  - rewrite (Hm s (Ok a) s1 E1) by done. by apply Hf.
  - rewrite (Hm s (Threw e) s1 E1) by done. exact H.
  - congruence.
Qed.

Lemma extends_try_catch {A : Type} (m1 m2 : M A) (h1 h2 : exn -> M A) :
  extends m1 m2 -> (forall e, extends (h1 e) (h2 e)) ->
  extends (try_catch m1 h1) (try_catch m2 h2).
Proof.
  intros Hm Hh s r s' H Hr. unfold try_catch in *.
  destruct (m1 s) as [[a|e|] s1] eqn:E1.
  - rewrite (Hm s (Ok a) s1 E1) by done. exact H.
  - rewrite (Hm s (Threw e) s1 E1) by done. by apply Hh.
  - congruence.
Qed.

Section MoreFuel.

Variable call1 call2 : Prog -> M value.
Variable mark1 mark2 : vref -> list vref -> M (list vref).
Hypothesis call_extends : forall p, extends (call1 p) (call2 p).
Hypothesis mark_extends : forall x m, extends (mark1 x m) (mark2 x m).

Lemma extends_forEach_daemons (batch : list Prog) :
  extends (forEach_daemons call1 batch) (forEach_daemons call2 batch).
Proof.
  induction batch as [|d rest IH]; simpl.
  - apply extends_refl.
  - apply extends_bind; [apply call_extends | intros _; exact IH].
Qed.

Lemma extends_executeDaemons : extends (executeDaemons call1) (executeDaemons call2).
Proof.
  intros s r s' H Hr. unfold executeDaemons in *.
  destruct (daemonQueue (system s)) as [|d q]; [exact H|].
  destruct (executingDaemons (system s)); [exact H|].
  revert H Hr. apply extends_bind; [apply extends_forEach_daemons|].
  intros _. apply extends_refl.
Qed.

Lemma extends_executeOutOfDateDaemon (x : vref) :
  extends (executeOutOfDateDaemon call1 x) (executeOutOfDateDaemon call2 x).
Proof.
  unfold executeOutOfDateDaemon.
  apply extends_bind; [apply extends_refl|]. intros [d|]; [|apply extends_refl].
  apply extends_bind; [apply extends_refl|]. intros t.
  apply extends_bind; [apply call_extends|]. intros _. apply extends_refl.
Qed.

Lemma extends_forEach_dependents (n k : nat) (this : vref) (marked : list vref)
    (removals : list Dependency) :
  extends (forEach_dependents mark1 n k this marked removals)
          (forEach_dependents mark2 n k this marked removals).
Proof.
  revert k marked removals.
  induction n as [|n IH]; intros k marked removals; simpl.
  - apply extends_refl.
  - apply extends_bind; [apply extends_refl|]. intros [dep|]; [|apply IH].
    apply extends_bind; [apply extends_refl|]. intros [|]; [apply IH|].
    apply extends_bind; [apply mark_extends|]. intros m. apply IH.
Qed.

Lemma extends_mark_body (this : vref) (marked : list vref) :
  extends (mark_body call1 mark1 this marked) (mark_body call2 mark2 this marked).
Proof.
  unfold mark_body.
  apply extends_bind; [apply extends_refl|]. intros b.
  destruct (negb b && negb (bool_decide (this ∈ marked))); [|apply extends_refl].
  apply extends_bind; [apply extends_refl|]. intros _.
  apply extends_bind; [apply extends_executeOutOfDateDaemon|]. intros _.
  apply extends_bind; [apply extends_refl|]. intros len.
  apply extends_bind; [apply extends_forEach_dependents|]. intros r.
  apply extends_refl.
Qed.

Lemma extends_mark_top (this : vref) :
  extends (mark_top mark1 this) (mark_top mark2 this).
Proof.
  apply extends_bind; [apply mark_extends|]. intros _. apply extends_refl.
Qed.

Lemma extends_computeFormula (this : vref) :
  extends (computeFormula call1 this) (computeFormula call2 this).
Proof.
  unfold computeFormula.
  apply extends_bind; [apply extends_refl|]. intros [|]; [|apply extends_refl].
  apply extends_bind; [apply extends_refl|]. intros _.
  apply extends_bind; [apply extends_refl|]. intros _.
  apply extends_bind; [apply extends_refl|]. intros [f|]; [|apply extends_refl].
  apply extends_bind; [apply extends_refl|]. intros t.
  apply extends_bind; [apply call_extends|]. intros r. apply extends_refl.
Qed.

Lemma extends_get_value (this : vref) :
  extends (get_value call1 this) (get_value call2 this).
Proof.
  unfold get_value, sweep.
  apply extends_bind; [apply extends_executeDaemons|]. intros _.
  apply extends_bind; [|intros _; apply extends_refl].
  apply extends_bind; [apply extends_refl|]. intros _.
  apply extends_computeFormula.
Qed.

Lemma extends_set_value (this : vref) (v : value) :
  extends (set_value mark1 this v) (set_value mark2 this v).
Proof.
  unfold set_value.
  apply extends_bind; [apply extends_refl|]. intros _.
  apply extends_bind; [apply extends_refl|]. intros _.
  apply extends_bind; [apply extends_refl|]. intros _.
  apply extends_bind; [apply extends_mark_top|]. intros _. apply extends_refl.
Qed.

Lemma extends_set_formulaValue (this : vref) (v : value) :
  extends (set_formulaValue mark1 this v) (set_formulaValue mark2 this v).
Proof.
  unfold set_formulaValue.
  apply extends_bind; [apply extends_refl|]. intros _.
  apply extends_bind; [apply extends_mark_top|]. intros _. apply extends_refl.
Qed.

Lemma extends_set_formula (this : vref) (f : value -> Prog) :
  extends (set_formula mark1 this f) (set_formula mark2 this f).
Proof.
  unfold set_formula.
  apply extends_bind; [apply extends_refl|]. intros _. apply extends_mark_top.
Qed.

End MoreFuel.

Lemma extends_run_mark_S (n : nat) :
  (forall p, extends (run n p) (run (S n) p)) /\
  (forall x m, extends (mark n x m) (mark (S n) x m)).
Proof.
  induction n as [|n [IHrun IHmark]].
  - split; intros; intros s r s' H Hr; simpl in H; congruence.
  - split.
    + intros p. destruct p;
        [apply extends_refl | apply extends_refl | ..];
        change (run (S (S n)) ?p) with (run (S (S n)) p); cbn [run];
        try (apply extends_bind; [|intros; apply IHrun]).
      * by apply extends_get_value.
      * apply extends_refl.
      * by apply extends_set_value.
      * by apply extends_set_formulaValue.
      * by apply extends_set_formula.
      * apply extends_refl.
      * apply extends_refl.
      * apply extends_refl.
      * apply extends_refl.
      * apply extends_refl.
      * apply extends_refl.
      * apply extends_refl.
      * apply extends_try_catch; [apply IHrun | intros; apply IHrun].
    + intros x m. cbn [mark]. by apply extends_mark_body.
Qed.

(** A result obtained with some fuel is the result with any larger fuel. *)
Lemma extends_run_mark (n m : nat) :
  (n <= m)%nat ->
  (forall p, extends (run n p) (run m p)) /\
  (forall x l, extends (mark n x l) (mark m x l)).
Proof.
  induction 1 as [|m Hle [IHrun IHmark]].
  - split; intros; apply extends_refl.
  - destruct (extends_run_mark_S m) as [Hrun Hmark]. split.
    + intros p. eapply extends_trans; [apply IHrun | apply Hrun].
    + intros x l. eapply extends_trans; [apply IHmark | apply Hmark].
Qed.

Lemma read_more_fuel (n m : nat) (x : vref) :
  (n <= m)%nat -> extends (read n x) (read m x).
Proof. intros H. apply extends_get_value. apply (extends_run_mark n m H). Qed.

Lemma write_more_fuel (n m : nat) (x : vref) (v : value) :
  (n <= m)%nat -> extends (write n x v) (write m x v).
Proof. intros H. apply extends_set_value. apply (extends_run_mark n m H). Qed.

Lemma seed_more_fuel (n m : nat) (x : vref) (v : value) :
  (n <= m)%nat -> extends (seed n x v) (seed m x v).
Proof. intros H. apply extends_set_formulaValue. apply (extends_run_mark n m H). Qed.

Lemma replace_formula_more_fuel (n m : nat) (x : vref) (f : value -> Prog) :
  (n <= m)%nat -> extends (replace_formula n x f) (replace_formula m x f).
Proof. intros H. apply extends_set_formula. apply (extends_run_mark n m H). Qed.

(** * Mark passes with counting daemons *)

Lemma count_fresh_mono (h h' : list Var) :
  length h = length h' ->
  (forall i, _outOfDate (h !!! i) = true -> _outOfDate (h' !!! i) = true) ->
  (count_fresh h' <= count_fresh h)%nat.
Proof.
  revert h'. induction h as [|v h IH]; intros [|v' h'] Hlen Hmono;
    simpl in *; try lia.
  assert (IH' : (count_fresh h' <= count_fresh h)%nat).
  { apply IH; [lia|]. intros i. apply (Hmono (S i)). }
  pose proof (Hmono 0%nat) as H0. simpl in H0.
  destruct (_outOfDate v), (_outOfDate v'); try lia;
    try (specialize (H0 eq_refl); discriminate).
Qed.

Lemma count_fresh_alter_stale (h : list Var) (i : nat) :
  (i < length h)%nat ->
  _outOfDate (h !!! i) = false ->
  count_fresh h = S (count_fresh (alter (set__outOfDate true) i h)).
Proof.
  revert i. induction h as [|v h IH]; intros i Hlt Hfresh; simpl in *; [lia|].
  destruct i as [|i]; simpl in *.
  - rewrite Hfresh. reflexivity.
  - rewrite (IH i); [|lia|exact Hfresh].
    destruct (_outOfDate v); reflexivity.
Qed.

Lemma same_configuration_refl (v : Var) : same_configuration v v.
Proof. repeat split. Qed.

Lemma same_configuration_trans (v1 v2 v3 : Var) :
  same_configuration v1 v2 -> same_configuration v2 v3 -> same_configuration v1 v3.
Proof.
  intros (A1 & A2 & A3 & A4 & A5) (B1 & B2 & B3 & B4 & B5).
  repeat split; congruence.
Qed.

Lemma fires_same_flag (s s' : State) (x : vref) :
  stale s' x = stale s x -> fires s s' x = 0.
Proof. intros H. unfold fires. rewrite H. by destruct (stale s x). Qed.

Lemma pass_refl (s : State) : pass s s.
Proof.
  split.
  - reflexivity.
  - reflexivity.
  - intros x. apply same_configuration_refl.
  - reflexivity.
  - reflexivity.
  - intros c. rewrite fires_same_flag by done. lia.
Qed.

Lemma pass_stale_mono (s s' : State) (x : vref) :
  pass s s' -> stale s x = true -> stale s' x = true.
Proof. intros H Hx. unfold stale. by rewrite (pass_stale _ _ H x Hx). Qed.

Lemma pass_trans (s1 s2 s3 : State) : pass s1 s2 -> pass s2 s3 -> pass s1 s3.
Proof.
  intros H12 H23. split.
  - by rewrite (pass_system _ _ H23), (pass_system _ _ H12).
  - by rewrite (pass_length _ _ H23), (pass_length _ _ H12).
  - intros x. eapply same_configuration_trans;
      [apply (pass_fields _ _ H12) | apply (pass_fields _ _ H23)].
  - intros x Hx. rewrite (pass_stale _ _ H23 x (pass_stale_mono _ _ _ H12 Hx)).
    by apply (pass_stale _ _ H12).
  - intros x Hx. pose proof (pass_fresh _ _ H23 x Hx) as H3.
    rewrite H3. apply (pass_fresh _ _ H12). unfold stale in *. by rewrite <- H3.
  - intros c. rewrite (pass_counter _ _ H23 c), (pass_counter _ _ H12 c).
    destruct (pass_fields _ _ H12 c) as (_ & _ & _ & Hd & _).
    unfold fires. rewrite Hd.
    destruct (stale s1 c) eqn:E1.
    + rewrite (pass_stale_mono _ _ _ H12 E1). simpl. lia.
    + destruct (stale s2 c) eqn:E2; simpl.
      * rewrite (pass_stale_mono _ _ _ H23 E2).
        destruct (non_null _); simpl; lia.
      * destruct (stale s3 c), (non_null _); simpl; lia.
Qed.

Lemma pass_nfresh (s s' : State) : pass s s' -> (nfresh s' <= nfresh s)%nat.
Proof.
  intros H. apply count_fresh_mono.
  - symmetry. apply (pass_length _ _ H).
  - intros i. apply (pass_stale_mono _ _ i H).
Qed.

Lemma pass_instrumented (s s' : State) :
  pass s s' -> instrumented s -> instrumented s'.
Proof.
  intros H Hi x. destruct (pass_fields _ _ H x) as (_ & _ & _ & Hd & _).
  rewrite Hd. apply Hi.
Qed.

Lemma pass_outOfDate (s s' : State) (d : Dependency) :
  pass s s' -> outOfDate d s' = outOfDate d s.
Proof.
  intros H. unfold outOfDate.
  destruct (pass_fields _ _ H (dep_variable d)) as (_ & _ & _ & _ & Ht).
  by rewrite Ht.
Qed.

Lemma pass_ticks (s s' : State) : pass s s' -> ticks_eq s s'.
Proof. intros H x. by destruct (pass_fields _ _ H x) as (_ & _ & _ & _ & Ht). Qed.

Lemma closed_refl (s : State) : closed_under_edges s s.
Proof. intros y z H1 H2. congruence. Qed.

Lemma closed_trans (s1 s2 s3 : State) :
  pass s1 s2 -> pass s2 s3 ->
  closed_under_edges s1 s2 -> closed_under_edges s2 s3 ->
  closed_under_edges s1 s3.
Proof.
  intros P12 P23 C12 C23 y z Hy1 Hy3 Hedge Hz.
  destruct (stale s2 y) eqn:Hy2.
  - apply (pass_stale_mono _ _ _ P23). by apply (C12 y z).
  - apply (C23 y z); try done.
    + destruct Hedge as (dep & Hin & Hz' & Hlive). exists dep.
      rewrite (pass_fresh _ _ P12 y Hy2). split; [done|]. split; [done|].
      by rewrite (pass_outOfDate _ _ _ P12).
    + by rewrite (pass_length _ _ P12).
Qed.

Lemma executeOutOfDateDaemon_counting (n : nat) (x : vref) (s : State) :
  instrumented s ->
  executeOutOfDateDaemon (run (S (S n))) x s =
    (Ok tt, if non_null (_outOfDateDaemon (var s x)) then incr_counter x s else s).
Proof.
  intros Hi. unfold executeOutOfDateDaemon, bind, gets; simpl.
  destruct (Hi x) as [H|H]; rewrite H; reflexivity.
Qed.

Lemma counter_incr_counter (c c' : nat) (s : State) :
  counter (incr_counter c s) c' =
    if decide (c = c') then counter s c + 1 else counter s c'.
Proof.
  unfold counter at 1, incr_counter; simpl. case_decide as H.
  - subst. by rewrite lookup_insert_eq.
  - by rewrite lookup_insert_ne.
Qed.

Lemma foldl_remove_dependent (this : vref) (removals : list Dependency) (s : State) :
  let s' := foldl (fun s0 d => remove_dependent this d s0) s removals in
  system s' = system s /\ captured s' = captured s /\
  length (heap s') = length (heap s) /\
  (forall y, same_but_dependents (var s y) (var s' y)) /\
  (forall y, y <> this -> var s' y = var s y).
Proof.
  revert s. induction removals as [|d l IH]; intros s; simpl.
  - repeat split; reflexivity.
  - destruct (IH (remove_dependent this d s)) as (A & B & C & D & E).
    split; [by rewrite A|]. split; [by rewrite B|].
    split; [by rewrite C; apply length_heap_upd_var|]. split.
    + intros y. destruct (D y) as (D1 & D2 & D3 & D4 & D5 & D6).
      destruct (var_remove_dependent this d s y) as (F1 & F2 & F3 & F4 & F5 & F6).
      repeat split; congruence.
    + intros y Hne. rewrite (E y Hne). by apply var_upd_var_ne.
Qed.

Lemma var_flagged (x : vref) (s : State) (y : vref) :
  var (flagged x s) y =
    if decide (x = y /\ (x < length (heap s))%nat)
    then set__outOfDate true (var s x) else var s y.
Proof.
  unfold flagged. rewrite <- (var_upd_var x (set__outOfDate true) s y).
  by destruct (non_null _).
Qed.

Lemma pass_flagged (x : vref) (s : State) :
  (x < length (heap s))%nat -> stale s x = false -> pass s (flagged x s).
Proof.
  intros Hlt Hfresh.
  assert (Hd : _outOfDateDaemon (var (upd_var x (set__outOfDate true) s) x)
               = _outOfDateDaemon (var s x)) by (by rewrite var_upd_var_eq).
  split.
  - unfold flagged. by destruct (non_null _).
  - unfold flagged. destruct (non_null _); simpl; apply length_alter.
  - intros y. rewrite var_flagged. case_decide as H.
    + destruct H as [<- _]. repeat split.
    + apply same_configuration_refl.
  - intros y Hy. rewrite var_flagged. case_decide as H; [|reflexivity].
    destruct H as [<- _]. congruence.
  - intros y Hy. unfold stale in Hy. rewrite var_flagged in *.
    case_decide as H; [|reflexivity]. simpl in Hy. discriminate.
  - intros c. unfold fires, stale. rewrite var_flagged.
    unfold flagged. rewrite Hd.
    destruct (decide (x = c)) as [<-|Hne].
    + rewrite decide_True by done. unfold stale in Hfresh. rewrite Hfresh. simpl.
      destruct (non_null _).
      * rewrite counter_incr_counter, decide_True by done. reflexivity.
      * unfold counter; simpl. lia.
    + rewrite decide_False by tauto.
      assert (Hz : negb (_outOfDate (var s c)) && _outOfDate (var s c)
                     && non_null (_outOfDateDaemon (var s c)) = false)
        by (by destruct (_outOfDate (var s c))).
      rewrite Hz. destruct (non_null (_outOfDateDaemon (var s x))).
      * rewrite counter_incr_counter, decide_False by done.
        unfold counter; simpl. lia.
      * unfold counter; simpl. lia.
Qed.

Section MarkLoop.

Variable bound : State -> Prop.
Variable mark_rec : vref -> list vref -> M (list vref).
Hypothesis bound_pass : forall s s', pass s s' -> bound s -> bound s'.
Hypothesis mark_rec_meets : mark_meets bound mark_rec.

Lemma forEach_dependents_spec (n k : nat) (this : vref) (marked : list vref)
    (removals : list Dependency) (s : State) :
  instrumented s ->
  (forall y, y ∈ marked -> stale s y = true) ->
  stale s this = true ->
  bound s ->
  exists removals' s',
    forEach_dependents mark_rec n k this marked removals s
      = (Ok (marked, removals'), s') /\
    pass s s' /\ closed_under_edges s s' /\
    (forall i dep,
        (k <= i < k + n)%nat ->
        _dependents (var s this) !! i = Some dep ->
        outOfDate dep s = false ->
        (dep_variable dep < length (heap s))%nat ->
        stale s' (dep_variable dep) = true).
Proof.
  revert k removals s. induction n as [|n IH]; intros k removals s Hi Hm Hthis Hb.
  - exists removals, s. simpl. split; [reflexivity|].
    split; [apply pass_refl|]. split; [apply closed_refl|]. intros; lia.
  - simpl. unfold bind at 1, gets at 1.
    destruct (_dependents (var s this) !! k) as [dep|] eqn:Hk.
    + unfold bind at 1, gets at 1.
      destruct (outOfDate dep s) eqn:Hold.
      * destruct (IH (S k) (removals ++ [dep]) s Hi Hm Hthis Hb)
          as (r' & s' & Hrun & Hp & Hc & Hall).
        exists r', s'. split; [exact Hrun|]. split; [exact Hp|].
        split; [exact Hc|]. intros i d Hrange Hd Hlive Hin.
        destruct (decide (i = k)) as [->|Hne]; [congruence|].
        apply (Hall i d); (lia || done).
      * destruct (mark_rec_meets s (dep_variable dep) marked Hi Hm Hb)
          as (s1 & Hmark & Hp1 & Hc1 & Hst1).
        rewrite (bind_Ok _ _ _ _ _ Hmark).
        assert (Hthis1 : var s1 this = var s this) by (by apply (pass_stale _ _ Hp1)).
        destruct (IH (S k) removals s1) as (r' & s' & Hrun & Hp & Hc & Hall).
        { by apply (pass_instrumented s). }
        { intros y Hy. apply (pass_stale_mono _ _ _ Hp1). by apply Hm. }
        { by apply (pass_stale_mono _ _ _ Hp1). }
        { by apply (bound_pass s). }
        exists r', s'. split; [exact Hrun|].
        split; [by apply (pass_trans s s1 s')|].
        split; [by apply (closed_trans s s1 s')|].
        intros i d Hrange Hd Hlive Hin.
        destruct (decide (i = k)) as [->|Hne].
        -- assert (d = dep) by congruence. subst d.
           apply (pass_stale_mono _ _ _ Hp). by apply Hst1.
        -- apply (Hall i d).
           ++ lia.
           ++ by rewrite Hthis1.
           ++ by rewrite (pass_outOfDate _ _ _ Hp1).
           ++ by rewrite (pass_length _ _ Hp1).
    + destruct (IH (S k) removals s Hi Hm Hthis Hb)
        as (r' & s' & Hrun & Hp & Hc & Hall).
      exists r', s'. split; [exact Hrun|]. split; [exact Hp|].
      split; [exact Hc|]. intros i d Hrange Hd Hlive Hin.
      destruct (decide (i = k)) as [->|Hne]; [congruence|].
      apply (Hall i d); (lia || done).
Qed.

End MarkLoop.

Lemma stale_foldl_remove (this : vref) (removals : list Dependency) (s : State)
    (y : vref) :
  stale (foldl (fun s0 d => remove_dependent this d s0) s removals) y = stale s y.
Proof.
  destruct (foldl_remove_dependent this removals s) as (_ & _ & _ & D & _).
  by destruct (D y) as (_ & _ & _ & _ & _ & H).
Qed.

(** Pruning the edges of a Variable marked in this pass keeps the pass. *)
Lemma pass_after_removals (this : vref) (removals : list Dependency) (s s3 : State) :
  pass s s3 -> stale s this = false -> stale s3 this = true ->
  pass s (foldl (fun s0 d => remove_dependent this d s0) s3 removals).
Proof.
  intros Hp Hfresh Hstale.
  destruct (foldl_remove_dependent this removals s3) as (A & B & C & D & E).
  simpl in *. set (s4 := foldl _ s3 removals) in *.
  assert (Hflag : forall y, stale s4 y = stale s3 y)
    by (intros y; apply stale_foldl_remove).
  split.
  - by rewrite A, (pass_system _ _ Hp).
  - by rewrite C, (pass_length _ _ Hp).
  - intros y. destruct (pass_fields _ _ Hp y) as (P1 & P2 & P3 & P4 & P5).
    destruct (D y) as (D1 & D2 & D3 & D4 & D5 & D6). repeat split; congruence.
  - intros y Hy. rewrite E by congruence. by apply (pass_stale _ _ Hp).
  - intros y Hy. rewrite Hflag in Hy. rewrite E by congruence.
    by apply (pass_fresh _ _ Hp).
  - intros c. unfold fires. rewrite Hflag. fold (fires s s3 c).
    rewrite <- (pass_counter _ _ Hp c). unfold counter. by rewrite B.
Qed.

Lemma closed_after_removals (this : vref) (removals : list Dependency) (s s3 : State) :
  closed_under_edges s s3 ->
  closed_under_edges s (foldl (fun s0 d => remove_dependent this d s0) s3 removals).
Proof.
  intros Hc y z Hy Hy4 Hedge Hz. rewrite stale_foldl_remove in *.
  by apply (Hc y z).
Qed.

Lemma instrumented_upd_flag (x : vref) (b : bool) (s : State) :
  instrumented s -> instrumented (upd_var x (set__outOfDate b) s).
Proof.
  intros Hi y. rewrite var_upd_var. case_decide as H; [|apply Hi].
  destruct H as [<- _]. apply Hi.
Qed.

Section MarkBody.

Variable bound bound' : State -> Prop.
Variable mark_rec : vref -> list vref -> M (list vref).
Hypothesis bound_pass : forall s s', pass s s' -> bound s -> bound s'.
Hypothesis bound_flagged : forall s x,
  bound' s -> (x < length (heap s))%nat -> stale s x = false ->
  bound (flagged x s).
Hypothesis mark_rec_meets : mark_meets bound mark_rec.

Lemma mark_body_meets (n : nat) :
  mark_meets bound' (mark_body (run (S (S n))) mark_rec).
Proof.
  intros s x marked Hi Hm Hb. unfold mark_body.
  unfold bind at 1, gets at 1. fold (stale s x).
  destruct (stale s x) eqn:Hx; simpl.
  { exists s. split; [reflexivity|]. split; [apply pass_refl|].
    split; [apply closed_refl|]. done. }
  assert (Hnot : bool_decide (x ∈ marked) = false).
  { apply bool_decide_eq_false. intros Hin. specialize (Hm x Hin). congruence. }
  rewrite Hnot; simpl.
  unfold bind at 1, modify at 1.
  destruct (decide (x < length (heap s))%nat) as [Hlt|Hge].
  - (* the Variable is marked now *)
    pose proof (pass_flagged x s Hlt Hx) as Hp2.
    rewrite (bind_Ok _ _ _ _ _
               (executeOutOfDateDaemon_counting n x _
                  (instrumented_upd_flag x true s Hi))).
    fold (flagged x s). unfold bind at 1, gets at 1.
    set (s2 := flagged x s) in *.
    assert (Hx2 : stale s2 x = true).
    { unfold stale, s2. rewrite var_flagged, decide_True by done. reflexivity. }
    assert (Hdeps : _dependents (var s2 x) = _dependents (var s x)).
    { unfold s2. rewrite var_flagged, decide_True by done. reflexivity. }
    destruct (forEach_dependents_spec bound mark_rec bound_pass mark_rec_meets
                (length (_dependents (var s2 x))) 0 x (x :: marked) [] s2)
      as (removals & s3 & Hloop & Hp23 & Hc23 & Hall).
    { by apply (pass_instrumented s). }
    { intros y Hy. apply elem_of_cons in Hy as [->|Hy]; [exact Hx2|].
      apply (pass_stale_mono _ _ _ Hp2). by apply Hm. }
    { exact Hx2. }
    { by apply bound_flagged. }
    rewrite (bind_Ok _ _ _ _ _ Hloop). simpl.
    unfold forEach_removals, bind, modify, ret; simpl.
    eexists. split; [reflexivity|].
    assert (Hp3 : pass s s3) by (by apply (pass_trans s s2 s3)).
    assert (Hx3 : stale s3 x = true) by (by apply (pass_stale_mono _ _ _ Hp23)).
    assert (Hc3 : closed_under_edges s s3).
    { intros y z Hy Hy3 Hedge Hz.
      destruct Hedge as (dep & Hin & Hz' & Hlive).
      destruct (decide (y = x)) as [->|Hne].
      - apply list_elem_of_lookup in Hin as [i Hi'].
        subst z. apply (Hall i dep).
        + pose proof (lookup_lt_Some _ _ _ Hi'). rewrite Hdeps. lia.
        + by rewrite Hdeps.
        + by rewrite (pass_outOfDate _ _ _ Hp2).
        + by rewrite (pass_length _ _ Hp2).
      - assert (Hy2 : var s2 y = var s y).
        { unfold s2. rewrite var_flagged, decide_False; [done | intros [? _]; congruence]. }
        apply (Hc23 y z).
        + unfold stale. by rewrite Hy2.
        + exact Hy3.
        + exists dep. rewrite Hy2. split; [done|]. split; [done|].
          by rewrite (pass_outOfDate _ _ _ Hp2).
        + by rewrite (pass_length _ _ Hp2). }
    split; [by apply pass_after_removals|].
    split; [by apply closed_after_removals|].
    intros _. by rewrite stale_foldl_remove.
  - (* a reference outside the heap: nothing to mark *)
    rewrite upd_var_out_of_range by lia.
    assert (Hdef : var s x = Variable_new VNull None VNull None)
      by (apply var_out_of_range; lia).
    unfold executeOutOfDateDaemon, bind, gets, ret, forEach_removals, modify.
    rewrite Hdef; simpl. rewrite Hdef; simpl.
    exists s. split; [reflexivity|]. split; [apply pass_refl|].
    split; [apply closed_refl|]. lia.
Qed.

End MarkBody.

Lemma nfresh_flagged (x : vref) (s : State) :
  (x < length (heap s))%nat -> stale s x = false ->
  nfresh s = S (nfresh (flagged x s)).
Proof.
  intros Hlt Hx. unfold nfresh.
  rewrite (count_fresh_alter_stale (heap s) x Hlt Hx).
  unfold flagged. by destruct (non_null _).
Qed.

(** A mark pass over counting daemons returns; the recursion is no deeper
    than the number of Variables that are not out of date. *)
Lemma mark_meets_fuel (K : nat) :
  mark_meets (fun s => (nfresh s <= K)%nat) (mark (3 + K)).
Proof.
  induction K as [|K IH].
  - apply (mark_body_meets (fun _ => False) _ (mark 2)).
    + tauto.
    + intros s x Hb Hlt Hx. rewrite (nfresh_flagged x s Hlt Hx) in Hb. lia.
    + intros s x marked _ _ [].
  - apply (mark_body_meets (fun s => (nfresh s <= K)%nat) _ (mark (3 + K))).
    + intros s s' Hp Hb. pose proof (pass_nfresh _ _ Hp). lia.
    + intros s x Hb Hlt Hx. rewrite (nfresh_flagged x s Hlt Hx) in Hb. lia.
    + exact IH.
Qed.

Lemma mark_instrumented (fuel : nat) (x : vref) (s : State) :
  instrumented s ->
  (nfresh s + 3 <= fuel)%nat ->
  exists s',
    mark fuel x [] s = (Ok [], s') /\
    pass s s' /\ closed_under_edges s s' /\
    ((x < length (heap s))%nat -> stale s' x = true).
Proof.
  intros Hi Hfuel.
  replace fuel with (3 + (fuel - 3))%nat by lia.
  apply (mark_meets_fuel (fuel - 3)); [exact Hi | | lia].
  intros y Hy. by apply elem_of_nil in Hy.
Qed.

(** A mark pass stops at once at a Variable that is already out of date. *)
Lemma mark_already_stale (fuel : nat) (x : vref) (marked : list vref) (s : State) :
  stale s x = true -> mark (S fuel) x marked s = (Ok marked, s).
Proof.
  intros Hx. simpl. unfold mark_body, bind, gets. fold (stale s x).
  by rewrite Hx.
Qed.

Lemma live_edge_in_range (s : State) (y z : vref) :
  live_edge s y z -> (y < length (heap s))%nat.
Proof.
  intros (dep & Hin & _). destruct (decide (y < length (heap s))%nat); [done|].
  rewrite var_out_of_range in Hin by lia. simpl in Hin.
  by apply elem_of_nil in Hin.
Qed.

(** After a pass, everything reachable from a marked root is out of date. *)
Lemma reaches_stale (s s' : State) (root z : vref) :
  pass s s' -> closed_under_edges s s' ->
  ((root < length (heap s))%nat -> stale s' root = true) ->
  reaches s root z ->
  (z < length (heap s))%nat -> stale s' z = true.
Proof.
  intros Hp Hc Hroot Hreach. induction Hreach as [|y z Hy IH Hfresh Hedge].
  - exact Hroot.
  - intros Hz. apply (Hc y z); try done.
    apply IH. by apply (live_edge_in_range s y z).
Qed.

(** States that agree on flags and edges have the same reachability. *)
Lemma reaches_same_graph (s s0 : State) (root z : vref) :
  (forall y, _outOfDate (var s0 y) = _outOfDate (var s y) /\
             _dependents (var s0 y) = _dependents (var s y) /\
             tick (var s0 y) = tick (var s y)) ->
  reaches s root z -> reaches s0 root z.
Proof.
  intros Hsame. induction 1 as [|y z Hy IH Hfresh Hedge].
  - apply reaches_root.
  - apply (reaches_step s0 root y z); [exact IH | |].
    + unfold stale in *. by destruct (Hsame y) as (-> & _).
    + destruct Hedge as (dep & Hin & Hz & Hlive). exists dep.
      destruct (Hsame y) as (_ & -> & _). split; [done|]. split; [done|].
      unfold outOfDate in *. by destruct (Hsame (dep_variable dep)) as (_ & _ & ->).
Qed.

Lemma count_fresh_alter_same (f : Var -> Var) (i : nat) (h : list Var) :
  (forall v, _outOfDate (f v) = _outOfDate v) ->
  count_fresh (alter f i h) = count_fresh h.
Proof.
  intros Hf. revert i. induction h as [|v h IH]; intros [|i]; simpl; try done.
  - by rewrite Hf.
  - f_equal. apply IH.
Qed.

Lemma nfresh_upd_var_same (x : vref) (f : Var -> Var) (s : State) :
  (forall v, _outOfDate (f v) = _outOfDate v) ->
  nfresh (upd_var x f s) = nfresh s.
Proof. intros Hf. unfold nfresh; simpl. by apply count_fresh_alter_same. Qed.

Lemma counter_upd_var (x : vref) (f : Var -> Var) (s : State) (c : nat) :
  counter (upd_var x f s) c = counter s c.
Proof. reflexivity. Qed.

(** * Setters and mark passes whose daemons never read *)

Lemma keeps_ticks_refl (s : State) : keeps_ticks s s.
Proof. intros H. split; [exact H | by intros x]. Qed.

Lemma keeps_ticks_trans (s1 s2 s3 : State) :
  keeps_ticks s1 s2 -> keeps_ticks s2 s3 -> keeps_ticks s1 s3.
Proof.
  intros H12 H23 H1. destruct (H12 H1) as [H2 T12].
  destruct (H23 H2) as [H3 T23]. split; [exact H3|].
  intros x. by rewrite (T23 x), (T12 x).
Qed.

Lemma keeps_ticks_same (s s' : State) :
  (forall y, _outOfDateDaemon (var s' y) = _outOfDateDaemon (var s y) /\
             tick (var s' y) = tick (var s y)) ->
  keeps_ticks s s'.
Proof.
  intros Hsame Hq. split.
  - intros x d Hd. destruct (Hsame x) as [Hx _]. rewrite Hx in Hd.
    by apply (Hq x d).
  - intros x. by destruct (Hsame x).
Qed.

Lemma keeps_ticks_upd (x : vref) (f : Var -> Var) (s : State) :
  (forall v, _outOfDateDaemon (f v) = _outOfDateDaemon v) ->
  (forall v, tick (f v) = tick v) ->
  keeps_ticks s (upd_var x f s).
Proof.
  intros Hd Ht. apply keeps_ticks_same. intros y. rewrite var_upd_var.
  case_decide as E; [destruct E as [-> _]|]; auto.
Qed.

Lemma keeps_ticks_set_daemon (x : vref) (d : option (value -> Prog)) (s : State) :
  (forall d', d = Some d' -> forall t, no_read (d' t)) ->
  keeps_ticks s (upd_var x (set__outOfDateDaemon d) s).
Proof.
  intros Hd Hq. split.
  - intros y d' Hy. rewrite var_upd_var in Hy. case_decide as E.
    + simpl in Hy. by apply Hd.
    + by apply (Hq y d').
  - intros y. rewrite var_upd_var. by case_decide as E; [destruct E as [-> _]|].
Qed.

Lemma keeps_ticks_alloc (v : value) (f : option (value -> Prog)) (t : value)
    (d : option (value -> Prog)) (s : State) :
  (forall d', d = Some d' -> forall t', no_read (d' t')) ->
  keeps_ticks s (snd (alloc (Variable_new v f t d) s)).
Proof.
  intros Hd Hq. split.
  - intros y d' Hy. rewrite var_alloc in Hy. case_decide as E.
    + simpl in Hy. by apply Hd.
    + by apply (Hq y d').
  - intros y. rewrite var_alloc. case_decide as E; [|reflexivity].
    subst y. by rewrite var_out_of_range by lia.
Qed.

Lemma keeps_ticks_bind {A B : Type} (m : M A) (f : A -> M B) :
  preserves keeps_ticks m -> (forall a, preserves keeps_ticks (f a)) ->
  preserves keeps_ticks (bind m f).
Proof.
  intros Hm Hf s. unfold bind. specialize (Hm s).
  destruct (m s) as [[a|e|] s1]; simpl in *; auto.
  eapply keeps_ticks_trans; [exact Hm | apply Hf].
Qed.

Lemma keeps_ticks_try_catch {A : Type} (m : M A) (h : exn -> M A) :
  preserves keeps_ticks m -> (forall e, preserves keeps_ticks (h e)) ->
  preserves keeps_ticks (try_catch m h).
Proof.
  intros Hm Hh s. unfold try_catch. specialize (Hm s).
  destruct (m s) as [[a|e|] s1]; simpl in *; auto.
  eapply keeps_ticks_trans; [exact Hm | apply Hh].
Qed.

Lemma keeps_ticks_pure {A : Type} (o : outcome A) :
  preserves keeps_ticks (fun s => (o, s)).
Proof. intros s. apply keeps_ticks_refl. Qed.

Lemma keeps_ticks_gets {A : Type} (f : State -> A) :
  preserves keeps_ticks (gets f).
Proof. intros s. apply keeps_ticks_refl. Qed.

Lemma keeps_ticks_modify (f : State -> State) :
  (forall s, keeps_ticks s (f s)) -> preserves keeps_ticks (modify f).
Proof. intros H s. apply H. Qed.

Section QuietCallbacks.

Variable call : Prog -> M value.
Variable mark_rec : vref -> list vref -> M (list vref).
Hypothesis call_quiet : forall p, no_read p -> preserves keeps_ticks (call p).
Hypothesis mark_quiet : forall x m, preserves keeps_ticks (mark_rec x m).

Lemma keeps_ticks_executeOutOfDateDaemon (x : vref) :
  preserves keeps_ticks (executeOutOfDateDaemon call x).
Proof.
  intros s Hq. unfold executeOutOfDateDaemon, bind, gets; simpl.
  destruct (_outOfDateDaemon (var s x)) as [d|] eqn:Hd.
  - pose proof (call_quiet (d (_thisFormula (var s x))) (Hq x d Hd _) s Hq) as H.
    by destruct (call _ s) as [[r|e|] s1].
  - by apply keeps_ticks_refl.
Qed.

Lemma keeps_ticks_forEach_dependents (n k : nat) (this : vref)
    (marked : list vref) (removals : list Dependency) :
  preserves keeps_ticks (forEach_dependents mark_rec n k this marked removals).
Proof.
  revert k marked removals.
  induction n as [|n IH]; intros k marked removals; simpl.
  - apply keeps_ticks_pure.
  - apply keeps_ticks_bind; [apply keeps_ticks_gets|]. intros [dep|]; [|apply IH].
    apply keeps_ticks_bind; [apply keeps_ticks_gets|]. intros [|]; [apply IH|].
    apply keeps_ticks_bind; [apply mark_quiet|]. intros m. apply IH.
Qed.

Lemma keeps_ticks_forEach_removals (this : vref) (removals : list Dependency) :
  preserves keeps_ticks (forEach_removals this removals).
Proof.
  intros s. unfold forEach_removals, modify; simpl.
  apply keeps_ticks_same. intros y.
  destruct (foldl_remove_dependent this removals s) as (_ & _ & _ & D & _).
  by destruct (D y) as (_ & _ & _ & Hd & Ht & _).
Qed.

Lemma keeps_ticks_mark_body (this : vref) (marked : list vref) :
  preserves keeps_ticks (mark_body call mark_rec this marked).
Proof.
  unfold mark_body.
  apply keeps_ticks_bind; [apply keeps_ticks_gets|]. intros b.
  destruct (negb b && negb (bool_decide (this ∈ marked)));
    [|apply keeps_ticks_pure].
  apply keeps_ticks_bind.
  { apply keeps_ticks_modify. intros s. by apply keeps_ticks_upd. }
  intros _. apply keeps_ticks_bind; [apply keeps_ticks_executeOutOfDateDaemon|].
  intros _. apply keeps_ticks_bind; [apply keeps_ticks_gets|]. intros len.
  apply keeps_ticks_bind; [apply keeps_ticks_forEach_dependents|]. intros r.
  apply keeps_ticks_bind; [apply keeps_ticks_forEach_removals|]. intros _.
  apply keeps_ticks_pure.
Qed.

Lemma keeps_ticks_mark_top (this : vref) :
  preserves keeps_ticks (mark_top mark_rec this).
Proof.
  apply keeps_ticks_bind; [apply mark_quiet|]. intros _. apply keeps_ticks_pure.
Qed.

Lemma keeps_ticks_set_value (this : vref) (v : value) :
  preserves keeps_ticks (set_value mark_rec this v).
Proof.
  unfold set_value.
  apply keeps_ticks_bind.
  { apply keeps_ticks_modify. intros s. by apply keeps_ticks_upd. }
  intros _. apply keeps_ticks_bind.
  { apply keeps_ticks_modify. intros s. by apply keeps_ticks_upd. }
  intros _. apply keeps_ticks_bind.
  { apply keeps_ticks_modify. intros s. by apply keeps_ticks_set_daemon. }
  intros _. apply keeps_ticks_bind; [apply keeps_ticks_mark_top|].
  intros _. apply keeps_ticks_modify. intros s. by apply keeps_ticks_upd.
Qed.

Lemma keeps_ticks_set_formulaValue (this : vref) (v : value) :
  preserves keeps_ticks (set_formulaValue mark_rec this v).
Proof.
  unfold set_formulaValue.
  apply keeps_ticks_bind.
  { apply keeps_ticks_modify. intros s. by apply keeps_ticks_upd. }
  intros _. apply keeps_ticks_bind; [apply keeps_ticks_mark_top|].
  intros _. apply keeps_ticks_modify. intros s. by apply keeps_ticks_upd.
Qed.

Lemma keeps_ticks_set_formula (this : vref) (f : value -> Prog) :
  preserves keeps_ticks (set_formula mark_rec this f).
Proof.
  unfold set_formula.
  apply keeps_ticks_bind.
  { apply keeps_ticks_modify. intros s. by apply keeps_ticks_upd. }
  intros _. apply keeps_ticks_mark_top.
Qed.

End QuietCallbacks.

Lemma keeps_ticks_copy (this : vref) : preserves keeps_ticks (copy this).
Proof.
  intros s Hq. unfold copy, bind, gets, new_Variable; simpl.
  destruct (_formula (var s this)); apply keeps_ticks_alloc; try done.
  intros d' Hd t'. by apply (Hq this d').
Qed.

(** User code that never reads, and every mark pass, keeps the heap quiet
    and every generation unchanged, whatever the fuel and the outcome. *)
Lemma keeps_ticks_run_mark (fuel : nat) :
  (forall p, no_read p -> preserves keeps_ticks (run fuel p)) /\
  (forall x m, preserves keeps_ticks (mark fuel x m)).
Proof.
  induction fuel as [|n [IHrun IHmark]].
  - split; intros; apply keeps_ticks_pure.
  - split.
    + intros p Hp. destruct Hp; simpl.
      * apply keeps_ticks_pure.
      * apply keeps_ticks_pure.
      * apply keeps_ticks_bind; [apply keeps_ticks_gets|]. intros; by apply IHrun.
      * apply keeps_ticks_bind; [by apply keeps_ticks_set_value|].
        intros; by apply IHrun.
      * apply keeps_ticks_bind; [by apply keeps_ticks_set_formulaValue|].
        intros; by apply IHrun.
      * apply keeps_ticks_bind; [by apply keeps_ticks_set_formula|].
        intros; by apply IHrun.
      * apply keeps_ticks_bind; [|intros; by apply IHrun].
        apply keeps_ticks_modify. intros s. by apply keeps_ticks_upd.
      * apply keeps_ticks_bind; [|intros; by apply IHrun].
        apply keeps_ticks_modify. intros s. by apply keeps_ticks_set_daemon.
      * apply keeps_ticks_bind; [|intros; by apply IHrun].
        intros s. by apply keeps_ticks_alloc.
      * apply keeps_ticks_bind; [apply keeps_ticks_copy|]. intros; by apply IHrun.
      * apply keeps_ticks_bind; [|intros; by apply IHrun].
        apply keeps_ticks_modify. intros s. by apply keeps_ticks_same.
      * apply keeps_ticks_bind; [|intros; by apply IHrun].
        apply keeps_ticks_modify. intros s. by apply keeps_ticks_same.
      * apply keeps_ticks_bind; [apply keeps_ticks_gets|]. intros; by apply IHrun.
      * apply keeps_ticks_bind; [|intros; by apply IHrun].
        apply keeps_ticks_try_catch; [by apply IHrun | intros; by apply IHrun].
    + intros x m. simpl. by apply keeps_ticks_mark_body.
Qed.

Lemma keeps_ticks_mark (fuel : nat) (x : vref) (m : list vref) :
  preserves keeps_ticks (mark fuel x m).
Proof. apply keeps_ticks_run_mark. Qed.

(** * A read after its flush *)

(** What follows the flush in [get value()]. *)
Lemma get_value_flushed (call : Prog -> M value) (x : vref) (s s0 : State) :
  executeDaemons call s = (Ok tt, s0) ->
  get_value call x s
    = (sweep call x ;;; gets (fun s' => _value (var s' x))) s0.
Proof. intros H. unfold get_value. by rewrite (bind_Ok _ _ _ _ _ H). Qed.

(** The sweep of an out-of-date formula Variable, up to the formula call. *)
Lemma sweep_stale (call : Prog -> M value) (x : vref) (s : State)
    (f : value -> Prog) :
  stale s x = true ->
  _formula (var s x) = Some f ->
  (sweep call x ;;; gets (fun s' => _value (var s' x))) s =
    (r <- call (f (_thisFormula (var s x))) ;;
     modify (upd_var x (set__value r)) ;;;
     modify (upd_var x incr_tick) ;;;
     modify pop_demanding ;;;
     gets (fun s' => _value (var s' x))) (entering x s).
Proof.
  intros Hstale Hf.
  pose proof (stale_in_range _ _ Hstale) as Hlt.
  destruct (var_updateDependencies x s x) as (_ & Hf' & Ht' & _ & _ & Hs').
  assert (Hef : _formula (var (entering x s) x) = Some f)
    by (rewrite var_entering by done; simpl; congruence).
  assert (Het : _thisFormula (var (entering x s) x) = _thisFormula (var s x))
    by (rewrite var_entering by done; simpl; congruence).
  unfold sweep, computeFormula, bind at 1 2 3; simpl.
  unfold gets at 1, bind at 1; simpl. unfold stale in Hstale. rewrite Hs', Hstale.
  unfold bind at 1 2 3 4 5, modify at 1 2, gets at 1 2; simpl.
  fold (entering x s). rewrite Hef, Het.
  unfold bind, modify, gets. destruct (call _ _) as [[r|e|] s1]; reflexivity.
Qed.

(** The sweep of a Variable that is not out of date. *)
Lemma sweep_fresh (call : Prog -> M value) (x : vref) (s : State) :
  stale s x = false ->
  (sweep call x ;;; gets (fun s' => _value (var s' x))) s
    = (Ok (_value (var s x)), updateDependencies x s).
Proof.
  intros Hfresh.
  destruct (var_updateDependencies x s x) as (Hv & _ & _ & _ & _ & Hs').
  unfold sweep, computeFormula, bind, modify, gets; simpl.
  unfold stale in Hfresh. rewrite Hs', Hfresh. unfold ret; simpl. by rewrite Hv.
Qed.

(** A read that recomputes, from the state its flush left. *)
Lemma read_flushed_recomputes (fuel : nat) (x : vref) (s s0 s1 : State)
    (f : value -> Prog) (r : value) :
  executeDaemons (run fuel) s = (Ok tt, s0) ->
  stale s0 x = true ->
  _formula (var s0 x) = Some f ->
  run fuel (f (_thisFormula (var s0 x))) (entering x s0) = (Ok r, s1) ->
  read fuel x s
    = (Ok r, pop_demanding (upd_var x incr_tick (upd_var x (set__value r) s1))) /\
  (x < length (heap s1))%nat.
Proof.
  intros Hflush Hx Hf Hrun.
  assert (Hlt1 : (x < length (heap s1))%nat).
  { pose proof (preserves_run _ heap_grows_respected fuel
                  (f (_thisFormula (var s0 x))) (entering x s0)) as H.
    rewrite Hrun in H. unfold heap_grows in H.
    assert (Hlen : length (heap (entering x s0)) = length (heap s0)).
    { unfold entering. rewrite length_heap_upd_var. simpl.
      apply length_heap_updateDependencies. }
    rewrite Hlen in H. simpl in H.
    pose proof (stale_in_range s0 x Hx). lia. }
  split; [|exact Hlt1].
  unfold read. rewrite (get_value_flushed _ x s s0 Hflush).
  rewrite (sweep_stale _ x s0 f Hx Hf).
  rewrite (bind_Ok _ _ _ _ _ Hrun). unfold bind, modify, gets; simpl.
  set (s2 := pop_demanding (upd_var x incr_tick (upd_var x (set__value r) s1))).
  assert (Hv2 : var s2 x = incr_tick (set__value r (var s1 x))).
  { unfold s2, var; simpl. fold (var s1 x).
    rewrite list_lookup_total_alter_eq by (by rewrite length_alter).
    by rewrite list_lookup_total_alter_eq. }
  by rewrite Hv2.
Qed.

(** A read whose formula throws, from the state its flush left. *)
Lemma read_flushed_throws (fuel : nat) (x : vref) (s s0 s1 : State)
    (f : value -> Prog) (e : exn) :
  executeDaemons (run fuel) s = (Ok tt, s0) ->
  stale s0 x = true ->
  _formula (var s0 x) = Some f ->
  run fuel (f (_thisFormula (var s0 x))) (entering x s0) = (Threw e, s1) ->
  read fuel x s = (Threw e, s1).
Proof.
  intros Hflush Hx Hf Hrun.
  unfold read. rewrite (get_value_flushed _ x s s0 Hflush).
  rewrite (sweep_stale _ x s0 f Hx Hf). by apply bind_Threw.
Qed.

(** The edge a demanded read leaves in the Variable that was read. *)
Lemma updateDependencies_edge (z y : vref) (rest : list vref) (s : State) :
  demandingVariables (system s) = y :: rest ->
  (z < length (heap s))%nat ->
  exists dep, dep ∈ _dependents (var (updateDependencies z s) z) /\
              dep_variable dep = y /\ dep_tick dep = tick (var s y) + 1.
Proof.
  intros Hst Hlt. rewrite (dependents_updateDependencies z y rest s Hst Hlt).
  destruct (list_find _ _) as [[i dep]|] eqn:E.
  - apply list_find_Some in E as (Hi & Hy & _).
    eexists. split; [|split].
    + eapply list_elem_of_lookup_2. apply list_lookup_insert_eq.
      by apply lookup_lt_Some in Hi.
    + exact Hy.
    + reflexivity.
  - eexists. split; [|split].
    + apply elem_of_app. right. by apply list_elem_of_singleton.
    + reflexivity.
    + reflexivity.
Qed.

Lemma instrumented_same_daemons (s s' : State) :
  (forall x, _outOfDateDaemon (var s' x) = _outOfDateDaemon (var s x)) ->
  instrumented s -> instrumented s'.
Proof. intros H Hi x. rewrite H. apply Hi. Qed.

(** * Reading a Variable that has no formula *)

(** A Variable that is not out of date is returned as stored: the sweep does
    not touch its value. *)
Lemma get_value_fresh (call : Prog -> M value) (x : vref) (s : State) :
  daemonQueue (system s) = [] \/ executingDaemons (system s) <> None ->
  _outOfDate (var s x) = false ->
  get_value call x s = (Ok (_value (var s x)), updateDependencies x s).
Proof.
  intros Hq Hfresh.
  destruct (var_updateDependencies x s x) as (Hv & _ & _ & _ & _ & Hs').
  unfold get_value. rewrite (bind_Ok _ _ _ _ _ (executeDaemons_skip call s Hq)).
  unfold sweep, computeFormula, bind, modify, gets; simpl.
  rewrite Hs', Hfresh. unfold ret; simpl. rewrite Hv. reflexivity.
Qed.

(** C1 (the code departs from the claim): [computeFormula] tests only
    [_outOfDate].  A Variable that is out of date and has no formula makes the
    read evaluate [null.bind]: the read throws a TypeError instead of
    returning the stored value, and leaves the Variable on the demand stack. *)
Theorem C1_stale_without_formula_read_throws (fuel : nat) (x : vref) (s : State) :
  daemonQueue (system s) = [] ->
  _outOfDate (var s x) = true ->
  _formula (var s x) = None ->
  read fuel x s = (Threw TypeError, entering x s).
Proof.
  intros Hq Hstale Hf.
  pose proof (stale_in_range _ _ Hstale) as Hlt.
  destruct (var_updateDependencies x s x) as (_ & Hf' & _ & _ & _ & Hs').
  assert (Hef : _formula (var (entering x s) x) = None)
    by (rewrite var_entering by done; simpl; congruence).
  unfold read, get_value.
  rewrite (bind_Ok _ _ _ _ _ (executeDaemons_skip _ s (or_introl Hq))).
  unfold sweep, computeFormula, bind at 1 2 3; simpl.
  unfold gets at 1, bind at 1; simpl. rewrite Hs', Hstale.
  unfold bind at 1 2 3 4 5, modify at 1 2, gets at 1 2; simpl.
  fold (entering x s). rewrite Hef. reflexivity.
Qed.

(** The state reached by [x.value; x.value = 5; z.value = 7]: the last value
    written to [x] is 5, and reading it throws. *)
Lemma C1_stale_without_formula_witness :
  _value (var StaleNoFormula.after_write_z StaleNoFormula.x) = VNum 5 /\
  read 10 StaleNoFormula.x StaleNoFormula.after_write_z =
    (Threw TypeError, entering StaleNoFormula.x StaleNoFormula.after_write_z).
Proof.
  split; [reflexivity|].
  apply (C1_stale_without_formula_read_throws 10 StaleNoFormula.x
           StaleNoFormula.after_write_z); reflexivity.
Defined.

(** * Exceptions *)

(** C2 (counterexample): the formula of [x] throws 42.  The read throws 42
    (with ten units of fuel or more), the demand stack was empty before and
    holds [x] afterwards, and a later read of [z] records an edge from [z] to
    [x] that a read of [z] without the failed read does not record. *)
Lemma C2_demand_stack_not_restored :
  (forall fuel, (10 <= fuel)%nat ->
     read fuel ThrowingFormula.x ThrowingFormula.start
       = (Threw (Thrown (VNum 42)), ThrowingFormula.after_failed_read)) /\
  demandingVariables (system ThrowingFormula.start) = [] /\
  demandingVariables (system ThrowingFormula.after_failed_read)
    <> demandingVariables (system ThrowingFormula.start) /\
  _dependents (var ThrowingFormula.after_read_z ThrowingFormula.z)
    <> _dependents (var ThrowingFormula.clean_read_z ThrowingFormula.z).
Proof.
  split.
  - intros fuel Hfuel.
    apply (read_more_fuel 10 fuel ThrowingFormula.x Hfuel); [|discriminate].
    vm_compute; reflexivity.
  - vm_compute. repeat split; discriminate.
Qed.

(** The loop over [_dependents], cut at an index. *)
Lemma forEach_dependents_split (mr : vref -> list vref -> M (list vref))
    (a b k : nat) (x : vref) (m : list vref) (r : list Dependency) (s : State) :
  forEach_dependents mr (a + b) k x m r s =
  (q <- forEach_dependents mr a k x m r ;;
   forEach_dependents mr b (k + a) x (fst q) (snd q)) s.
Proof.
  revert k m r s. induction a as [|a IH]; intros k m r s.
  - unfold bind; simpl. by rewrite Nat.add_0_r.
  - replace (k + S a)%nat with (S k + a)%nat by lia.
    cbn [Nat.add forEach_dependents]. unfold bind, gets in *.
    destruct (_dependents (var s x) !! k) as [dep|]; [|apply IH].
    destruct (outOfDate dep s); [apply IH|].
    destruct (mr (dep_variable dep) m s) as [[m'| |] s1]; [apply IH|done|done].
Qed.

(** An exception thrown by a daemon that a mark pass invokes, at any depth,
    leaves the pass as it is, in the state the daemon left: no call on the
    way catches it. *)
Lemma pass_invokes_throws (fuel : nat) (x : vref) (marked : list vref)
    (s : State) (F : nat) (p : Prog) (sd s' : State) (e : exn) :
  pass_invokes fuel x marked s F p sd ->
  run F p sd = (Threw e, s') ->
  mark fuel x marked s = (Threw e, s').
Proof.
  induction 1 as [fuel x marked s d Hx Hm Hd
                 | fuel x marked s s1 s2 k m removals dep F p sd
                     Hx Hm Hown Hk Hloop Hdep Hold _ IH]; intros Hrun.
  - assert (Hlt : (x < length (heap s))%nat).
    { destruct (decide (x < length (heap s))%nat) as [|Hge]; [done|].
      rewrite var_out_of_range in Hd by lia. discriminate. }
    cbn [mark]. unfold mark_body. unfold bind at 1, gets at 1. fold (stale s x).
    rewrite Hx, (bool_decide_eq_false_2 _ Hm); simpl.
    unfold bind at 1, modify at 1. apply bind_Threw.
    unfold executeOutOfDateDaemon, bind, gets; simpl.
    rewrite var_upd_var_eq by done; simpl. rewrite Hd.
    rewrite var_upd_var_eq by done; simpl. rewrite Hrun. reflexivity.
  - specialize (IH Hrun).
    cbn [mark]. unfold mark_body. unfold bind at 1, gets at 1. fold (stale s x).
    rewrite Hx, (bool_decide_eq_false_2 _ Hm); simpl.
    unfold bind at 1, modify at 1.
    rewrite (bind_Ok _ _ _ _ _ Hown).
    unfold bind at 1, gets at 1. apply bind_Threw.
    replace (length (_dependents (var s1 x)))
      with (k + S (length (_dependents (var s1 x)) - S k))%nat by lia.
    rewrite forEach_dependents_split, (bind_Ok _ _ _ _ _ Hloop).
    cbn [fst snd forEach_dependents]. rewrite Nat.add_0_l.
    unfold bind at 1, gets at 1. rewrite Hdep.
    unfold bind at 1, gets at 1. rewrite Hold.
    by apply bind_Threw.
Qed.

(** C2 (amended): an exception thrown by a formula or an outOfDateDaemon
    propagates unmodified, in the very state the callable left.  For the
    formula of an out-of-date Variable [x] during a read of [x], once the
    flush at the start of the read has returned: the read throws the same
    [e]; and the demand stack is not restored, [x] is still on it, above
    everything that was there before the read.  For a daemon that the mark
    pass of a write, a seed or a formula replacement invokes, at any depth:
    the setter throws the same [e].  Whatever its outcome, no read, write,
    seed or formula replacement removes an entry that was on the demand stack
    before it.  The marking array is a local of one mark pass: every setter
    starts its pass with an empty one, whatever state an earlier failure
    left. *)
Theorem C2_formula_exception_leaves_demander (fuel : nat) (x : vref) (s s' : State)
    (e : exn) :
  (forall (s0 : State) (f : value -> Prog),
      executeDaemons (run fuel) s = (Ok tt, s0) ->
      stale s0 x = true ->
      _formula (var s0 x) = Some f ->
      run fuel (f (_thisFormula (var s0 x))) (entering x s0) = (Threw e, s') ->
      read fuel x s = (Threw e, s') /\
      exists extra below,
        demandingVariables (system s')
          = extra ++ x :: below ++ demandingVariables (system s)) /\
  (forall (F : nat) (p : Prog) (sd : State),
      run F p sd = (Threw e, s') ->
      (forall v, pass_invokes fuel x [] (written x v s) F p sd ->
                 write fuel x v s = (Threw e, s')) /\
      (forall v, pass_invokes fuel x [] (seeded_with x v s) F p sd ->
                 seed fuel x v s = (Threw e, s')) /\
      (forall g, pass_invokes fuel x [] (upd_var x (set__formula (Some g)) s) F p sd ->
                 replace_formula fuel x g s = (Threw e, s'))) /\
  (forall (fuel' : nat) (y : vref) (v : value) (g : value -> Prog) (s0 : State),
      stack_extends s0 (snd (read fuel' y s0)) /\
      stack_extends s0 (snd (write fuel' y v s0)) /\
      stack_extends s0 (snd (seed fuel' y v s0)) /\
      stack_extends s0 (snd (replace_formula fuel' y g s0))) /\
  (forall (fuel' : nat) (y : vref) (v : value) (g : value -> Prog) (s0 : State),
      write fuel' y v s0
        = (mark fuel' y [] ;;; modify (upd_var y (set__outOfDate false)))
            (written y v s0) /\
      seed fuel' y v s0
        = (mark fuel' y [] ;;; modify (upd_var y (set__outOfDate false)))
            (seeded_with y v s0) /\
      replace_formula fuel' y g s0
        = (mark fuel' y [] ;;; ret tt) (upd_var y (set__formula (Some g)) s0)).
Proof.
  split; [|split; [|split]].
  - intros s0 f Hflush Hstale Hf Hrun.
    split; [exact (read_flushed_throws fuel x s s0 s' f e Hflush Hstale Hf Hrun)|].
    pose proof (stack_extends_run fuel (f (_thisFormula (var s0 x))) (entering x s0))
      as [extra Hext].
    rewrite Hrun in Hext; simpl in Hext.
    pose proof (preserves_executeDaemons _ stack_extends_respected (run fuel)
                  (preserves_run _ stack_extends_respected fuel) s) as [below Hb].
    rewrite Hflush in Hb; simpl in Hb.
    exists extra, below. by rewrite Hext, system_updateDependencies, Hb.
  - intros F p sd Hrun. split; [|split].
    + intros v Hinv. pose proof (pass_invokes_throws _ _ _ _ _ _ _ _ _ Hinv Hrun) as H.
      unfold write, set_value, mark_top, written.
      unfold bind at 1, modify at 1. unfold bind at 1, modify at 1.
      unfold bind at 1, modify at 1. cbn [fst snd].
      apply bind_Threw. by apply bind_Threw.
    + intros v Hinv. pose proof (pass_invokes_throws _ _ _ _ _ _ _ _ _ Hinv Hrun) as H.
      unfold seed, set_formulaValue, mark_top, seeded_with.
      unfold bind at 1, modify at 1. cbn [fst snd].
      apply bind_Threw. by apply bind_Threw.
    + intros g Hinv. pose proof (pass_invokes_throws _ _ _ _ _ _ _ _ _ Hinv Hrun) as H.
      unfold replace_formula, set_formula, mark_top.
      unfold bind at 1, modify at 1. cbn [fst snd].
      by apply bind_Threw.
  - intros fuel' y v g s0. split; [|split; [|split]].
    + apply (preserves_read _ stack_extends_respected).
    + apply (preserves_write _ stack_extends_respected).
    + apply (preserves_seed _ stack_extends_respected).
    + apply (preserves_replace_formula _ stack_extends_respected).
  - intros fuel' y v g s0. split; [|split].
    + unfold write, set_value, mark_top, written, bind, modify; simpl.
      by destruct (mark fuel' y [] _) as [[?| |] ?].
    + unfold seed, set_formulaValue, mark_top, seeded_with, bind, modify; simpl.
      by destruct (mark fuel' y [] _) as [[?| |] ?].
    + unfold replace_formula, set_formula, mark_top, bind, modify; simpl.
      by destruct (mark fuel' y [] _) as [[?| |] ?].
Qed.

(** The formula of [x] throws 42 at the first read of [x]: the read throws 42
    and [x] stays on the demand stack, which was empty.  The write
    [x.value = 1] marks [y], whose daemon counts, and then [z], whose daemon
    throws 9, two calls deep: the write throws 9 in the state the daemon of
    [z] left, with [x] still flagged out of date. *)
Lemma C2_formula_exception_witness :
  (read 10 ThrowingFormula.x ThrowingFormula.start
     = (Threw (Thrown (VNum 42)), ThrowingFormula.after_failed_read) /\
   exists extra below,
     demandingVariables (system ThrowingFormula.after_failed_read)
       = extra ++ ThrowingFormula.x :: below
           ++ demandingVariables (system ThrowingFormula.start)) /\
  (write 10 ThrowingDaemon.x (VNum 1) ThrowingDaemon.wired
     = (Threw (Thrown (VNum 9)), ThrowingDaemon.at_daemon) /\
   ThrowingDaemon.after_failed_write = ThrowingDaemon.at_daemon /\
   stale ThrowingDaemon.at_daemon ThrowingDaemon.x = true /\
   counter ThrowingDaemon.at_daemon 1 = 1).
Proof.
  split.
  - destruct (C2_formula_exception_leaves_demander 10 ThrowingFormula.x
                ThrowingFormula.start ThrowingFormula.after_failed_read
                (Thrown (VNum 42))) as (H & _).
    apply (H ThrowingFormula.start (fun _ => Throw (VNum 42))); reflexivity.
  - destruct (C2_formula_exception_leaves_demander 10 ThrowingDaemon.x
                ThrowingDaemon.wired ThrowingDaemon.at_daemon
                (Thrown (VNum 9))) as (_ & H & _).
    destruct (H 7%nat (ThrowingDaemon.thrower VNull) ThrowingDaemon.at_daemon)
      as (Hw & _); [vm_compute; reflexivity|].
    split; [|vm_compute; repeat split].
    apply Hw.
    eapply (invokes_below 9 ThrowingDaemon.x [] _ _ _ 0);
      [vm_compute; reflexivity | apply not_elem_of_nil | vm_compute; reflexivity
      | vm_compute; lia | vm_compute; reflexivity | vm_compute; reflexivity
      | vm_compute; reflexivity | ].
    eapply (invokes_below 8 ThrowingDaemon.y [ThrowingDaemon.x] _ _ _ 0);
      [vm_compute; reflexivity | apply (bool_decide_unpack _); vm_compute; exact I | vm_compute; reflexivity
      | vm_compute; lia | vm_compute; reflexivity | vm_compute; reflexivity
      | vm_compute; reflexivity | ].
    apply invokes_own; [vm_compute; reflexivity | apply (bool_decide_unpack _); vm_compute; exact I | vm_compute; reflexivity].
Defined.

(** * Scenario 1 *)

(** C3 (counterexample): with no read before the first write, [x] has no
    dependency edge to [y] yet (and [y] is out of date from its construction),
    so the first write fires no daemon: [n] is 0, not 1. *)
Lemma C3_no_reads_first_write_counterexample :
  (forall fuel, (10 <= fuel)%nat ->
     write fuel Scenario1.x (VNum 1) Scenario1.start
       = (Ok tt, Scenario1.after_write1)) /\
  ~ (Scenario1.n Scenario1.after_write1 = 1 /\
     fst (read 10 Scenario1.x Scenario1.after_write1) = Ok (VNum 1) /\
     fst (read 10 Scenario1.y Scenario1.after_read_x1) = Ok (VNum 10) /\
     Scenario1.n Scenario1.after_write2 = 2 /\
     fst (read 10 Scenario1.y Scenario1.after_write2) = Ok (VNum 20)).
Proof.
  split.
  - intros fuel Hfuel.
    apply (write_more_fuel 10 fuel Scenario1.x (VNum 1) Hfuel); [|discriminate].
    vm_compute; reflexivity.
  - intros [H _]. vm_compute in H. discriminate.
Qed.

(** C3 (amended): in the program without earlier reads, [n] is 0 after the
    first write and 1 after the second, and the values read are 1, 10 and 20;
    when [x.value] and [y.value] are read before the first write, as the
    repository's test does, [n] is 1 and then 2 with the same values.  Ten
    units of fuel are enough, and more fuel gives the same results. *)
Theorem C3_scenario1 (fuel : nat) :
  (10 <= fuel)%nat ->
  (Scenario1.n Scenario1.start = 0 /\
   write fuel Scenario1.x (VNum 1) Scenario1.start
     = (Ok tt, Scenario1.after_write1) /\
   Scenario1.n Scenario1.after_write1 = 0 /\
   read fuel Scenario1.x Scenario1.after_write1
     = (Ok (VNum 1), Scenario1.after_read_x1) /\
   read fuel Scenario1.y Scenario1.after_read_x1
     = (Ok (VNum 10), Scenario1.after_read_y1) /\
   write fuel Scenario1.x (VNum 2) Scenario1.after_read_y1
     = (Ok tt, Scenario1.after_write2) /\
   Scenario1.n Scenario1.after_write2 = 1 /\
   fst (read fuel Scenario1.y Scenario1.after_write2) = Ok (VNum 20)) /\
  (fst (read fuel Scenario1.x Scenario1.start) = Ok (VNum 0) /\
   read fuel Scenario1.y (snd (read fuel Scenario1.x Scenario1.start))
     = (Ok (VNum 0), Scenario1.warmed) /\
   Scenario1.n Scenario1.warmed = 0 /\
   write fuel Scenario1.x (VNum 1) Scenario1.warmed
     = (Ok tt, Scenario1.w_after_write1) /\
   Scenario1.n Scenario1.w_after_write1 = 1 /\
   read fuel Scenario1.x Scenario1.w_after_write1
     = (Ok (VNum 1), Scenario1.w_after_read_x1) /\
   read fuel Scenario1.y Scenario1.w_after_read_x1
     = (Ok (VNum 10), Scenario1.w_after_read_y1) /\
   write fuel Scenario1.x (VNum 2) Scenario1.w_after_read_y1
     = (Ok tt, Scenario1.w_after_write2) /\
   Scenario1.n Scenario1.w_after_write2 = 2 /\
   fst (read fuel Scenario1.y Scenario1.w_after_write2) = Ok (VNum 20)).
Proof.
  intros Hfuel.
  assert (Hr : forall x s v s', read 10 x s = (Ok v, s') ->
                                read fuel x s = (Ok v, s')).
  { intros x s v s' H. by apply (read_more_fuel 10 fuel x Hfuel). }
  assert (Hw : forall x v s s', write 10 x v s = (Ok tt, s') ->
                                write fuel x v s = (Ok tt, s')).
  { intros x v s s' H. by apply (write_more_fuel 10 fuel x v Hfuel). }
  assert (Hx0 : read 10 Scenario1.x Scenario1.start
                = (Ok (VNum 0), snd (read 10 Scenario1.x Scenario1.start)))
    by (vm_compute; reflexivity).
  assert (Hy20 : read 10 Scenario1.y Scenario1.after_write2
                 = (Ok (VNum 20), snd (read 10 Scenario1.y Scenario1.after_write2)))
    by (vm_compute; reflexivity).
  assert (Hwy20 : read 10 Scenario1.y Scenario1.w_after_write2
                  = (Ok (VNum 20), snd (read 10 Scenario1.y Scenario1.w_after_write2)))
    by (vm_compute; reflexivity).
  split.
  - split; [vm_compute; reflexivity|].
    split; [apply Hw; vm_compute; reflexivity|].
    split; [vm_compute; reflexivity|].
    split; [apply Hr; vm_compute; reflexivity|].
    split; [apply Hr; vm_compute; reflexivity|].
    split; [apply Hw; vm_compute; reflexivity|].
    split; [vm_compute; reflexivity|].
    rewrite (Hr _ _ _ _ Hy20). reflexivity.
  - rewrite (Hr _ _ _ _ Hx0). cbn [fst snd].
    split; [reflexivity|].
    split; [apply Hr; vm_compute; reflexivity|].
    split; [vm_compute; reflexivity|].
    split; [apply Hw; vm_compute; reflexivity|].
    split; [vm_compute; reflexivity|].
    split; [apply Hr; vm_compute; reflexivity|].
    split; [apply Hr; vm_compute; reflexivity|].
    split; [apply Hw; vm_compute; reflexivity|].
    split; [vm_compute; reflexivity|].
    rewrite (Hr _ _ _ _ Hwy20). reflexivity.
Qed.

(** With exactly ten units of fuel. *)
Lemma C3_scenario1_witness :
  Scenario1.n Scenario1.after_write1 = 0 /\
  Scenario1.n Scenario1.after_write2 = 1 /\
  Scenario1.n Scenario1.w_after_write1 = 1 /\
  Scenario1.n Scenario1.w_after_write2 = 2 /\
  fst (read 10 Scenario1.y Scenario1.after_write2) = Ok (VNum 20) /\
  fst (read 10 Scenario1.y Scenario1.w_after_write2) = Ok (VNum 20).
Proof.
  destruct (C3_scenario1 10) as [(_ & _ & H1 & _ & _ & _ & H2 & H3)
                                 (_ & _ & _ & _ & H4 & _ & _ & _ & H5 & H6)].
  - lia.
  - repeat split; assumption.
Defined.

(** * System daemons *)

Lemma forEach_daemons_in_order (fuel : nat) (batch : list Prog) (s s1 : State) :
  runs_in_order fuel batch s s1 ->
  forEach_daemons (run fuel) batch s = (Ok tt, s1).
Proof.
  induction 1 as [s|d rest s s1 s2 v Hd _ IH]; simpl; [reflexivity|].
  by rewrite (bind_Ok _ _ _ _ _ Hd).
Qed.

Lemma forEach_daemons_throw (fuel : nat) (pre post : list Prog) (d : Prog)
    (s s1 s2 : State) (e : exn) :
  runs_in_order fuel pre s s1 ->
  run fuel d s1 = (Threw e, s2) ->
  forEach_daemons (run fuel) (pre ++ d :: post) s = (Threw e, s2).
Proof.
  intros Hpre Hd. induction Hpre as [s|d0 rest s s1 s1' v Hd0 _ IH]; simpl.
  - by apply bind_Threw.
  - rewrite (bind_Ok _ _ _ _ _ Hd0). by apply IH.
Qed.

Lemma flush_stuck_run (b : list Prog) (fuel : nat) (p : Prog) (s : State) :
  flush_stuck b s (snd (run fuel p s)).
Proof. apply preserves_run, flush_stuck_respected. Qed.

Lemma flush_stuck_in_order (b : list Prog) (fuel : nat) (batch : list Prog)
    (s s1 : State) :
  runs_in_order fuel batch s s1 -> flush_stuck b s s1.
Proof.
  induction 1 as [s|d rest s s1 s2 v Hd _ IH].
  - apply (resp_refl _ (flush_stuck_respected b)).
  - apply (resp_trans _ (flush_stuck_respected b) s s1 s2); [|exact IH].
    pose proof (flush_stuck_run b fuel d s) as H. by rewrite Hd in H.
Qed.

Lemma executeDaemons_flush (call : Prog -> M value) (s : State) :
  executingDaemons (system s) = None ->
  daemonQueue (system s) <> [] ->
  executeDaemons call s =
    (forEach_daemons call (daemonQueue (system s)) ;;; modify clear_executing)
      (take_batch s).
Proof.
  intros Hidle Hq. unfold executeDaemons. rewrite Hidle.
  destruct (daemonQueue (system s)); [done | reflexivity].
Qed.

(** C6 (counterexample): three daemons are queued, no flush is in progress,
    and the second daemon throws 7.  The next read throws 7 and the third
    daemon, registered like the others, has not run; a daemon registered
    afterwards is not run by the read that follows its registration, which
    returns normally, and is still queued. *)
Lemma C6_daemons_behind_a_thrower_counterexample :
  daemonQueue (system SystemDaemons.start_throwing)
    = [SystemDaemons.counting_daemon 0; SystemDaemons.throwing;
       SystemDaemons.counting_daemon 1] /\
  executingDaemons (system SystemDaemons.start_throwing) = None /\
  (forall fuel, (10 <= fuel)%nat ->
     read fuel SystemDaemons.x SystemDaemons.start_throwing
       = (Threw (Thrown (VNum 7)), SystemDaemons.after_throw)) /\
  counter SystemDaemons.after_throw 1 = 0 /\
  (forall fuel, (10 <= fuel)%nat ->
     read fuel SystemDaemons.x
          (addDaemon (SystemDaemons.counting_daemon 3) SystemDaemons.after_throw)
       = (Ok (VNum 0), SystemDaemons.later)) /\
  counter SystemDaemons.later 1 = 0 /\
  counter SystemDaemons.later 3 = 0 /\
  daemonQueue (system SystemDaemons.later) = [SystemDaemons.counting_daemon 3].
Proof.
  split; [reflexivity|]. split; [reflexivity|]. split.
  { intros fuel Hfuel.
    apply (read_more_fuel 10 fuel SystemDaemons.x Hfuel); [|discriminate].
    vm_compute; reflexivity. }
  split; [reflexivity|]. split.
  { intros fuel Hfuel.
    apply (read_more_fuel 10 fuel SystemDaemons.x Hfuel); [|discriminate].
    vm_compute; reflexivity. }
  vm_compute. repeat split.
Qed.

(** C6 (amended): with no flush in progress, daemons queued, and every daemon
    of the batch returning normally.  The flush at the start of a read of any
    Variable takes the batch out of the queue, runs its daemons one after the
    other in registration order, each once, and then releases the flush
    flag.  While they run the flag is set, so a flush requested in the
    meantime (a reentrant read) does nothing and a registration only appends
    to the queue.  Afterwards the queue holds what was registered in the
    meantime and nothing of the batch: the next flush runs exactly those
    deferred daemons, in order, and with nothing registered it runs nothing. *)
Theorem C6_daemons_run_once_in_order (fuel fuel' : nat) (x : vref) (s s1 : State) :
  executingDaemons (system s) = None ->
  daemonQueue (system s) <> [] ->
  runs_in_order fuel (daemonQueue (system s)) (take_batch s) s1 ->
  (daemonQueue (system (take_batch s)) = [] /\
   executingDaemons (system (take_batch s)) = Some (daemonQueue (system s))) /\
  executeDaemons (run fuel) s = (Ok tt, clear_executing s1) /\
  read fuel x s =
    (sweep (run fuel) x ;;; gets (fun s' => _value (var s' x))) (clear_executing s1) /\
  executingDaemons (system s1) = Some (daemonQueue (system s)) /\
  (forall (b : list Prog) (s2 : State),
      executingDaemons (system s2) = Some b ->
      (forall fuel0, executeDaemons (run fuel0) s2 = (Ok tt, s2)) /\
      (forall fuel0 p,
          executingDaemons (system (snd (run fuel0 p s2))) = Some b /\
          exists registered,
            daemonQueue (system (snd (run fuel0 p s2)))
              = daemonQueue (system s2) ++ registered)) /\
  (executingDaemons (system (clear_executing s1)) = None /\
   daemonQueue (system (clear_executing s1)) = daemonQueue (system s1) /\
   heap (clear_executing s1) = heap s1 /\
   captured (clear_executing s1) = captured s1) /\
  (daemonQueue (system s1) <> [] ->
   forall s3,
     runs_in_order fuel' (daemonQueue (system s1))
       (take_batch (clear_executing s1)) s3 ->
     executeDaemons (run fuel') (clear_executing s1) = (Ok tt, clear_executing s3) /\
     read fuel' x (clear_executing s1) =
       (sweep (run fuel') x ;;; gets (fun s' => _value (var s' x)))
         (clear_executing s3)) /\
  (daemonQueue (system s1) = [] ->
   executeDaemons (run fuel') (clear_executing s1) = (Ok tt, clear_executing s1)).
Proof.
  intros Hidle Hq Hruns.
  assert (Hflush : forall f0 t t1,
            executingDaemons (system t) = None ->
            daemonQueue (system t) <> [] ->
            runs_in_order f0 (daemonQueue (system t)) (take_batch t) t1 ->
            executeDaemons (run f0) t = (Ok tt, clear_executing t1)).
  { intros f0 t t1 Ht Hqt Hrt. rewrite executeDaemons_flush by done.
    by rewrite (bind_Ok _ _ _ _ _ (forEach_daemons_in_order _ _ _ _ Hrt)). }
  split; [by split|].
  split; [by apply Hflush|].
  split; [by apply get_value_flushed, Hflush|].
  split; [by apply (flush_stuck_in_order _ _ _ _ _ Hruns)|].
  split.
  { intros b s2 Hb. split.
    - intros fuel0. apply executeDaemons_skip. right. congruence.
    - intros fuel0 p. by apply flush_stuck_run. }
  split; [by repeat split|].
  split.
  - intros Hne s3 Hruns3.
    assert (H3 : executeDaemons (run fuel') (clear_executing s1)
                 = (Ok tt, clear_executing s3)) by (by apply Hflush).
    split; [exact H3 | by apply get_value_flushed].
  - intros Hempty. apply executeDaemons_skip. left. exact Hempty.
Qed.

(** The queue holds a daemon that registers another one and reads [x], then
    a counting daemon.  The first read runs both once and releases the flag;
    the daemon registered during the flush is then queued and has not run.
    The second read runs it; the third read runs nothing. *)
Lemma C6_daemons_run_once_witness :
  (read 10 SystemDaemons.x SystemDaemons.start
     = (sweep (run 10) SystemDaemons.x ;;;
        gets (fun s' => _value (var s' SystemDaemons.x)))
         (clear_executing SystemDaemons.after_batch) /\
   executingDaemons (system SystemDaemons.after_read) = None /\
   daemonQueue (system SystemDaemons.after_read) = [SystemDaemons.counting_daemon 1] /\
   counter SystemDaemons.after_read 0 = 1 /\
   counter SystemDaemons.after_read 2 = 1 /\
   counter SystemDaemons.after_read 1 = 0) /\
  (executeDaemons (run 10) (clear_executing SystemDaemons.after_batch)
     = (Ok tt, clear_executing
                 (snd (run 10 (SystemDaemons.counting_daemon 1)
                         (take_batch (clear_executing SystemDaemons.after_batch))))) /\
   counter DeferredDaemon.second_read 1 = 1 /\
   daemonQueue (system DeferredDaemon.second_read) = [] /\
   counter DeferredDaemon.third_read 0 = 1 /\
   counter DeferredDaemon.third_read 1 = 1 /\
   counter DeferredDaemon.third_read 2 = 1).
Proof.
  destruct (C6_daemons_run_once_in_order 10 10 SystemDaemons.x SystemDaemons.start
              SystemDaemons.after_batch)
    as (_ & _ & Hread & _ & _ & _ & Hnext & _).
  - reflexivity.
  - discriminate.
  - eapply runs_cons; [reflexivity|].
    eapply runs_cons; [reflexivity|]. apply runs_nil.
  - split.
    + split; [exact Hread|]. vm_compute. repeat split.
    + split; [|vm_compute; repeat split].
      apply Hnext; [vm_compute; discriminate|].
      assert (Hq : daemonQueue (system SystemDaemons.after_batch)
                   = [SystemDaemons.counting_daemon 1]) by (vm_compute; reflexivity).
      rewrite Hq. eapply runs_cons; [reflexivity | apply runs_nil].
Defined.

(** C10: when a daemon of the batch throws, the read throws the same
    exception in the state the daemon left (the daemons after it have not
    run), [executingDaemons] still holds the batch, and from then on, in
    every state of the program, a flush does nothing and running any code only
    appends to the queue: no daemon is ever taken from it again. *)
Theorem C10_throwing_daemon_disables_flush (fuel : nat) (x : vref)
    (s s1 s2 : State) (pre post : list Prog) (d : Prog) (e : exn) :
  executingDaemons (system s) = None ->
  daemonQueue (system s) = pre ++ d :: post ->
  runs_in_order fuel pre (take_batch s) s1 ->
  run fuel d s1 = (Threw e, s2) ->
  read fuel x s = (Threw e, s2) /\
  executingDaemons (system s2) = Some (pre ++ d :: post) /\
  forall s3 : State,
    executingDaemons (system s3) = Some (pre ++ d :: post) ->
    (forall fuel', executeDaemons (run fuel') s3 = (Ok tt, s3)) /\
    (forall fuel' p,
        executingDaemons (system (snd (run fuel' p s3))) = Some (pre ++ d :: post) /\
        exists registered,
          daemonQueue (system (snd (run fuel' p s3)))
            = daemonQueue (system s3) ++ registered).
Proof.
  intros Hidle Hq Hpre Hd.
  assert (Hne : daemonQueue (system s) <> []) by (rewrite Hq; by destruct pre).
  split; [|split].
  - unfold read, get_value. apply bind_Threw.
    rewrite executeDaemons_flush by done. apply bind_Threw.
    rewrite Hq. by eapply forEach_daemons_throw.
  - assert (Htaken : executingDaemons (system (take_batch s)) = Some (pre ++ d :: post))
      by (simpl; by rewrite Hq).
    destruct (flush_stuck_in_order _ _ _ _ _ Hpre Htaken) as [H1 _].
    pose proof (flush_stuck_run (pre ++ d :: post) fuel d s1) as H.
    rewrite Hd in H. by apply H.
  - intros s3 Hb. split.
    + intros fuel'. apply executeDaemons_skip. right. congruence.
    + intros fuel' p. by apply flush_stuck_run.
Qed.

(** Three daemons are queued and the second throws 7: the first has run, the
    third never runs, and a daemon registered afterwards is still queued and
    has not run after a later read. *)
Lemma C10_throwing_daemon_witness :
  (read 10 SystemDaemons.x SystemDaemons.start_throwing
     = (Threw (Thrown (VNum 7)), SystemDaemons.before_throw) /\
   executingDaemons (system SystemDaemons.before_throw)
     = Some ([SystemDaemons.counting_daemon 0] ++
             SystemDaemons.throwing :: [SystemDaemons.counting_daemon 1]) /\
   forall s3 : State,
     executingDaemons (system s3)
       = Some ([SystemDaemons.counting_daemon 0] ++
               SystemDaemons.throwing :: [SystemDaemons.counting_daemon 1]) ->
     (forall fuel', executeDaemons (run fuel') s3 = (Ok tt, s3)) /\
     (forall fuel' p,
         executingDaemons (system (snd (run fuel' p s3)))
           = Some ([SystemDaemons.counting_daemon 0] ++
                   SystemDaemons.throwing :: [SystemDaemons.counting_daemon 1]) /\
         exists registered,
           daemonQueue (system (snd (run fuel' p s3)))
             = daemonQueue (system s3) ++ registered)) /\
  counter SystemDaemons.later 0 = 1 /\
  counter SystemDaemons.later 1 = 0 /\
  counter SystemDaemons.later 3 = 0 /\
  daemonQueue (system SystemDaemons.later) = [SystemDaemons.counting_daemon 3].
Proof.
  split; [|vm_compute; repeat split].
  apply (C10_throwing_daemon_disables_flush 10 SystemDaemons.x
           SystemDaemons.start_throwing SystemDaemons.before_throw
           SystemDaemons.before_throw
           [SystemDaemons.counting_daemon 0] [SystemDaemons.counting_daemon 1]
           SystemDaemons.throwing (Thrown (VNum 7))).
  - reflexivity.
  - reflexivity.
  - eapply runs_cons; [reflexivity | apply runs_nil].
  - reflexivity.
Defined.

(** * Dependency edges *)

Lemma deduplicated_init : deduplicated init.
Proof. intros x. rewrite var_out_of_range by (simpl; lia). apply NoDup_nil_2. Qed.

Lemma deduplicated_run (fuel : nat) (p : Prog) (s : State) :
  deduplicated s -> deduplicated (snd (run fuel p s)).
Proof. apply (preserves_run _ keeps_deduplicated_respected). Qed.

Lemma deduplicated_first_edge (l : list Dependency) (dv : vref) (i : nat)
    (d : Dependency) :
  NoDup (dep_variable <$> l) ->
  l !! i = Some d -> dep_variable d = dv ->
  list_find (fun d' => dep_variable d' = dv) l = Some (i, d).
Proof.
  intros Hnd Hi Hdv. apply list_find_Some. split; [exact Hi|]. split; [exact Hdv|].
  intros j y Hj Hlt Hy.
  assert (i = j); [|lia].
  apply (NoDup_lookup _ i j dv Hnd); rewrite list_lookup_fmap.
  - by rewrite Hi; simpl; rewrite Hdv.
  - by rewrite Hj; simpl; rewrite Hy.
Qed.

(** C8: every [_dependents] holds at most one edge per dependent Variable in
    the state of the freshly loaded module, and after any run of user code,
    read, write, seed or formula replacement from a state where it does,
    whatever the outcome.  A read of an allocated [x], once its flush has
    returned with the demander [dv] on top of the demand stack, continues from
    the state in which [dv] is recorded: when [x] has no edge to [dv] it
    appends one with snapshot [dv.tick + 1], and otherwise it only overwrites
    the snapshot of the existing edge with [dv.tick + 1], the array keeping
    its length; no other Variable is touched by the recording.  With an empty
    demand stack the read records nothing.  In particular every state that a
    script reaches from the freshly loaded module is deduplicated. *)
Theorem C8_one_edge_per_dependent (fuel : nat) (p : Prog) (s : State)
    (x : vref) (v : value) (g : value -> Prog) :
  deduplicated init /\
  (deduplicated s ->
   deduplicated (snd (run fuel p s)) /\
   deduplicated (snd (read fuel x s)) /\
   deduplicated (snd (write fuel x v s)) /\
   deduplicated (snd (seed fuel x v s)) /\
   deduplicated (snd (replace_formula fuel x g s))) /\
  (forall (s0 : State) (dv : vref) (rest : list vref),
     deduplicated s ->
     executeDaemons (run fuel) s = (Ok tt, s0) ->
     demandingVariables (system s0) = dv :: rest ->
     (x < length (heap s0))%nat ->
     read fuel x s =
       (computeFormula (run fuel) x ;;; gets (fun s' => _value (var s' x)))
         (updateDependencies x s0) /\
     deduplicated (updateDependencies x s0) /\
     (forall y, y <> x -> var (updateDependencies x s0) y = var s0 y) /\
     ((forall d, d ∈ _dependents (var s0 x) -> dep_variable d <> dv) ->
      _dependents (var (updateDependencies x s0) x) =
        _dependents (var s0 x) ++
          [{| oid := next_oid s0; dep_variable := dv;
              dep_tick := tick (var s0 dv) + 1 |}]) /\
     (forall i d,
        _dependents (var s0 x) !! i = Some d -> dep_variable d = dv ->
        _dependents (var (updateDependencies x s0) x) =
          <[i := {| oid := oid d; dep_variable := dv;
                    dep_tick := tick (var s0 dv) + 1 |}]> (_dependents (var s0 x)) /\
        length (_dependents (var (updateDependencies x s0) x))
          = length (_dependents (var s0 x)))) /\
  (forall (s0 : State),
     executeDaemons (run fuel) s = (Ok tt, s0) ->
     demandingVariables (system s0) = [] ->
     read fuel x s =
       (computeFormula (run fuel) x ;;; gets (fun s' => _value (var s' x))) s0) /\
  (forall (fuel' : nat) (script : Prog), deduplicated (snd (run fuel' script init))).
Proof.
  split; [apply deduplicated_init|]. split; [|split; [|split]].
  4: { intros fuel' script. apply deduplicated_run, deduplicated_init. }
  3: { intros s0 Hflush Hst. unfold read.
       rewrite (get_value_flushed _ x s s0 Hflush).
       assert (Hu : updateDependencies x s0 = s0)
         by (unfold updateDependencies; by rewrite Hst).
       unfold sweep, bind, modify; simpl. by rewrite Hu. }
  - intros Hd.
    split; [by apply deduplicated_run|].
    split; [by apply (preserves_read _ keeps_deduplicated_respected fuel x s)|].
    split; [by apply (preserves_write _ keeps_deduplicated_respected fuel x v s)|].
    split; [by apply (preserves_seed _ keeps_deduplicated_respected fuel x v s)|].
    by apply (preserves_replace_formula _ keeps_deduplicated_respected fuel x g s).
  - intros s0 dv rest Hd Hflush Hst Hlt.
    assert (Hd0 : deduplicated s0).
    { pose proof (preserves_executeDaemons _ keeps_deduplicated_respected
                    (run fuel) (preserves_run _ keeps_deduplicated_respected fuel)
                    s Hd) as H.
      by rewrite Hflush in H. }
    split.
    { unfold read. rewrite (get_value_flushed _ x s s0 Hflush). reflexivity. }
    split; [by apply deduplicated_updateDependencies|].
    split; [intros y Hy; apply var_updateDependencies_ne; congruence|].
    rewrite (dependents_updateDependencies x dv rest s0 Hst Hlt). split.
    + intros Hnone.
      assert (Hfind : list_find (fun d => dep_variable d = dv)
                        (_dependents (var s0 x)) = None).
      { apply list_find_None, Forall_forall. exact Hnone. }
      by rewrite Hfind.
    + intros i d Hi Hdv.
      rewrite (deduplicated_first_edge _ dv i d (Hd0 x) Hi Hdv).
      rewrite Hdv. split; [reflexivity | apply length_insert].
Qed.

(** Inside the formula of [y] of scenario 1.  At the first computation [x]
    has no edge, and the read of [x] appends the edge to [y] with snapshot 1.
    At the computation after [x.value = 1] that edge is there, and the read
    of [x] overwrites its snapshot with 2: the array still holds one edge. *)
Lemma C8_one_edge_witness :
  (_dependents (var (entering Scenario1.y Scenario1.start) Scenario1.x) = [] /\
   read 10 Scenario1.x (entering Scenario1.y Scenario1.start)
     = (Ok (VNum 0),
        updateDependencies Scenario1.x (entering Scenario1.y Scenario1.start)) /\
   _dependents
     (var (updateDependencies Scenario1.x (entering Scenario1.y Scenario1.start))
          Scenario1.x)
     = [{| oid := 0; dep_variable := Scenario1.y; dep_tick := 1 |}]) /\
  (_dependents (var (entering Scenario1.y Scenario1.w_after_write1) Scenario1.x)
     = [{| oid := 0; dep_variable := Scenario1.y; dep_tick := 1 |}] /\
   read 10 Scenario1.x (entering Scenario1.y Scenario1.w_after_write1)
     = (Ok (VNum 1),
        updateDependencies Scenario1.x
          (entering Scenario1.y Scenario1.w_after_write1)) /\
   _dependents
     (var (updateDependencies Scenario1.x
             (entering Scenario1.y Scenario1.w_after_write1)) Scenario1.x)
     = [{| oid := 0; dep_variable := Scenario1.y; dep_tick := 2 |}]).
Proof.
  split.
  - destruct (C8_one_edge_per_dependent 10 (Ret VNull)
                (entering Scenario1.y Scenario1.start)
                Scenario1.x VNull (fun _ => Ret VNull))
      as (_ & _ & H & _).
    destruct (H (entering Scenario1.y Scenario1.start) Scenario1.y [])
      as (Hread & _ & _ & Happend & _).
    + intros x. destruct x as [|[|x]]; vm_compute; apply NoDup_nil_2.
    + vm_compute. reflexivity.
    + vm_compute. reflexivity.
    + vm_compute. lia.
    + split; [vm_compute; reflexivity|]. split.
      * rewrite Hread. vm_compute. reflexivity.
      * rewrite Happend; [vm_compute; reflexivity|].
        intros d Hd. vm_compute in Hd. inversion Hd.
  - destruct (C8_one_edge_per_dependent 10 (Ret VNull)
                (entering Scenario1.y Scenario1.w_after_write1)
                Scenario1.x VNull (fun _ => Ret VNull))
      as (_ & _ & H & _).
    destruct (H (entering Scenario1.y Scenario1.w_after_write1) Scenario1.y [])
      as (Hread & _ & _ & _ & Hrefresh).
    + intros x. destruct x as [|[|x]]; vm_compute;
        [apply NoDup_singleton | apply NoDup_nil_2 | apply NoDup_nil_2].
    + vm_compute. reflexivity.
    + vm_compute. reflexivity.
    + vm_compute. lia.
    + split; [vm_compute; reflexivity|]. split.
      * rewrite Hread. vm_compute. reflexivity.
      * destruct (Hrefresh 0%nat
                    {| oid := 0; dep_variable := Scenario1.y; dep_tick := 1 |})
          as [-> _]; vm_compute; reflexivity.
Defined.

(** * Writes and mark passes *)

Lemma var_written (x : vref) (v : value) (s : State) (y : vref) :
  var (written x v s) y =
    if decide (x = y /\ (x < length (heap s))%nat)
    then set__outOfDateDaemon None (set__formula None (set__value v (var s x)))
    else var s y.
Proof.
  unfold written. rewrite !var_upd_var, !length_heap_upd_var.
  repeat case_decide; try tauto; reflexivity.
Qed.

Lemma instrumented_written (x : vref) (v : value) (s : State) :
  instrumented s -> instrumented (written x v s).
Proof.
  intros Hi y. rewrite var_written. case_decide; [by left | apply Hi].
Qed.

Lemma nfresh_written (x : vref) (v : value) (s : State) :
  nfresh (written x v s) = nfresh s.
Proof. unfold written. by rewrite !nfresh_upd_var_same. Qed.

Lemma daemon_written (x : vref) (v : value) (s : State) :
  _outOfDateDaemon (var (written x v s) x) = None.
Proof.
  rewrite var_written. case_decide as H; [reflexivity|].
  rewrite var_out_of_range; [reflexivity|].
  destruct (decide (x < length (heap s))%nat); [tauto | lia].
Qed.

(** The write setter over counting daemons: its mark pass returns. *)
Lemma write_instrumented (fuel : nat) (x : vref) (v : value) (s : State) :
  instrumented s ->
  (nfresh s + 3 <= fuel)%nat ->
  exists s1,
    write fuel x v s = (Ok tt, upd_var x (set__outOfDate false) s1) /\
    pass (written x v s) s1 /\ closed_under_edges (written x v s) s1 /\
    ((x < length (heap s))%nat -> stale s1 x = true).
Proof.
  intros Hi Hfuel.
  destruct (mark_instrumented fuel x (written x v s)) as (s1 & Hm & Hp & Hc & Hx).
  { by apply instrumented_written. }
  { by rewrite nfresh_written. }
  exists s1. split; [|split; [exact Hp|split; [exact Hc|]]].
  - unfold write, set_value, mark_top, bind, modify, ret; simpl.
    fold (written x v s). by rewrite Hm.
  - intros Hlt. apply Hx. unfold written. by rewrite !length_heap_upd_var.
Qed.

(** C5 (counterexample): in the diamond, a second write to [x] with no read
    in between reaches [a], [b] and [d] along followed edges, yet none of
    their daemons fires ([a] is reachable and its counter stays at 1); and
    when the daemon of [d] seeds its own Variable, one write to [x] fires it
    twice.  Both writes return with ten units of fuel or more. *)
Lemma C5_daemon_zero_or_twice_counterexample :
  ((forall fuel, (10 <= fuel)%nat ->
      write fuel Diamond.x (VNum 6) Diamond.after_write1
        = (Ok tt, Diamond.after_write2)) /\
   reaches Diamond.after_write1 Diamond.x Diamond.a /\
   counter Diamond.after_write1 1 = 1 /\
   counter Diamond.after_write2 1 = 1) /\
  ((forall fuel, (10 <= fuel)%nat ->
      write fuel Diamond.x (VNum 5) (Diamond.wired Diamond.seeding)
        = (Ok tt, Diamond.seeded_after_write)) /\
   counter (Diamond.wired Diamond.seeding) 3 = 0 /\
   counter Diamond.seeded_after_write 3 = 2).
Proof.
  split; split.
  - intros fuel Hfuel.
    apply (write_more_fuel 10 fuel Diamond.x (VNum 6) Hfuel); [|discriminate].
    vm_compute; reflexivity.
  - split; [|vm_compute; by split].
    apply (reaches_step _ _ Diamond.x Diamond.a); [apply reaches_root|reflexivity|].
    exists {| oid := 1; dep_variable := Diamond.a; dep_tick := 1 |}.
    split; [|split; reflexivity].
    vm_compute. apply list_elem_of_here.
  - intros fuel Hfuel.
    apply (write_more_fuel 10 fuel Diamond.x (VNum 5) Hfuel); [|discriminate].
    vm_compute; reflexivity.
  - vm_compute; by split.
Qed.

(** C5 (amended): a write over counting daemons returns and changes no
    generation; every Variable reachable from the written one along followed
    edges through Variables that were not out of date is out of date
    afterwards; the counter of each other Variable grows by one exactly when
    that Variable went from up to date to out of date and has a daemon, and
    not at all otherwise; the written Variable's own daemon does not fire. *)
Theorem C5_write_marks_dependents_once (fuel : nat) (root : vref) (v : value)
    (s : State) :
  instrumented s ->
  (nfresh s + 3 <= fuel)%nat ->
  exists s',
    write fuel root v s = (Ok tt, s') /\
    (forall x, tick (var s' x) = tick (var s x)) /\
    (forall x, counter s' x =
               counter s x + (if decide (x = root) then 0 else fires s s' x)) /\
    (stale s root = false ->
     forall z, reaches s root z -> z <> root ->
               (z < length (heap s))%nat -> stale s' z = true).
Proof.
  intros Hi Hfuel.
  destruct (write_instrumented fuel root v s Hi Hfuel) as (s1 & Hw & Hp & Hc & Hx).
  exists (upd_var root (set__outOfDate false) s1).
  split; [exact Hw|]. split; [|split].
  - intros x.
    assert (H1 : tick (var (upd_var root (set__outOfDate false) s1) x)
                 = tick (var s1 x)).
    { rewrite var_upd_var. case_decide as H; [|reflexivity].
      by destruct H as [-> _]. }
    rewrite H1, (pass_ticks _ _ Hp x), var_written.
    case_decide as H; [by destruct H as [-> _] | reflexivity].
  - intros x. rewrite counter_upd_var, (pass_counter _ _ Hp x).
    unfold written at 1. rewrite !counter_upd_var. f_equal.
    case_decide as Hroot.
    + subst x. unfold fires. rewrite daemon_written. simpl.
      by rewrite !andb_false_r.
    + unfold fires, stale.
      rewrite (var_upd_var_ne root _ s1 x) by congruence.
      rewrite var_written, decide_False; [reflexivity|]. intros [? _]; congruence.
  - intros Hroot z Hreach Hz Hlt. unfold stale.
    rewrite (var_upd_var_ne root _ s1 z) by congruence.
    apply (reaches_stale (written root v s) s1 root z Hp Hc).
    + intros Hr. apply Hx. unfold written in Hr. by rewrite !length_heap_upd_var in Hr.
    + apply (reaches_same_graph s); [|exact Hreach].
      intros y. rewrite var_written. by case_decide as H; [destruct H as [-> _]|].
    + unfold written. by rewrite !length_heap_upd_var.
Qed.

Lemma instrumented_diamond : instrumented (Diamond.wired (counting 3)).
Proof.
  intros y. destruct y as [|[|[|[|y]]]]; vm_compute; auto.
Qed.

(** The diamond: one write to [x] fires the daemons of [a], [b] and [d]
    once each, although [d] is reachable along two paths. *)
Lemma C5_write_marks_dependents_witness :
  exists s',
    write 10 Diamond.x (VNum 5) (Diamond.wired (counting 3)) = (Ok tt, s') /\
    (forall x, tick (var s' x) = tick (var (Diamond.wired (counting 3)) x)) /\
    (forall x, counter s' x =
               counter (Diamond.wired (counting 3)) x +
               (if decide (x = Diamond.x) then 0
                else fires (Diamond.wired (counting 3)) s' x)) /\
    (stale (Diamond.wired (counting 3)) Diamond.x = false ->
     forall z, reaches (Diamond.wired (counting 3)) Diamond.x z ->
               z <> Diamond.x ->
               (z < length (heap (Diamond.wired (counting 3))))%nat ->
               stale s' z = true).
Proof.
  apply (C5_write_marks_dependents_once 10 Diamond.x (VNum 5)
           (Diamond.wired (counting 3))).
  - apply instrumented_diamond.
  - vm_compute. lia.
Defined.

(** * The formula setter *)

(** C9 (counterexample): after [fahrenheit.formulaValue = 50], celsius is out
    of date, fahrenheit is not, and celsius holds a followed edge to
    fahrenheit.  Replacing the formula of celsius then marks nothing:
    fahrenheit stays up to date and its daemon does not fire.  And in the
    diamond whose [d] has a daemon that seeds [d], replacing the formula of
    the up-to-date [d] leaves [d] up to date: the daemon cleared the flag,
    and the next read returns the seeded 0, not the new formula's 7. *)
Lemma C9_stale_variable_marks_nothing_counterexample :
  ((forall fuel, (10 <= fuel)%nat ->
      replace_formula fuel Circular.celsius (fun _ => Ret (VNum 7)) Circular.seeded
        = (Ok tt, Circular.replaced)) /\
   stale Circular.seeded Circular.celsius = true /\
   stale Circular.seeded Circular.fahrenheit = false /\
   live_edge Circular.seeded Circular.celsius Circular.fahrenheit /\
   stale Circular.replaced Circular.fahrenheit = false /\
   counter Circular.replaced 0 = counter Circular.seeded 0) /\
  ((forall fuel, (10 <= fuel)%nat ->
      replace_formula fuel Diamond.d (fun _ => Ret (VNum 7))
          (Diamond.wired Diamond.seeding)
        = (Ok tt, Diamond.seeded_replaced)) /\
   stale (Diamond.wired Diamond.seeding) Diamond.d = false /\
   stale Diamond.seeded_replaced Diamond.d = false /\
   fst (read 10 Diamond.d Diamond.seeded_replaced) = Ok (VNum 0)).
Proof.
  split; split.
  - intros fuel Hfuel.
    apply (replace_formula_more_fuel 10 fuel Circular.celsius _ Hfuel);
      [|discriminate].
    vm_compute; reflexivity.
  - split; [reflexivity|]. split; [reflexivity|]. split; [|split; reflexivity].
    exists {| oid := 1; dep_variable := Circular.fahrenheit; dep_tick := 1 |}.
    split; [|split; reflexivity]. vm_compute. apply list_elem_of_here.
  - intros fuel Hfuel.
    apply (replace_formula_more_fuel 10 fuel Diamond.d _ Hfuel); [|discriminate].
    vm_compute; reflexivity.
  - vm_compute; repeat split.
Qed.

Lemma instrumented_upd_formula (x : vref) (f : option (value -> Prog)) (s : State) :
  instrumented s -> instrumented (upd_var x (set__formula f) s).
Proof.
  intros Hi y. rewrite var_upd_var. case_decide as H; [|apply Hi].
  destruct H as [<- _]. apply Hi.
Qed.

(** C9 (amended): over counting daemons the formula setter returns without
    invoking the formula: the callable is replaced, daemon, context, value and
    generation are kept and the Variable is out of date afterwards.  If it was
    already out of date nothing else happens (no daemon fires, no dependent is
    marked); if it was not, its daemon fires once and every Variable reachable
    along followed edges through up-to-date Variables is out of date
    afterwards, each daemon firing once for a Variable that became out of
    date. *)
Theorem C9_formula_setter_marks_unless_stale (fuel : nat) (x : vref)
    (g : value -> Prog) (s : State) :
  instrumented s ->
  (nfresh s + 3 <= fuel)%nat ->
  (x < length (heap s))%nat ->
  exists s',
    replace_formula fuel x g s = (Ok tt, s') /\
    _formula (var s' x) = Some g /\
    _outOfDateDaemon (var s' x) = _outOfDateDaemon (var s x) /\
    _thisFormula (var s' x) = _thisFormula (var s x) /\
    _value (var s' x) = _value (var s x) /\
    tick (var s' x) = tick (var s x) /\
    stale s' x = true /\
    (stale s x = true -> s' = upd_var x (set__formula (Some g)) s) /\
    (stale s x = false ->
     (forall c, counter s' c = counter s c + fires s s' c) /\
     (forall z, reaches s x z -> (z < length (heap s))%nat -> stale s' z = true)).
Proof.
  intros Hi Hfuel Hlt.
  set (s0 := upd_var x (set__formula (Some g)) s).
  assert (Hv0 : var s0 x = set__formula (Some g) (var s x))
    by (by apply var_upd_var_eq).
  assert (Hrun : forall s1, mark fuel x [] s0 = (Ok [], s1) ->
                            replace_formula fuel x g s = (Ok tt, s1)).
  { intros s1 Hm. unfold replace_formula, set_formula, mark_top, bind, modify, ret.
    simpl. fold s0. by rewrite Hm. }
  destruct (stale s x) eqn:Hx.
  - exists s0. split.
    { apply Hrun. destruct fuel as [|fuel]; [lia|].
      apply mark_already_stale. unfold stale. by rewrite Hv0. }
    rewrite Hv0; simpl. repeat split; try done.
    unfold stale. by rewrite Hv0.
  - destruct (mark_instrumented fuel x s0) as (s1 & Hm & Hp & Hc & Hx1).
    { by apply instrumented_upd_formula. }
    { unfold s0. by rewrite nfresh_upd_var_same. }
    exists s1. split; [by apply Hrun|].
    destruct (pass_fields _ _ Hp x) as (F1 & F2 & F3 & F4 & F5).
    rewrite Hv0 in F1, F2, F3, F4, F5; simpl in *.
    assert (Hlt0 : (x < length (heap s0))%nat)
      by (unfold s0; by rewrite length_heap_upd_var).
    repeat split; try done.
    + by apply Hx1.
    + intros c. rewrite (pass_counter _ _ Hp c). unfold s0 at 1.
      rewrite counter_upd_var. f_equal. unfold fires, stale, s0.
      rewrite var_upd_var. case_decide as E; [|reflexivity].
      by destruct E as [-> _].
    + intros z Hreach Hz. apply (reaches_stale s0 s1 x z Hp Hc Hx1).
      * apply (reaches_same_graph s); [|exact Hreach].
        intros y. unfold s0. rewrite var_upd_var.
        by case_decide as E; [destruct E as [-> _]|].
      * unfold s0. by rewrite length_heap_upd_var.
Qed.

(** The diamond: replacing the formula of [a] marks [a] and [d]. *)
Lemma C9_formula_setter_witness :
  exists s',
    replace_formula 10 Diamond.a (fun _ => Ret (VNum 7)) (Diamond.wired (counting 3))
      = (Ok tt, s') /\
    counter s' 1 = 1 /\ counter s' 3 = 1 /\ counter s' 2 = 0 /\
    stale s' Diamond.a = true /\ stale s' Diamond.d = true /\
    _value (var s' Diamond.a) = VNum 1.
Proof.
  destruct (C9_formula_setter_marks_unless_stale 10 Diamond.a
              (fun _ => Ret (VNum 7)) (Diamond.wired (counting 3)))
    as (s' & Hrun & _).
  - apply instrumented_diamond.
  - vm_compute. lia.
  - vm_compute. lia.
  - exists s'. split; [exact Hrun|].
    assert (Hs' : s' = snd (replace_formula 10 Diamond.a (fun _ => Ret (VNum 7))
                              (Diamond.wired (counting 3))))
      by (by rewrite Hrun).
    rewrite Hs'. vm_compute. repeat split.
Defined.

(** * The generation counter *)

Lemma ticks_le_run (fuel : nat) (p : Prog) (s : State) :
  ticks_le s (snd (run fuel p s)).
Proof. apply preserves_run, ticks_le_respected. Qed.

Lemma heap_grows_run (fuel : nat) (p : Prog) (s : State) :
  heap_grows s (snd (run fuel p s)).
Proof. apply preserves_run, heap_grows_respected. Qed.

Lemma length_heap_entering (x : vref) (s : State) :
  length (heap (entering x s)) = length (heap s).
Proof.
  unfold entering. rewrite length_heap_upd_var. simpl.
  apply length_heap_updateDependencies.
Qed.

(** A read that recomputes: the generation after the read is the generation
    the formula left plus one; the other generations are as the formula left
    them. *)
Lemma read_recomputes (fuel : nat) (x : vref) (s s1 : State)
    (f : value -> Prog) (r : value) :
  no_flush s ->
  stale s x = true ->
  _formula (var s x) = Some f ->
  run fuel (f (_thisFormula (var s x))) (entering x s) = (Ok r, s1) ->
  exists s2,
    read fuel x s = (Ok r, s2) /\
    tick (var s2 x) = tick (var s1 x) + 1 /\
    (forall y, y <> x -> tick (var s2 y) = tick (var s1 y)).
Proof.
  intros Hq Hx Hf Hrun.
  assert (Hlt1 : (x < length (heap s1))%nat).
  { pose proof (heap_grows_run fuel (f (_thisFormula (var s x))) (entering x s)) as H.
    rewrite Hrun in H. unfold heap_grows in H.
    rewrite length_heap_entering in H. simpl in H.
    pose proof (stale_in_range s x Hx). lia. }
  set (s2 := pop_demanding (upd_var x incr_tick (upd_var x (set__value r) s1))).
  assert (Hv2 : var s2 x = incr_tick (set__value r (var s1 x))).
  { unfold s2, var; simpl. fold (var s1 x).
    rewrite list_lookup_total_alter_eq by (by rewrite length_alter).
    by rewrite list_lookup_total_alter_eq. }
  exists s2. split; [|split].
  - unfold read. rewrite (get_value_stale _ x s f Hq Hx Hf).
    rewrite (bind_Ok _ _ _ _ _ Hrun). unfold bind, modify, gets; simpl.
    fold s2. by rewrite Hv2.
  - by rewrite Hv2.
  - intros y Hne. unfold s2, var; simpl.
    by rewrite !list_lookup_total_alter_ne.
Qed.

(** C7 (counterexample): the daemon of [y] reads [w], whose formula has not
    been computed yet.  The write [x.value = 1] returns (with ten units of
    fuel or more), its mark pass reaches [y], the daemon of [y] runs and its
    read recomputes [w]: the generation of [w] is 0 before the write and 1
    after it. *)
Lemma C7_write_changes_generation_counterexample :
  (forall fuel, (10 <= fuel)%nat ->
     write fuel ReadingDaemon.x (VNum 1) ReadingDaemon.wired
       = (Ok tt, ReadingDaemon.after_write)) /\
  tick (var ReadingDaemon.wired ReadingDaemon.w) = 0 /\
  tick (var ReadingDaemon.after_write ReadingDaemon.w) = 1.
Proof.
  split; [|split; reflexivity].
  intros fuel Hfuel.
  apply (write_more_fuel 10 fuel ReadingDaemon.x _ Hfuel); [|discriminate].
  vm_compute; reflexivity.
Qed.

(** C7 (amended): no run of user code, read, write, seed or formula
    replacement decreases a generation; a read that recomputes the formula of
    [x] leaves the generation of [x] one above what the formula call left and
    adds nothing to the others; as long as no outOfDateDaemon reads a Variable
    (which would be a recomputation of its own), the write setter, the
    formulaValue setter, the formula setter and a mark pass change no
    generation, whatever their outcome; [peek] changes nothing at all. *)
Theorem C7_generation_counter (fuel : nat) (s : State) (x : vref) (v : value)
    (g : value -> Prog) :
  ((forall fuel' p, ticks_le s (snd (run fuel' p s))) /\
   ticks_le s (snd (read fuel x s)) /\
   ticks_le s (snd (write fuel x v s)) /\
   ticks_le s (snd (seed fuel x v s)) /\
   ticks_le s (snd (replace_formula fuel x g s)) /\
   ticks_le s (snd (mark fuel x [] s))) /\
  (forall s0 f r s1,
      executeDaemons (run fuel) s = (Ok tt, s0) ->
      stale s0 x = true ->
      _formula (var s0 x) = Some f ->
      run fuel (f (_thisFormula (var s0 x))) (entering x s0) = (Ok r, s1) ->
      exists s2,
        read fuel x s = (Ok r, s2) /\
        tick (var s2 x) = tick (var s1 x) + 1 /\
        (forall y, y <> x -> tick (var s2 y) = tick (var s1 y))) /\
  (quiet_heap s ->
   ticks_eq s (snd (write fuel x v s)) /\
   ticks_eq s (snd (seed fuel x v s)) /\
   ticks_eq s (snd (replace_formula fuel x g s)) /\
   ticks_eq s (snd (mark fuel x [] s))) /\
  peek x s = (Ok (_value (var s x)), s).
Proof.
  split; [|split; [|split]].
  - split; [intros; apply ticks_le_run|].
    split; [apply (preserves_read _ ticks_le_respected)|].
    split; [apply (preserves_write _ ticks_le_respected)|].
    split; [apply (preserves_seed _ ticks_le_respected)|].
    split; [apply (preserves_replace_formula _ ticks_le_respected)|].
    apply (preserves_mark _ ticks_le_respected).
  - intros s0 f r s1 Hflush Hx Hf Hrun.
    destruct (read_flushed_recomputes fuel x s s0 s1 f r Hflush Hx Hf Hrun)
      as [Hr Hlt1].
    eexists. split; [exact Hr|].
    assert (Hv2 : forall y,
      var (pop_demanding (upd_var x incr_tick (upd_var x (set__value r) s1))) y
      = var (upd_var x incr_tick (upd_var x (set__value r) s1)) y) by reflexivity.
    split.
    + rewrite Hv2, var_upd_var_eq by (by rewrite length_heap_upd_var).
      by rewrite var_upd_var_eq.
    + intros y Hne. rewrite Hv2. by rewrite !var_upd_var_ne by congruence.
  - intros Hq. split; [|split; [|split]].
    + apply (keeps_ticks_set_value _ (keeps_ticks_mark fuel) x v s Hq).
    + apply (keeps_ticks_set_formulaValue _ (keeps_ticks_mark fuel) x v s Hq).
    + apply (keeps_ticks_set_formula _ (keeps_ticks_mark fuel) x g s Hq).
    + apply (keeps_ticks_mark fuel x [] s Hq).
  - reflexivity.
Qed.

(** Scenario 1 after both reads: the write to [x] changes no generation and
    fires the daemon of [y]; the next read of [y] recomputes it and takes its
    generation from 1 to 2. *)
Lemma C7_generation_counter_witness :
  ticks_eq Scenario1.warmed Scenario1.w_after_write1 /\
  Scenario1.n Scenario1.w_after_write1 = 1 /\
  tick (var Scenario1.w_after_write1 Scenario1.y) = 1 /\
  exists s2,
    read 10 Scenario1.y Scenario1.w_after_read_x1 = (Ok (VNum 10), s2) /\
    tick (var s2 Scenario1.y) = 2.
Proof.
  destruct (C7_generation_counter 10 Scenario1.warmed Scenario1.x
              (VNum 1) (fun _ => Ret VNull))
    as (_ & _ & Hw & _).
  destruct Hw as (Hw & _).
  { intros x d Hd t. destruct x as [|[|x]]; vm_compute in Hd; try discriminate.
    injection Hd as <-. apply no_read_Incr, no_read_Ret. }
  split; [exact Hw|]. split; [vm_compute; reflexivity|].
  split; [vm_compute; reflexivity|].
  destruct (C7_generation_counter 10 Scenario1.w_after_read_x1 Scenario1.y
              (VNum 1) (fun _ => Ret VNull))
    as (_ & Hr & _).
  destruct (Hr Scenario1.w_after_read_x1 Scenario1.y_formula (VNum 10)
              (snd (run 10 (Scenario1.y_formula VNull)
                      (entering Scenario1.y Scenario1.w_after_read_x1))))
    as (s2 & Hread & Ht & _).
  - vm_compute. reflexivity.
  - vm_compute. reflexivity.
  - vm_compute. reflexivity.
  - vm_compute. reflexivity.
  - exists s2. split; [exact Hread|]. rewrite Ht. vm_compute. reflexivity.
Defined.

(** * Mutually dependent formulas *)

Lemma no_flush_entering (x : vref) (s : State) :
  no_flush s -> no_flush (entering x s).
Proof.
  unfold no_flush, entering; simpl. by rewrite system_updateDependencies.
Qed.

Lemma var_entering_ne (x y : vref) (s : State) :
  x <> y -> var (entering x s) y = var s y.
Proof.
  intros Hne. unfold entering. rewrite var_upd_var_ne by done.
  apply (var_updateDependencies_ne x s y Hne).
Qed.

Lemma entering_clears (x : vref) (s : State) :
  (x < length (heap s))%nat ->
  stale (entering x s) x = false /\
  _value (var (entering x s) x) = _value (var s x).
Proof.
  intros Hlt. unfold stale. rewrite var_entering by done. simpl.
  by destruct (var_updateDependencies x s x) as (-> & _).
Qed.

Lemma read_fresh (fuel : nat) (x : vref) (s : State) :
  no_flush s -> stale s x = false ->
  read fuel x s = (Ok (_value (var s x)), updateDependencies x s).
Proof. apply get_value_fresh. Qed.

(** Let the formula of [a] be [f(b.value)] and the formula of [b] be
    [g(a.value)].  With no flush pending, a read of [a] returns with three
    units of fuel, whatever the flags and edges. *)
Lemma mutual_reads_then (fuel : nat) (s : State) (a b : vref)
    (f g : value -> value) :
  a <> b ->
  _formula (var s a) = Some (reads_then b f) ->
  _formula (var s b) = Some (reads_then a g) ->
  no_flush s ->
  (3 <= fuel)%nat ->
  exists r s',
    read fuel a s = (Ok r, s') /\
    (stale s a = false -> r = _value (var s a)) /\
    (stale s a = true -> stale s b = false -> r = f (_value (var s b))) /\
    (stale s a = true -> stale s b = true -> r = f (g (_value (var s a)))).
Proof.
  intros Hab Hfa Hfb Hq Hfuel.
  pose proof (formula_in_range _ _ _ Hfa) as Hla.
  destruct (stale s a) eqn:Ha.
  2: { exists (_value (var s a)), (updateDependencies a s).
       split; [by apply read_fresh|]. repeat split; intros; congruence. }
  destruct fuel as [|[|[|m]]]; try lia.
  set (s1 := entering a s).
  assert (Hq1 : no_flush s1) by (by apply no_flush_entering).
  assert (Hb1 : var s1 b = var s b) by (by apply var_entering_ne).
  destruct (entering_clears a s Hla) as [Ha1 Hva1]. fold s1 in Ha1, Hva1.
  destruct (stale s b) eqn:Hb.
  - (* both out of date: the formula of b is entered in turn *)
    set (s2 := entering b s1).
    assert (Hq2 : no_flush s2) by (by apply no_flush_entering).
    assert (Ha2 : var s2 a = var s1 a) by (apply var_entering_ne; congruence).
    assert (Hinner : run (S (S m)) (reads_then a g (_thisFormula (var s1 b))) s2
                     = (Ok (g (_value (var s a))), updateDependencies a s2)).
    { simpl. rewrite (bind_Ok _ _ _ _ _ (read_fresh (S m) a s2 Hq2
                          ltac:(unfold stale; by rewrite Ha2))).
      by rewrite Ha2, Hva1. }
    destruct (read_recomputes (S (S m)) b s1 _ (reads_then a g) _ Hq1
                ltac:(unfold stale; by rewrite Hb1) ltac:(by rewrite Hb1) Hinner)
      as (s3 & Hrb & _).
    assert (Houter : run (S (S (S m))) (reads_then b f (_thisFormula (var s a))) s1
                     = (Ok (f (g (_value (var s a)))), s3)).
    { simpl. by rewrite (bind_Ok _ _ _ _ _ Hrb). }
    destruct (read_recomputes (S (S (S m))) a s _ (reads_then b f) _ Hq Ha Hfa Houter)
      as (s4 & Hra & _).
    exists (f (g (_value (var s a)))), s4. split; [exact Hra|].
    repeat split; intros; congruence.
  - (* only a is out of date *)
    assert (Houter : run (S (S (S m))) (reads_then b f (_thisFormula (var s a))) s1
                     = (Ok (f (_value (var s b))), updateDependencies b s1)).
    { simpl. rewrite (bind_Ok _ _ _ _ _ (read_fresh (S (S m)) b s1 Hq1
                          ltac:(unfold stale; by rewrite Hb1))).
      by rewrite Hb1. }
    destruct (read_recomputes (S (S (S m))) a s _ (reads_then b f) _ Hq Ha Hfa Houter)
      as (s4 & Hra & _).
    exists (f (_value (var s b))), s4. split; [exact Hra|].
    repeat split; intros; congruence.
Qed.

(** * Round trips of the public operations *)

Lemma length_heap_written (x : vref) (v : value) (s : State) :
  length (heap (written x v s)) = length (heap s).
Proof. unfold written. by rewrite !length_heap_upd_var. Qed.

Lemma var_leaving (x : vref) (r : value) (s1 : State) (y : vref) :
  var (leaving x r s1) y =
    if decide (x = y /\ (x < length (heap s1))%nat)
    then incr_tick (set__value r (var s1 x)) else var s1 y.
Proof.
  unfold leaving.
  change (var (pop_demanding ?s) y) with (var s y).
  rewrite !var_upd_var, length_heap_upd_var.
  repeat case_decide; try tauto; reflexivity.
Qed.

(** A read that recomputes, with the state it ends in. *)
Lemma read_recomputes_to (fuel : nat) (x : vref) (s s1 : State)
    (f : value -> Prog) (r : value) :
  no_flush s ->
  stale s x = true ->
  _formula (var s x) = Some f ->
  run fuel (f (_thisFormula (var s x))) (entering x s) = (Ok r, s1) ->
  read fuel x s = (Ok r, leaving x r s1) /\ (x < length (heap s1))%nat.
Proof.
  intros Hq Hx Hf Hrun.
  assert (Hlt1 : (x < length (heap s1))%nat).
  { pose proof (heap_grows_run fuel (f (_thisFormula (var s x))) (entering x s)) as H.
    rewrite Hrun in H. unfold heap_grows in H.
    rewrite length_heap_entering in H. simpl in H.
    pose proof (stale_in_range s x Hx). lia. }
  split; [|exact Hlt1].
  unfold read. rewrite (get_value_stale _ x s f Hq Hx Hf).
  rewrite (bind_Ok _ _ _ _ _ Hrun). unfold bind, modify, gets; simpl.
  fold (leaving x r s1). rewrite var_leaving, decide_True by done. reflexivity.
Qed.

Lemma var_new_Variable (v : value) (f : option (value -> Prog)) (t : value)
    (d : option (value -> Prog)) (s : State) :
  var (snd (new_Variable v f t d s)) (length (heap s)) = Variable_new v f t d.
Proof.
  pose proof (var_alloc (Variable_new v f t d) s (length (heap s))) as H.
  by rewrite decide_True in H.
Qed.

(** [new Variable({value: v, ...}).value] is [v], whatever context and daemon
    are configured; [new Variable({formula, value: v0, ...}).value] is what
    the formula returns from the configured context, not [v0], and the new
    Variable is then up to date at generation 1. *)
Theorem new_Variable_first_read (fuel : nat) (s : State) (v t : value)
    (d : option (value -> Prog)) (h : value -> value) :
  no_flush s ->
  (fst (new_Variable v None t d s) = Ok (length (heap s)) /\
   read fuel (length (heap s)) (snd (new_Variable v None t d s))
     = (Ok v, updateDependencies (length (heap s))
                (snd (new_Variable v None t d s)))) /\
  (exists s2,
     read (S fuel) (length (heap s))
          (snd (new_Variable v (Some (of_context h)) t d s))
       = (Ok (h t), s2) /\
     tick (var s2 (length (heap s))) = 1 /\
     stale s2 (length (heap s)) = false).
Proof.
  intros Hq. set (x := length (heap s)). split.
  - split; [reflexivity|].
    set (s1 := snd (new_Variable v None t d s)).
    assert (Hv : var s1 x = Variable_new v None t d) by apply var_new_Variable.
    rewrite (read_fresh fuel x s1).
    + by rewrite Hv.
    + exact Hq.
    + unfold stale. by rewrite Hv.
  - set (s1 := snd (new_Variable v (Some (of_context h)) t d s)).
    assert (Hv : var s1 x = Variable_new v (Some (of_context h)) t d)
      by apply var_new_Variable.
    assert (Hlt : (x < length (heap s1))%nat).
    { unfold s1; simpl. rewrite length_app; simpl. unfold x. lia. }
    destruct (read_recomputes_to (S fuel) x s1 (entering x s1) (of_context h) (h t))
      as (Hread & Hlt').
    + exact Hq.
    + unfold stale. by rewrite Hv.
    + by rewrite Hv.
    + by rewrite Hv.
    + exists (leaving x (h t) (entering x s1)). split; [exact Hread|].
      unfold stale. rewrite var_leaving, decide_True by done.
      rewrite var_entering by done. simpl.
      destruct (var_updateDependencies x s1 x) as (_ & _ & _ & _ & Ht & _).
      rewrite Ht, Hv. by split.
Qed.

(** The repository's first test, [new Variable({value: 10}).value], and a
    first formula Variable [new Variable({formula, thisFormula: 4}).value]
    with formula [function() { return this + 1; }]. *)
Lemma new_Variable_first_read_witness :
  fst (read 0 0%nat (snd (new_Variable (VNum 10) None VNull None init)))
    = Ok (VNum 10) /\
  exists s2,
    read 1 0%nat (snd (new_Variable (VNum 10) (Some (of_context (plus 1)))
                         (VNum 4) None init)) = (Ok (VNum 5), s2) /\
    tick (var s2 0%nat) = 1.
Proof.
  destruct (new_Variable_first_read 0 init (VNum 10) VNull None (plus 1))
    as ((_ & H1) & _); [left; reflexivity|].
  destruct (new_Variable_first_read 0 init (VNum 10) (VNum 4) None (plus 1))
    as (_ & s2 & H2 & Ht & _); [left; reflexivity|].
  split; [exact (f_equal fst H1)|]. exists s2. split; [exact H2 | exact Ht].
Defined.

(** The write setter followed by a read.  Over counting daemons and with no
    flush pending (nothing queued, or a flush in progress), a write to an
    allocated Variable returns, leaves the system state (demand stack, daemon
    queue, flush flag) as it was, removes formula and daemon, keeps context
    and generation and leaves the Variable up to date; the next read returns
    the written value without calling user code. *)
Theorem write_then_read (fuel fuel' : nat) (x : vref) (v : value) (s : State) :
  instrumented s ->
  (nfresh s + 3 <= fuel)%nat ->
  (x < length (heap s))%nat ->
  no_flush s ->
  exists s',
    write fuel x v s = (Ok tt, s') /\
    system s' = system s /\
    _value (var s' x) = v /\
    _formula (var s' x) = None /\
    _outOfDateDaemon (var s' x) = None /\
    _thisFormula (var s' x) = _thisFormula (var s x) /\
    tick (var s' x) = tick (var s x) /\
    stale s' x = false /\
    read fuel' x s' = (Ok v, updateDependencies x s').
Proof.
  intros Hi Hfuel Hlt Hq.
  destruct (write_instrumented fuel x v s Hi Hfuel) as (s1 & Hw & Hp & _ & _).
  set (s' := upd_var x (set__outOfDate false) s1) in *.
  assert (Hlt1 : (x < length (heap s1))%nat)
    by (by rewrite (pass_length _ _ Hp), length_heap_written).
  assert (Hv' : var s' x = set__outOfDate false (var s1 x))
    by (by apply var_upd_var_eq).
  destruct (pass_fields _ _ Hp x) as (F1 & F2 & F3 & F4 & F5).
  rewrite var_written, decide_True in F1, F2, F3, F4, F5 by done.
  simpl in F1, F2, F3, F4, F5.
  assert (Hsys : system s' = system s) by (unfold s'; by rewrite system_upd_var, (pass_system _ _ Hp)).
  assert (Hst : stale s' x = false) by (unfold stale; by rewrite Hv').
  exists s'. rewrite Hv'. simpl.
  do 7 (split; [done|]). split; [exact Hst|].
  rewrite (read_fresh fuel' x s'); [rewrite Hv'; simpl; by rewrite F1| |exact Hst].
  unfold no_flush. by rewrite Hsys.
Qed.

(** In the diamond, [a.value = 9] then [a.value] reads 9. *)
Lemma write_then_read_witness :
  exists s',
    write 10 Diamond.a (VNum 9) (Diamond.wired (counting 3)) = (Ok tt, s') /\
    fst (read 5 Diamond.a s') = Ok (VNum 9).
Proof.
  destruct (write_then_read 10 5 Diamond.a (VNum 9) (Diamond.wired (counting 3)))
    as (s' & Hw & _ & _ & _ & _ & _ & _ & _ & Hr).
  - apply instrumented_diamond.
  - vm_compute. lia.
  - vm_compute. lia.
  - left. reflexivity.
  - exists s'. split; [exact Hw|]. by rewrite Hr.
Defined.

Lemma seed_instrumented (fuel : nat) (x : vref) (v : value) (s : State) :
  instrumented s ->
  (nfresh s + 3 <= fuel)%nat ->
  exists s1,
    seed fuel x v s = (Ok tt, upd_var x (set__outOfDate false) s1) /\
    pass (seeded_with x v s) s1 /\ closed_under_edges (seeded_with x v s) s1 /\
    ((x < length (heap s))%nat -> stale s1 x = true).
Proof.
  intros Hi Hfuel.
  destruct (mark_instrumented fuel x (seeded_with x v s)) as (s1 & Hm & Hp & Hc & Hx).
  { intros y. unfold seeded_with. rewrite var_upd_var. case_decide as H; [|apply Hi].
    destruct H as [<- _]. apply Hi. }
  { unfold seeded_with. by rewrite nfresh_upd_var_same. }
  exists s1. split; [|split; [exact Hp|split; [exact Hc|]]].
  - unfold seed, set_formulaValue, mark_top, bind, modify, ret; simpl.
    fold (seeded_with x v s). by rewrite Hm.
  - intros Hlt. apply Hx. unfold seeded_with. by rewrite length_heap_upd_var.
Qed.

(** The formulaValue setter followed by a read.  Over counting daemons and
    with no flush pending (nothing queued, or a flush in progress), seeding an
    allocated Variable returns, keeps its formula, daemon, context and
    generation, fires the Variable's own daemon once if it was up to date and
    has one, and leaves the Variable itself up to date with the seeded value:
    the next read returns the seed without invoking the formula.  If the
    Variable was up to date, every other Variable reachable from it along
    edges that are not out of date, through Variables that were not out of
    date, is out of date afterwards. *)
Theorem seed_then_read (fuel fuel' : nat) (x : vref) (v : value) (s : State) :
  instrumented s ->
  (nfresh s + 3 <= fuel)%nat ->
  (x < length (heap s))%nat ->
  no_flush s ->
  exists s',
    seed fuel x v s = (Ok tt, s') /\
    _value (var s' x) = v /\
    _formula (var s' x) = _formula (var s x) /\
    _outOfDateDaemon (var s' x) = _outOfDateDaemon (var s x) /\
    _thisFormula (var s' x) = _thisFormula (var s x) /\
    tick (var s' x) = tick (var s x) /\
    stale s' x = false /\
    counter s' x = counter s x +
      (if negb (stale s x) && non_null (_outOfDateDaemon (var s x)) then 1 else 0) /\
    (stale s x = false ->
     forall z, reaches s x z -> z <> x -> (z < length (heap s))%nat ->
               stale s' z = true) /\
    read fuel' x s' = (Ok v, updateDependencies x s').
Proof.
  intros Hi Hfuel Hlt Hq.
  destruct (seed_instrumented fuel x v s Hi Hfuel) as (s1 & Hw & Hp & Hc & Hx).
  set (s' := upd_var x (set__outOfDate false) s1) in *.
  assert (Hlt0 : (x < length (heap (seeded_with x v s)))%nat)
    by (unfold seeded_with; by rewrite length_heap_upd_var).
  assert (Hlt1 : (x < length (heap s1))%nat) by (by rewrite (pass_length _ _ Hp)).
  assert (Hv0 : var (seeded_with x v s) x = set__value v (var s x))
    by (by apply var_upd_var_eq).
  assert (Hv' : var s' x = set__outOfDate false (var s1 x))
    by (by apply var_upd_var_eq).
  destruct (pass_fields _ _ Hp x) as (F1 & F2 & F3 & F4 & F5).
  rewrite Hv0 in F1, F2, F3, F4, F5. simpl in F1, F2, F3, F4, F5.
  assert (Hst : stale s' x = false) by (unfold stale; by rewrite Hv').
  exists s'. rewrite Hv'. simpl.
  do 6 (split; [done|]). split; [exact Hst|].
  split; [|split].
  - unfold s'. rewrite counter_upd_var, (pass_counter _ _ Hp x).
    unfold seeded_with at 1. rewrite counter_upd_var. f_equal.
    unfold fires, stale. rewrite Hv0. simpl.
    fold (stale s1 x). rewrite (Hx Hlt). by rewrite andb_true_r.
  - intros Hfresh z Hreach Hz Hzlt. unfold stale, s'.
    rewrite (var_upd_var_ne x _ s1 z) by congruence.
    apply (reaches_stale (seeded_with x v s) s1 x z Hp Hc).
    + intros _. by apply Hx.
    + apply (reaches_same_graph s); [|exact Hreach].
      intros y. unfold seeded_with. rewrite var_upd_var.
      by case_decide as E; [destruct E as [-> _]|].
    + unfold seeded_with. by rewrite length_heap_upd_var.
  - rewrite (read_fresh fuel' x s'); [rewrite Hv'; simpl; by rewrite F1| |exact Hst].
    unfold no_flush, s'. rewrite system_upd_var, (pass_system _ _ Hp). exact Hq.
Qed.

(** In the diamond, [a.formulaValue = 9] fires the daemons of [a] and [d]
    and [a.value] then reads 9. *)
Lemma seed_then_read_witness :
  exists s',
    seed 10 Diamond.a (VNum 9) (Diamond.wired (counting 3)) = (Ok tt, s') /\
    counter s' Diamond.a = 1 /\
    stale s' Diamond.d = true /\
    fst (read 5 Diamond.a s') = Ok (VNum 9).
Proof.
  destruct (seed_then_read 10 5 Diamond.a (VNum 9) (Diamond.wired (counting 3)))
    as (s' & Hw & _ & _ & _ & _ & _ & _ & Hc & _ & Hr).
  - apply instrumented_diamond.
  - vm_compute. lia.
  - vm_compute. lia.
  - left. reflexivity.
  - exists s'. split; [exact Hw|]. split; [exact Hc|]. split; [|by rewrite Hr].
    assert (Hs' : s' = snd (seed 10 Diamond.a (VNum 9) (Diamond.wired (counting 3))))
      by (by rewrite Hw).
    rewrite Hs'. vm_compute. reflexivity.
Defined.

(** * Edges: recorded by reads, followed by writes *)

(** What the formula [function() { return f(z.value); }] does when [z] is up
    to date and no flush is pending. *)
Lemma run_reads_then (fuel : nat) (z : vref) (f : value -> value) (t : value)
    (s : State) :
  no_flush s -> stale s z = false ->
  run (S (S fuel)) (reads_then z f t) s
    = (Ok (f (_value (var s z))), updateDependencies z s).
Proof.
  intros Hq Hz. unfold reads_then.
  change (run (S (S fuel)) (GetValue z (fun v => Ret (f v))) s)
    with ((v <- get_value (run (S fuel)) z ;; run (S fuel) (Ret (f v))) s).
  unfold bind. by rewrite (get_value_fresh _ z s Hq Hz).
Qed.

(** The state in which such a read ends. *)
Lemma read_reads_then (fuel : nat) (y z : vref) (f : value -> value) (s : State) :
  no_flush s ->
  y <> z ->
  stale s y = true ->
  stale s z = false ->
  _formula (var s y) = Some (reads_then z f) ->
  read (S (S fuel)) y s =
    (Ok (f (_value (var s z))),
     leaving y (f (_value (var s z))) (updateDependencies z (entering y s))).
Proof.
  intros Hq Hne Hy Hzf Hf.
  assert (Hze : stale (entering y s) z = false)
    by (unfold stale; by rewrite var_entering_ne).
  assert (Hzv : _value (var (entering y s) z) = _value (var s z))
    by (by rewrite var_entering_ne).
  pose proof (run_reads_then fuel z f (_thisFormula (var s y)) (entering y s)
                (no_flush_entering y s Hq) Hze) as Hrun.
  rewrite Hzv in Hrun.
  by destruct (read_recomputes_to (S (S fuel)) y s _ _ _ Hq Hy Hf Hrun) as [Hr _].
Qed.

(** A read that recomputes [y = f(z.value)] against an up-to-date [z]. *)
Lemma recompute_reads_then (fuel : nat) (y z : vref) (f : value -> value)
    (s : State) :
  no_flush s ->
  y <> z ->
  (z < length (heap s))%nat ->
  stale s y = true ->
  stale s z = false ->
  _formula (var s y) = Some (reads_then z f) ->
  exists s',
    read (S (S fuel)) y s = (Ok (f (_value (var s z))), s') /\
    _value (var s' y) = f (_value (var s z)) /\
    tick (var s' y) = tick (var s y) + 1 /\
    stale s' y = false /\
    live_edge s' z y /\
    demandingVariables (system s') = demandingVariables (system s) /\
    same_but_dependents (var s z) (var s' z) /\
    (forall w, w <> y -> w <> z -> var s' w = var s w).
Proof.
  intros Hq Hne Hz Hy Hzf Hf.
  pose proof (stale_in_range s y Hy) as Hylt.
  assert (Hze : stale (entering y s) z = false)
    by (unfold stale; by rewrite var_entering_ne).
  assert (Hzv : _value (var (entering y s) z) = _value (var s z))
    by (by rewrite var_entering_ne).
  pose proof (run_reads_then fuel z f (_thisFormula (var s y)) (entering y s)
                (no_flush_entering y s Hq) Hze) as Hrun.
  rewrite Hzv in Hrun.
  destruct (read_recomputes_to (S (S fuel)) y s _ _ _ Hq Hy Hf Hrun) as [Hr Hlt1].
  set (s1 := updateDependencies z (entering y s)) in *.
  assert (Hy1 : var s1 y = var (entering y s) y)
    by (apply var_updateDependencies_ne; congruence).
  assert (Hty : tick (var s1 y) = tick (var s y)).
  { rewrite Hy1, var_entering by done. simpl.
    by destruct (var_updateDependencies y s y) as (_ & _ & _ & _ & -> & _). }
  eexists. split; [exact Hr|].
  rewrite !var_leaving. rewrite decide_True by done. simpl.
  split; [reflexivity|]. split; [by rewrite Hty|].
  split; [|split; [|split; [|split]]].
  - unfold stale. rewrite var_leaving, decide_True by done. simpl.
    rewrite Hy1. by apply entering_clears.
  - destruct (updateDependencies_edge z y (demandingVariables (system s))
                (entering y s)) as (dep & Hin & Hdv & Hdt).
    { unfold entering; simpl. by rewrite system_updateDependencies. }
    { by rewrite length_heap_entering. }
    exists dep. fold s1 in Hin.
    rewrite var_leaving, decide_False by tauto.
    split; [exact Hin|]. split; [exact Hdv|].
    unfold outOfDate. rewrite Hdv, Hdt.
    rewrite var_leaving, decide_True by done. simpl.
    rewrite Hty. replace (tick (var (entering y s) y)) with (tick (var s y)).
    + apply Z.ltb_irrefl.
    + rewrite <- Hty. by rewrite Hy1.
  - unfold leaving; simpl. unfold s1. rewrite system_updateDependencies.
    unfold entering; simpl. by rewrite system_updateDependencies.
  - rewrite decide_False by tauto.
    destruct (var_updateDependencies z (entering y s) z) as (A1 & A2 & A3 & A4 & A5 & A6).
    fold s1 in A1, A2, A3, A4, A5, A6.
    rewrite var_entering_ne in A1, A2, A3, A4, A5, A6 by done.
    by repeat split.
  - intros w Hwy Hwz. rewrite var_leaving, decide_False by (intros [? _]; congruence).
    unfold s1. rewrite var_updateDependencies_ne by congruence.
    apply var_entering_ne. congruence.
Qed.

(** Recomputing [y = f(z.value)] against an up-to-date [z]: the read returns
    [f] of the value stored in [z], stores it in [y], advances the generation
    of [y] by one and leaves [y] up to date; [z] then holds an edge to [y]
    that a later mark pass will follow.  The demand stack is as before, [z]
    keeps every field but its edge list, and no Variable other than [y] and
    [z] is touched. *)
Theorem read_records_dependency (fuel : nat) (y z : vref) (f : value -> value)
    (s : State) :
  no_flush s ->
  y <> z ->
  (z < length (heap s))%nat ->
  stale s y = true ->
  stale s z = false ->
  _formula (var s y) = Some (reads_then z f) ->
  exists s',
    read (S (S fuel)) y s = (Ok (f (_value (var s z))), s') /\
    _value (var s' y) = f (_value (var s z)) /\
    tick (var s' y) = tick (var s y) + 1 /\
    stale s' y = false /\
    live_edge s' z y /\
    demandingVariables (system s') = demandingVariables (system s) /\
    same_but_dependents (var s z) (var s' z) /\
    (forall w, w <> y -> w <> z -> var s' w = var s w).
Proof. apply recompute_reads_then. Qed.

(** [y = f(z.value)] read at [Scenario1.start]: the first read of [y]
    returns [10 * 0] and records the edge from [x] to [y]. *)
Lemma read_records_dependency_witness :
  exists s',
    read 2 Scenario1.y Scenario1.start = (Ok (VNum 0), s') /\
    live_edge s' Scenario1.x Scenario1.y.
Proof.
  destruct (read_records_dependency 0 Scenario1.y Scenario1.x times10 Scenario1.start)
    as (s' & Hr & _ & _ & _ & He & _).
  - left. reflexivity.
  - discriminate.
  - vm_compute. lia.
  - reflexivity.
  - reflexivity.
  - reflexivity.
  - exists s'. split; [exact Hr | exact He].
Defined.

(** A write to an up-to-date [z] marks the Variable behind a followed edge. *)
Lemma write_marks_dependent (fuel : nat) (y z : vref) (v : value) (s : State) :
  instrumented s ->
  (nfresh s + 3 <= fuel)%nat ->
  y <> z ->
  stale s z = false ->
  live_edge s z y ->
  (y < length (heap s))%nat ->
  exists s1,
    write fuel z v s = (Ok tt, s1) /\
    system s1 = system s /\
    length (heap s1) = length (heap s) /\
    stale s1 y = true /\
    stale s1 z = false /\
    _value (var s1 z) = v /\
    _formula (var s1 y) = _formula (var s y) /\
    tick (var s1 y) = tick (var s y).
Proof.
  intros Hi Hfuel Hne Hzf Hedge Hy.
  pose proof (live_edge_in_range s z y Hedge) as Hz.
  destruct (write_instrumented fuel z v s Hi Hfuel) as (s0 & Hw & Hp & Hc & Hroot).
  set (s1 := upd_var z (set__outOfDate false) s0) in *.
  assert (Hwy : var (written z v s) y = var s y)
    by (rewrite var_written, decide_False by (intros [? _]; congruence); reflexivity).
  assert (Hlen0 : length (heap s0) = length (heap s))
    by (by rewrite (pass_length _ _ Hp), length_heap_written).
  assert (Hy0 : stale s0 y = true).
  { apply (reaches_stale (written z v s) s0 z y Hp Hc).
    - intros _. by apply Hroot.
    - apply (reaches_same_graph s).
      + intros w. rewrite var_written. by case_decide as E; [destruct E as [-> _]|].
      + apply (reaches_step s z z y); [apply reaches_root | exact Hzf | exact Hedge].
    - by rewrite length_heap_written. }
  assert (Hy1 : var s1 y = var s0 y) by (apply var_upd_var_ne; congruence).
  assert (Hz1 : var s1 z = set__outOfDate false (var s0 z))
    by (apply var_upd_var_eq; lia).
  destruct (pass_fields _ _ Hp y) as (_ & Fy & _ & _ & Ty).
  destruct (pass_fields _ _ Hp z) as (Vz & _).
  rewrite Hwy in Fy, Ty.
  rewrite var_written, decide_True in Vz by done. simpl in Vz.
  exists s1. split; [exact Hw|].
  split; [unfold s1; by rewrite system_upd_var, (pass_system _ _ Hp)|].
  split; [unfold s1; by rewrite length_heap_upd_var|].
  split; [unfold stale; by rewrite Hy1|].
  split; [unfold stale; by rewrite Hz1|].
  split; [by rewrite Hz1|]. by rewrite Hy1.
Qed.

(** Propagation.  Let [y = f(z.value)] hold an edge from an up-to-date [z],
    over counting daemons and with no flush pending (nothing queued, or a
    flush in progress).  A write of [v] to [z] returns and leaves [y] out of
    date; the next read of [y] recomputes: it returns [f v], advances the
    generation of [y] by one, leaves [y] up to date and the edge in place. *)
Theorem write_reaches_dependent (fuel fuel' : nat) (y z : vref)
    (f : value -> value) (v : value) (s : State) :
  instrumented s ->
  (nfresh s + 3 <= fuel)%nat ->
  no_flush s ->
  y <> z ->
  stale s z = false ->
  live_edge s z y ->
  _formula (var s y) = Some (reads_then z f) ->
  exists s1 s2,
    write fuel z v s = (Ok tt, s1) /\
    stale s1 y = true /\
    read (S (S fuel')) y s1 = (Ok (f v), s2) /\
    tick (var s2 y) = tick (var s y) + 1 /\
    stale s2 y = false /\
    live_edge s2 z y.
Proof.
  intros Hi Hfuel Hq Hne Hzf Hedge Hf.
  pose proof (live_edge_in_range s z y Hedge) as Hz.
  pose proof (formula_in_range s y _ Hf) as Hy.
  destruct (write_marks_dependent fuel y z v s Hi Hfuel Hne Hzf Hedge Hy)
    as (s1 & Hw & Hsys & Hlen & Hy1 & Hz1 & Vz & Fy & Ty).
  destruct (recompute_reads_then fuel' y z f s1)
    as (s2 & Hr & _ & Ht & Hs & He & _); try done.
  - unfold no_flush. by rewrite Hsys.
  - lia.
  - by rewrite Fy.
  - exists s1, s2. split; [exact Hw|]. split; [exact Hy1|].
    rewrite Vz in Hr. split; [exact Hr|]. split; [by rewrite Ht, Ty|].
    split; [exact Hs | exact He].
Qed.

Lemma instrumented_propagation : instrumented Propagation.wired.
Proof. intros y. destruct y as [|[|y]]; vm_compute; auto. Qed.

(** The repository's second test: after [y.value], [x.value = 1] then
    [y.value] is 10. *)
Lemma write_reaches_dependent_witness :
  exists s1 s2,
    write 5 Propagation.x (VNum 1) Propagation.wired = (Ok tt, s1) /\
    read 2 Propagation.y s1 = (Ok (VNum 10), s2).
Proof.
  destruct (write_reaches_dependent 5 0 Propagation.y Propagation.x times10 (VNum 1)
             Propagation.wired)
    as (s1 & s2 & Hw & _ & Hr & _).
  - apply instrumented_propagation.
  - vm_compute. lia.
  - left. reflexivity.
  - discriminate.
  - reflexivity.
  - exists {| oid := 0%nat; dep_variable := 1%nat; dep_tick := 1 |}.
    split; [vm_compute; apply list_elem_of_here | split; reflexivity].
  - reflexivity.
  - exists s1, s2. split; [exact Hw | exact Hr].
Defined.

(** * Failed formulas, rebinding and copies *)

(** A formula that throws is not retried.  With no flush pending, the failed
    read of an out-of-date [x] throws what the formula threw, in the state
    the formula left.  If [x] is still flagged up to date in that state (the
    flag was cleared before the call) and no flush is pending there, the next
    read of [x] returns the stored value without calling the formula, leaves
    the generation alone and records the Variable on top of the demand stack
    as a dependent of [x].  For the formula [function() { throw w; }] all this
    holds: the state left is the one the formula was entered in, with the
    value and generation of [x] as before the read and [x] on top of the
    demand stack, so that [x] becomes a dependent of itself. *)
Theorem thrown_formula_not_retried (fuel fuel' : nat) (x : vref)
    (f : value -> Prog) (e : exn) (s s1 : State) :
  no_flush s ->
  stale s x = true ->
  _formula (var s x) = Some f ->
  run fuel (f (_thisFormula (var s x))) (entering x s) = (Threw e, s1) ->
  read fuel x s = (Threw e, s1) /\
  (no_flush s1 -> stale s1 x = false ->
   read fuel' x s1 = (Ok (_value (var s1 x)), updateDependencies x s1) /\
   tick (var (updateDependencies x s1) x) = tick (var s1 x) /\
   stale (updateDependencies x s1) x = false /\
   exists top rest dep,
     demandingVariables (system s1) = top :: rest /\
     dep ∈ _dependents (var (updateDependencies x s1) x) /\
     dep_variable dep = top) /\
  (forall w, f = (fun _ => Throw w) ->
   e = Thrown w /\ s1 = entering x s /\ no_flush s1 /\ stale s1 x = false /\
   _value (var s1 x) = _value (var s x) /\ tick (var s1 x) = tick (var s x) /\
   (x < length (heap s1))%nat /\
   demandingVariables (system s1) = x :: demandingVariables (system s)).
Proof.
  intros Hq Hx Hf Hrun.
  pose proof (stale_in_range s x Hx) as Hlt.
  split; [|split].
  - unfold read. rewrite (get_value_stale _ x s _ Hq Hx Hf). by apply bind_Threw.
  - intros Hq1 Hx1.
    split; [exact (read_fresh fuel' x s1 Hq1 Hx1)|].
    destruct (var_updateDependencies x s1 x) as (_ & _ & _ & _ & Ht & Hs).
    split; [exact Ht|]. split; [unfold stale in *; by rewrite Hs|].
    assert (Hlt1 : (x < length (heap s1))%nat).
    { pose proof (heap_grows_run fuel (f (_thisFormula (var s x))) (entering x s)) as H.
      rewrite Hrun in H. unfold heap_grows in H.
      rewrite length_heap_entering in H. simpl in H. lia. }
    pose proof (stack_extends_run fuel (f (_thisFormula (var s x))) (entering x s))
      as [extra Hext].
    rewrite Hrun in Hext; simpl in Hext.
    destruct (extra ++ x :: demandingVariables (system (updateDependencies x s)))
      as [|top rest] eqn:E; [by destruct extra|].
    destruct (updateDependencies_edge x top rest s1 Hext Hlt1) as (dep & Hin & Hdv & _).
    by exists top, rest, dep.
  - intros w ->.
    destruct fuel as [|fuel]; [discriminate|].
    injection Hrun as <- <-.
    destruct (entering_clears x s Hlt) as [Hc Hv].
    split; [done|]. split; [done|]. split; [by apply no_flush_entering|].
    split; [exact Hc|]. split; [exact Hv|]. split; [|split].
    + rewrite var_entering by done. simpl.
      by destruct (var_updateDependencies x s x) as (_ & _ & _ & _ & -> & _).
    + by rewrite length_heap_entering.
    + unfold entering; simpl. by rewrite system_updateDependencies.
Qed.

(** [x.value] twice where the formula of [x] is [function() { throw 42; }]:
    the first read throws 42, the second returns the initial [null] and
    records [x] as a dependent of [x]. *)
Lemma thrown_formula_not_retried_witness :
  read 10 ThrowingFormula.x ThrowingFormula.start
    = (Threw (Thrown (VNum 42)), ThrowingFormula.after_failed_read) /\
  read 10 ThrowingFormula.x ThrowingFormula.after_failed_read
    = (Ok VNull,
       updateDependencies ThrowingFormula.x ThrowingFormula.after_failed_read) /\
  fmap dep_variable
    (_dependents (var (updateDependencies ThrowingFormula.x
                         ThrowingFormula.after_failed_read) ThrowingFormula.x))
    = [ThrowingFormula.x].
Proof.
  destruct (thrown_formula_not_retried 10 10 ThrowingFormula.x
              (fun _ => Throw (VNum 42)) (Thrown (VNum 42))
              ThrowingFormula.start ThrowingFormula.after_failed_read)
    as (H1 & H2 & _).
  - left. reflexivity.
  - reflexivity.
  - reflexivity.
  - reflexivity.
  - split; [exact H1|].
    destruct H2 as (H2 & _); [left; reflexivity | reflexivity |].
    split; [exact H2 | reflexivity].
Defined.

(** Rebinding the context and replacing the formula.  Over counting daemons
    and with no flush pending (nothing queued, or a flush in progress), after
    [x.thisFormula = t] on an allocated [x] the assignment
    [x.formula = function() { return h(this); }] returns, keeps the daemon and
    fires it once exactly when [x] was up to date and has one; the next read
    invokes the new formula on the new context: it returns [h t], advances the
    generation by one and leaves [x] up to date. *)
Theorem rebind_replace_read (fuel fuel' : nat) (x : vref) (t : value)
    (h : value -> value) (s : State) :
  instrumented s ->
  (nfresh s + 3 <= fuel)%nat ->
  (x < length (heap s))%nat ->
  no_flush s ->
  exists s1 s2,
    replace_formula fuel x (of_context h) (snd (set_thisFormula x t s)) = (Ok tt, s1) /\
    _outOfDateDaemon (var s1 x) = _outOfDateDaemon (var s x) /\
    counter s1 x = counter s x +
      (if negb (stale s x) && non_null (_outOfDateDaemon (var s x)) then 1 else 0) /\
    read (S fuel') x s1 = (Ok (h t), s2) /\
    tick (var s2 x) = tick (var s x) + 1 /\
    stale s2 x = false.
Proof.
  intros Hi Hfuel Hlt Hq.
  set (s0 := upd_var x (set__formula (Some (of_context h)))
               (upd_var x (set__thisFormula t) s)).
  assert (Hv0 : var s0 x = set__formula (Some (of_context h))
                             (set__thisFormula t (var s x))).
  { unfold s0. rewrite var_upd_var_eq by (by rewrite length_heap_upd_var).
    by rewrite var_upd_var_eq. }
  assert (Hi0 : instrumented s0).
  { intros y. destruct (decide (x = y)) as [<-|Hxy].
    - rewrite Hv0. simpl. apply Hi.
    - unfold s0. rewrite !var_upd_var_ne by done. apply Hi. }
  assert (Hlt0 : (x < length (heap s0))%nat)
    by (unfold s0; by rewrite !length_heap_upd_var).
  destruct (mark_instrumented fuel x s0 Hi0) as (s1 & Hm & Hp & _ & Hx1).
  { unfold s0. by rewrite !nfresh_upd_var_same. }
  specialize (Hx1 Hlt0).
  destruct (pass_fields _ _ Hp x) as (F1 & F2 & F3 & F4 & F5).
  rewrite Hv0 in F1, F2, F3, F4, F5. simpl in F1, F2, F3, F4, F5.
  assert (Hq1 : no_flush s1) by (unfold no_flush; by rewrite (pass_system _ _ Hp)).
  destruct (read_recomputes_to (S fuel') x s1 (entering x s1) (of_context h) (h t)
              Hq1 Hx1 F2) as (Hread & Hlt').
  { by rewrite F3. }
  exists s1, (leaving x (h t) (entering x s1)).
  split; [|split; [exact F4|split; [|split; [exact Hread|]]]].
  - unfold replace_formula, set_formula, set_thisFormula, mark_top, bind, modify, ret.
    simpl. fold s0. by rewrite Hm.
  - rewrite (pass_counter _ _ Hp x). unfold s0 at 1. rewrite !counter_upd_var.
    f_equal. unfold fires. rewrite Hx1, andb_true_r.
    unfold stale. by rewrite Hv0.
  - unfold stale. rewrite var_leaving, decide_True by done.
    rewrite var_entering by (by rewrite (pass_length _ _ Hp)). simpl.
    destruct (var_updateDependencies x s1 x) as (_ & _ & _ & _ & Ht & _).
    by rewrite Ht, F5.
Qed.

(** In the diamond: [a.thisFormula = 4; a.formula = function() { return
    this + 1; }; a.value] fires the daemon of [a] once and reads 5. *)
Lemma rebind_replace_read_witness :
  exists s1 s2,
    replace_formula 10 Diamond.a (of_context (plus 1))
      (snd (set_thisFormula Diamond.a (VNum 4) (Diamond.wired (counting 3))))
      = (Ok tt, s1) /\
    counter s1 Diamond.a = 1 /\
    read 1 Diamond.a s1 = (Ok (VNum 5), s2).
Proof.
  destruct (rebind_replace_read 10 0 Diamond.a (VNum 4) (plus 1)
              (Diamond.wired (counting 3)))
    as (s1 & s2 & Hf & _ & Hc & Hr & _).
  - apply instrumented_diamond.
  - vm_compute. lia.
  - vm_compute. lia.
  - left. reflexivity.
  - exists s1, s2. split; [exact Hf|]. split; [exact Hc | exact Hr].
Defined.

(** A write to a Variable that nothing depends on calls no user code: with one
    unit of fuel it returns, and changes nothing but that Variable. *)
Lemma write_leaf (fuel : nat) (x : vref) (v : value) (s : State) :
  _dependents (var s x) = [] ->
  exists s2,
    write (S fuel) x v s = (Ok tt, s2) /\
    system s2 = system s /\ captured s2 = captured s /\
    (forall y, y <> x -> var s2 y = var s y) /\
    var s2 x = set__outOfDate false (var (written x v s) x).
Proof.
  intros Hd.
  assert (Hdm : _outOfDateDaemon (var (written x v s) x) = None)
    by apply daemon_written.
  assert (Hd' : _dependents (var (written x v s) x) = [])
    by (rewrite var_written; case_decide; by simpl).
  assert (Hne : forall y, y <> x -> var (written x v s) y = var s y).
  { intros y Hy. rewrite var_written, decide_False; [done|].
    intros [? _]; congruence. }
  set (w := written x v s) in *.
  assert (Hw1 : forall b, _outOfDateDaemon (var (upd_var x (set__outOfDate b) w) x) = None).
  { intros b. rewrite var_upd_var. by case_decide. }
  assert (Hw2 : forall b, _dependents (var (upd_var x (set__outOfDate b) w) x) = []).
  { intros b. rewrite var_upd_var. by case_decide. }
  unfold write, set_value, mark_top. unfold bind at 1 2 3 4, modify at 1 2 3; simpl.
  fold (written x v s). fold w.
  unfold mark_body. unfold bind at 1 2, gets at 1; simpl.
  destruct (_outOfDate (var w x)) eqn:Hs; simpl.
  - unfold bind, ret, modify; simpl. eexists. split; [reflexivity|].
    split; [reflexivity|]. split; [reflexivity|]. split.
    + intros y Hy. rewrite var_upd_var_ne by congruence. by apply Hne.
    + rewrite var_upd_var. case_decide as E; [reflexivity|].
      exfalso. apply E. split; [done | by apply stale_in_range].
  - unfold bind at 1, modify at 1; simpl.
    unfold executeOutOfDateDaemon. unfold bind at 1 2, gets at 1; simpl.
    rewrite Hw1. unfold ret at 1. unfold bind at 1, gets at 1; simpl.
    rewrite Hw2; simpl. unfold bind, ret, forEach_removals, modify; simpl.
    eexists. split; [reflexivity|].
    split; [reflexivity|]. split; [reflexivity|]. split.
    + intros y Hy. rewrite !var_upd_var_ne by congruence. by apply Hne.
    + rewrite !var_upd_var, !length_heap_upd_var.
      case_decide as E; [reflexivity|].
      destruct (var w x); simpl in *. by subst.
Qed.

(** [copy()] gives an independent object.  It allocates one new Variable and
    touches nothing else.  The copy takes the value and the formula of the
    original, and context and daemon only when there is a formula; it starts
    at generation 0 with no dependents, and out of date exactly when it has a
    formula, whatever the flag of the original.  A write to the copy then
    returns with one unit of fuel and changes neither the system state, nor
    the captured variables, nor any other Variable. *)
Theorem copy_is_independent (fuel : nat) (x : vref) (v : value) (s : State) :
  exists s1 s2,
    copy x s = (Ok (length (heap s)), s1) /\
    system s1 = system s /\
    (forall y, y <> length (heap s) -> var s1 y = var s y) /\
    var s1 (length (heap s)) =
      Variable_new (_value (var s x)) (_formula (var s x))
        (if non_null (_formula (var s x)) then _thisFormula (var s x) else VNull)
        (if non_null (_formula (var s x)) then _outOfDateDaemon (var s x) else None) /\
    write (S fuel) (length (heap s)) v s1 = (Ok tt, s2) /\
    system s2 = system s /\
    captured s2 = captured s /\
    (forall y, y <> length (heap s) -> var s2 y = var s y) /\
    _value (var s2 (length (heap s))) = v.
Proof.
  set (c := length (heap s)).
  set (new := Variable_new (_value (var s x)) (_formula (var s x))
        (if non_null (_formula (var s x)) then _thisFormula (var s x) else VNull)
        (if non_null (_formula (var s x)) then _outOfDateDaemon (var s x) else None)).
  set (s1 := snd (alloc new s)).
  assert (Hcopy : copy x s = (Ok c, s1)).
  { unfold copy, bind, gets, s1, new. destruct (_formula (var s x)); reflexivity. }
  assert (Hc : var s1 c = new).
  { unfold s1. rewrite var_alloc. by rewrite decide_True. }
  assert (Hne : forall y, y <> c -> var s1 y = var s y).
  { intros y Hy. unfold s1. rewrite var_alloc. by rewrite decide_False. }
  assert (Hlt : (c < length (heap s1))%nat).
  { unfold s1; simpl. rewrite length_app; simpl. unfold c. lia. }
  destruct (write_leaf fuel c v s1) as (s2 & Hw & Hsys & Hcap & Hoth & Hself).
  { by rewrite Hc. }
  exists s1, s2. split; [exact Hcopy|]. split; [reflexivity|].
  split; [exact Hne|]. split; [exact Hc|]. split; [exact Hw|].
  split; [exact Hsys|]. split; [exact Hcap|]. split.
  - intros y Hy. rewrite Hoth by done. by apply Hne.
  - rewrite Hself, var_written, decide_True by done. reflexivity.
Qed.

(** * The mark pass, exactly *)

Lemma indexOf_middle (pre l : list Dependency) (a : Dependency) :
  oid a ∉ (oid <$> pre) ->
  indexOf a (pre ++ a :: l) = Z.of_nat (length pre).
Proof.
  intros Hpre. unfold indexOf.
  destruct (list_find _ _) as [[i d]|] eqn:E.
  - apply list_find_Some in E as (Hi & Hd & Hmin). f_equal.
    destruct (Nat.lt_trichotomy i (length pre)) as [Hlt|[->|Hgt]]; [|done|].
    + exfalso. apply Hpre. rewrite lookup_app_l in Hi by done.
      rewrite <- Hd. apply list_elem_of_fmap. exists d.
      split; [done | by eapply list_elem_of_lookup_2].
    + exfalso. apply (Hmin (length pre) a); [|done|done].
      by rewrite list_lookup_middle.
  - apply list_find_None in E. rewrite Forall_forall in E.
    exfalso. apply (E a); [|done]. apply elem_of_app. right. apply list_elem_of_here.
Qed.

Lemma splice1_middle (pre l : list Dependency) (a : Dependency) :
  splice1 (Z.of_nat (length pre)) (pre ++ a :: l) = pre ++ l.
Proof.
  unfold splice1. rewrite length_app; simpl.
  replace (Z.of_nat (length pre) <? 0) with false by (symmetry; apply Z.ltb_ge; lia).
  rewrite Z.min_l by lia. rewrite Nat2Z.id. apply delete_middle.
Qed.

(** Splicing out the edges selected by [P], found by identity, leaves the
    others in their order. *)
Lemma splice_all_filter (P : Dependency -> Prop) `{!forall d, Decision (P d)}
    (pre l : list Dependency) :
  NoDup (oid <$> (pre ++ l)) ->
  splice_all (pre ++ l) (filter P l) = pre ++ filter (fun d => ~ P d) l.
Proof.
  revert pre. induction l as [|a l IH]; intros pre Hnd.
  - reflexivity.
  - destruct (decide (P a)) as [Ha|Ha].
    + rewrite filter_cons_True by done. rewrite (filter_cons_False (fun d => ~ P d)) by tauto.
      unfold splice_all; simpl. rewrite indexOf_middle, splice1_middle.
      * apply IH. rewrite fmap_app in *. simpl in Hnd.
        apply NoDup_app in Hnd as (H1 & H2 & H3). apply NoDup_cons in H3 as [_ H3].
        apply NoDup_app. split; [done|]. split; [|done].
        intros z Hz Hz'. apply (H2 z Hz). by right.
      * rewrite fmap_app in Hnd. simpl in Hnd.
        apply NoDup_app in Hnd as (_ & H2 & _). intros Hin.
        apply (H2 _ Hin). apply list_elem_of_here.
    + rewrite filter_cons_False by done. rewrite (filter_cons_True (fun d => ~ P d)) by done.
      replace (pre ++ a :: l) with ((pre ++ [a]) ++ l) in * by (by rewrite <- app_assoc).
      rewrite (IH (pre ++ [a]) Hnd). by rewrite <- app_assoc.
Qed.

Lemma dependents_foldl_remove (this : vref) (removals : list Dependency) (s : State) :
  (this < length (heap s))%nat ->
  _dependents (var (foldl (fun s0 d => remove_dependent this d s0) s removals) this)
    = splice_all (_dependents (var s this)) removals.
Proof.
  revert s. induction removals as [|d r IH]; intros s Hlt; [reflexivity|].
  simpl. rewrite IH by (unfold remove_dependent; by rewrite length_heap_upd_var).
  unfold remove_dependent. by rewrite var_upd_var_eq.
Qed.

Lemma reaches_trans (s : State) (a b c : vref) :
  reaches s a b -> reaches s b c -> reaches s a c.
Proof.
  intros Hab Hbc. induction Hbc as [|y z Hy IH Hfresh Hedge]; [exact Hab|].
  by apply (reaches_step s a y z).
Qed.

(** A pass only removes followed edges: what is reachable afterwards was
    reachable before. *)
Lemma reaches_before_pass (s s1 : State) (r z : vref) :
  pass s s1 -> reaches s1 r z -> reaches s r z.
Proof.
  intros Hp. induction 1 as [|y z Hy IH Hfresh Hedge]; [apply reaches_root|].
  pose proof (pass_fresh _ _ Hp y Hfresh) as Hv.
  apply (reaches_step s r y z); [exact IH | |].
  - unfold stale in *. by rewrite <- Hv.
  - destruct Hedge as (dep & Hin & Hz & Hlive). exists dep.
    rewrite <- Hv. split; [done|]. split; [done|].
    by rewrite <- (pass_outOfDate _ _ _ Hp).
Qed.

Lemma current_edges_pass (s s1 : State) (z : vref) :
  pass s s1 -> stale s1 z = false -> current_edges s1 z = current_edges s z.
Proof.
  intros Hp Hz. unfold current_edges. rewrite (pass_fresh _ _ Hp z Hz).
  apply list_filter_iff. intros d. by rewrite (pass_outOfDate _ _ _ Hp).
Qed.

Lemma pruned_trans (s s1 s' : State) :
  pass s s1 -> pass s1 s' ->
  (forall z, stale s z = false -> stale s1 z = true ->
             _dependents (var s1 z) = current_edges s z) ->
  (forall z, stale s1 z = false -> stale s' z = true ->
             _dependents (var s' z) = current_edges s1 z) ->
  forall z, stale s z = false -> stale s' z = true ->
            _dependents (var s' z) = current_edges s z.
Proof.
  intros Hp1 Hp2 H1 H2 z Hz Hz'. destruct (stale s1 z) eqn:Hz1.
  - rewrite (pass_stale _ _ Hp2 z Hz1). by apply H1.
  - rewrite (H2 z Hz1 Hz'). by apply current_edges_pass.
Qed.

Section ExactLoop.

Variable bound : State -> Prop.
Variable mark_rec : vref -> list vref -> M (list vref).
Hypothesis bound_pass : forall s s', pass s s' -> bound s -> bound s'.
Hypothesis mark_rec_meets : mark_meets bound mark_rec.
Hypothesis mark_rec_exact : forall s x marked s',
  instrumented s -> (forall y, y ∈ marked -> stale s y = true) -> bound s ->
  (forall z, stale s z = false -> NoDup (oid <$> _dependents (var s z))) ->
  mark_rec x marked s = (Ok marked, s') -> exact_pass x s s'.

Lemma forEach_dependents_exact (n k : nat) (this : vref) (marked : list vref)
    (removals removals' : list Dependency) (s s' : State) :
  instrumented s ->
  (forall y, y ∈ marked -> stale s y = true) ->
  stale s this = true ->
  bound s ->
  (forall z, stale s z = false -> NoDup (oid <$> _dependents (var s z))) ->
  forEach_dependents mark_rec n k this marked removals s
    = (Ok (marked, removals'), s') ->
  removals' = removals ++
    filter (fun d => outOfDate d s = true)
           (take n (drop k (_dependents (var s this)))) /\
  (forall z, stale s z = false -> stale s' z = true ->
     exists dep, dep ∈ _dependents (var s this) /\ outOfDate dep s = false /\
                 reaches s (dep_variable dep) z) /\
  (forall z, stale s z = false -> stale s' z = true ->
     _dependents (var s' z) = current_edges s z).
Proof.
  revert k removals s. induction n as [|n IH]; intros k removals s Hi Hm Hthis Hb Hnd Heq.
  - simpl in Heq. injection Heq as <- <-. rewrite app_nil_r.
    split; [reflexivity|]. split; intros z H1 H2; congruence.
  - simpl in Heq. unfold bind at 1, gets at 1 in Heq.
    destruct (_dependents (var s this) !! k) as [dep|] eqn:Hk.
    + rewrite (drop_S _ _ _ Hk). simpl.
      unfold bind at 1, gets at 1 in Heq.
      destruct (outOfDate dep s) eqn:Hold.
      * destruct (IH (S k) (removals ++ [dep]) s Hi Hm Hthis Hb Hnd Heq)
          as (Hr & He & Hpr).
        rewrite filter_cons_True by done.
        split; [by rewrite Hr, <- app_assoc|]. by split.
      * destruct (mark_rec_meets s (dep_variable dep) marked Hi Hm Hb)
          as (s1 & Hmark & Hp1 & _ & _).
        rewrite (bind_Ok _ _ _ _ _ Hmark) in Heq.
        destruct (mark_rec_exact s (dep_variable dep) marked s1 Hi Hm Hb Hnd Hmark)
          as [Hex1 Hpr1].
        assert (Hthis1 : var s1 this = var s this) by (by apply (pass_stale _ _ Hp1)).
        assert (Hnd1 : forall z, stale s1 z = false ->
                                 NoDup (oid <$> _dependents (var s1 z))).
        { intros z Hz. rewrite (pass_fresh _ _ Hp1 z Hz). apply Hnd.
          unfold stale in *. by rewrite <- (pass_fresh _ _ Hp1 z Hz). }
        destruct (forEach_dependents_spec bound mark_rec bound_pass mark_rec_meets
                    n (S k) this marked removals s1) as (r2 & s2 & Hloop & Hp2 & _).
        { by apply (pass_instrumented s). }
        { intros y Hy. apply (pass_stale_mono _ _ _ Hp1). by apply Hm. }
        { by apply (pass_stale_mono _ _ _ Hp1). }
        { by apply (bound_pass s). }
        assert (s2 = s') by congruence. subst s2.
        destruct (IH (S k) removals s1) as (Hr & He & Hpr); try done.
        { by apply (pass_instrumented s). }
        { intros y Hy. apply (pass_stale_mono _ _ _ Hp1). by apply Hm. }
        { by apply (pass_stale_mono _ _ _ Hp1). }
        { by apply (bound_pass s). }
        rewrite filter_cons_False by congruence.
        split; [|split].
        -- rewrite Hr, Hthis1. f_equal. apply list_filter_iff.
           intros d. by rewrite (pass_outOfDate _ _ _ Hp1).
        -- intros z Hz Hz'. destruct (stale s1 z) eqn:Hz1.
           ++ exists dep. split; [by eapply list_elem_of_lookup_2|].
              split; [done|]. by apply Hex1.
           ++ destruct (He z Hz1 Hz') as (d & Hin & Hlive & Hreach).
              exists d. rewrite <- Hthis1. split; [done|].
              split; [by rewrite <- (pass_outOfDate _ _ _ Hp1)|].
              by apply (reaches_before_pass s s1).
        -- by apply (pruned_trans s s1 s').
    + rewrite (drop_ge _ k) by (by apply lookup_ge_None). rewrite take_nil.
      destruct (IH (S k) removals s Hi Hm Hthis Hb Hnd Heq) as (Hr & He & Hpr).
      rewrite (drop_ge _ (S k)) in Hr by (apply lookup_ge_None in Hk; lia).
      rewrite take_nil in Hr. by split.
Qed.

End ExactLoop.

Section ExactBody.

Variable bound bound' : State -> Prop.
Variable mark_rec : vref -> list vref -> M (list vref).
Hypothesis bound_pass : forall s s', pass s s' -> bound s -> bound s'.
Hypothesis bound_flagged : forall s x,
  bound' s -> (x < length (heap s))%nat -> stale s x = false ->
  bound (flagged x s).
Hypothesis mark_rec_meets : mark_meets bound mark_rec.
Hypothesis mark_rec_exact : forall s x marked s',
  instrumented s -> (forall y, y ∈ marked -> stale s y = true) -> bound s ->
  (forall z, stale s z = false -> NoDup (oid <$> _dependents (var s z))) ->
  mark_rec x marked s = (Ok marked, s') -> exact_pass x s s'.

Lemma mark_body_exact (n : nat) (s : State) (x : vref) (marked : list vref)
    (s' : State) :
  instrumented s -> (forall y, y ∈ marked -> stale s y = true) -> bound' s ->
  (forall z, stale s z = false -> NoDup (oid <$> _dependents (var s z))) ->
  mark_body (run (S (S n))) mark_rec x marked s = (Ok marked, s') ->
  exact_pass x s s'.
Proof.
  intros Hi Hm Hb Hnd Heq. unfold mark_body in Heq.
  unfold bind at 1, gets at 1 in Heq. fold (stale s x) in Heq.
  destruct (stale s x) eqn:Hx; simpl in Heq.
  { injection Heq as <-. split; intros z H1 H2; congruence. }
  assert (Hnot : bool_decide (x ∈ marked) = false).
  { apply bool_decide_eq_false. intros Hin. specialize (Hm x Hin). congruence. }
  rewrite Hnot in Heq; simpl in Heq.
  unfold bind at 1, modify at 1 in Heq.
  destruct (decide (x < length (heap s))%nat) as [Hlt|Hge].
  - pose proof (pass_flagged x s Hlt Hx) as Hp2.
    rewrite (bind_Ok _ _ _ _ _
               (executeOutOfDateDaemon_counting n x _
                  (instrumented_upd_flag x true s Hi))) in Heq.
    fold (flagged x s) in Heq. unfold bind at 1, gets at 1 in Heq.
    set (s2 := flagged x s) in *.
    assert (Hx2 : stale s2 x = true).
    { unfold stale, s2. rewrite var_flagged, decide_True by done. reflexivity. }
    assert (Hdeps : _dependents (var s2 x) = _dependents (var s x)).
    { unfold s2. rewrite var_flagged, decide_True by done. reflexivity. }
    assert (Hoth : forall z, z <> x -> var s2 z = var s z).
    { intros z Hz. unfold s2. rewrite var_flagged, decide_False; [done|].
      intros [? _]; congruence. }
    assert (Hi2 : instrumented s2) by (by apply (pass_instrumented s)).
    assert (Hm2 : forall y, y ∈ x :: marked -> stale s2 y = true).
    { intros y Hy. apply elem_of_cons in Hy as [->|Hy]; [exact Hx2|].
      apply (pass_stale_mono _ _ _ Hp2). by apply Hm. }
    assert (Hb2 : bound s2) by (by apply bound_flagged).
    assert (Hnd2 : forall z, stale s2 z = false ->
                             NoDup (oid <$> _dependents (var s2 z))).
    { intros z Hz. assert (z <> x) by congruence.
      unfold stale in Hz. rewrite Hoth in * by done. by apply Hnd. }
    destruct (forEach_dependents_spec bound mark_rec bound_pass mark_rec_meets
                (length (_dependents (var s2 x))) 0 x (x :: marked) [] s2
                Hi2 Hm2 Hx2 Hb2)
      as (removals & s3 & Hloop & Hp23 & _).
    rewrite (bind_Ok _ _ _ _ _ Hloop) in Heq. simpl in Heq.
    unfold forEach_removals, bind, modify, ret in Heq; simpl in Heq.
    injection Heq as <-.
    destruct (forEach_dependents_exact bound mark_rec bound_pass mark_rec_meets
                mark_rec_exact _ _ _ _ _ _ _ _ Hi2 Hm2 Hx2 Hb2 Hnd2 Hloop)
      as (Hr & He & Hpr).
    rewrite drop_0, take_ge in Hr by done. simpl in Hr.
    assert (Hlt3 : (x < length (heap s3))%nat).
    { rewrite (pass_length _ _ Hp23), (pass_length _ _ Hp2). exact Hlt. }
    split.
    + intros z Hz Hz'. rewrite stale_foldl_remove in Hz'.
      destruct (decide (z = x)) as [->|Hne]; [apply reaches_root|].
      destruct (He z) as (dep & Hin & Hlive & Hreach); [|done|].
      { unfold stale. by rewrite Hoth. }
      apply (reaches_trans s x (dep_variable dep) z).
      * apply (reaches_step s x x); [apply reaches_root | exact Hx |].
        exists dep. rewrite <- Hdeps. split; [done|]. split; [done|].
        by rewrite <- (pass_outOfDate _ _ _ Hp2).
      * by apply (reaches_before_pass s s2).
    + intros z Hz Hz'. rewrite stale_foldl_remove in Hz'.
      destruct (decide (z = x)) as [->|Hne].
      * rewrite dependents_foldl_remove by done.
        rewrite Hdeps in Hr. rewrite (pass_stale _ _ Hp23 x Hx2), Hdeps, Hr.
        rewrite (list_filter_iff _ (fun d => outOfDate d s = true));
          [|intros d; by rewrite (pass_outOfDate _ _ _ Hp2)].
        pose proof (splice_all_filter (fun d => outOfDate d s = true) []
                      (_dependents (var s x)) (Hnd x Hx)) as Hs.
        simpl in Hs. rewrite Hs. apply list_filter_iff. intros d.
        by destruct (outOfDate d s).
      * destruct (foldl_remove_dependent x removals s3) as (_ & _ & _ & _ & E).
        simpl in E. rewrite (E z Hne).
        assert (Hz2 : stale s2 z = false) by (unfold stale; by rewrite Hoth).
        rewrite (Hpr z Hz2 Hz'). by apply current_edges_pass.
  - rewrite upd_var_out_of_range in Heq by lia.
    assert (Hdef : var s x = Variable_new VNull None VNull None)
      by (apply var_out_of_range; lia).
    unfold executeOutOfDateDaemon, bind, gets, ret, forEach_removals, modify in Heq.
    rewrite Hdef in Heq; simpl in Heq. rewrite Hdef in Heq; simpl in Heq.
    injection Heq as <-. split; intros z H1 H2; congruence.
Qed.

End ExactBody.

Lemma mark_exact_fuel (K : nat) (s : State) (x : vref) (marked : list vref)
    (s' : State) :
  instrumented s -> (forall y, y ∈ marked -> stale s y = true) ->
  (nfresh s <= K)%nat ->
  (forall z, stale s z = false -> NoDup (oid <$> _dependents (var s z))) ->
  mark (3 + K) x marked s = (Ok marked, s') -> exact_pass x s s'.
Proof.
  revert s x marked s'. induction K as [|K IH]; intros s x marked s' Hi Hm Hb Hnd Heq.
  - apply (mark_body_exact (fun _ => False) (fun s => (nfresh s <= 0)%nat) (mark 2))
      with (n := 0%nat) (marked := marked); try done.
    + intros s0 x0 Hb0 Hlt Hx. rewrite (nfresh_flagged x0 s0 Hlt Hx) in Hb0. lia.
    + intros s0 x0 marked0 _ _ [].
  - apply (mark_body_exact (fun s => (nfresh s <= K)%nat)
             (fun s => (nfresh s <= S K)%nat) (mark (3 + K)))
      with (n := S K) (marked := marked); try done.
    + intros s0 s0' Hp Hb0. pose proof (pass_nfresh _ _ Hp). lia.
    + intros s0 x0 Hb0 Hlt Hx. rewrite (nfresh_flagged x0 s0 Hlt Hx) in Hb0. lia.
    + apply mark_meets_fuel.
Qed.

(** A mark pass over counting daemons, with what it leaves untouched. *)
Lemma mark_exact (fuel : nat) (x : vref) (s : State) :
  instrumented s ->
  (nfresh s + 3 <= fuel)%nat ->
  distinct_identities s ->
  exists s',
    mark fuel x [] s = (Ok [], s') /\
    pass s s' /\ closed_under_edges s s' /\
    ((x < length (heap s))%nat -> stale s' x = true) /\
    exact_pass x s s'.
Proof.
  intros Hi Hfuel Hnd.
  destruct (mark_instrumented fuel x s Hi Hfuel) as (s' & Hm & Hp & Hc & Hx).
  exists s'. repeat (split; [done|]).
  replace fuel with (3 + (fuel - 3))%nat in Hm by lia.
  apply (mark_exact_fuel (fuel - 3) s x [] s'); try done.
  - intros y Hy. by apply elem_of_nil in Hy.
  - lia.
Qed.

Lemma reaches_written (x : vref) (v : value) (s : State) (z : vref) :
  reaches (written x v s) x z <-> reaches s x z.
Proof.
  split; apply reaches_same_graph; intros y; rewrite var_written;
    by case_decide as E; [destruct E as [-> _]|].
Qed.

Lemma current_edges_written (x : vref) (v : value) (s : State) (z : vref) :
  current_edges (written x v s) z = current_edges s z.
Proof.
  unfold current_edges.
  assert (Hd : _dependents (var (written x v s) z) = _dependents (var s z)).
  { rewrite var_written. by case_decide as E; [destruct E as [-> _]|]. }
  rewrite Hd. apply list_filter_iff. intros d. unfold outOfDate.
  assert (Ht : tick (var (written x v s) (dep_variable d))
               = tick (var s (dep_variable d))).
  { rewrite var_written. by case_decide as E; [destruct E as [-> _]|]. }
  by rewrite Ht.
Qed.

(** The mark pass of a write, exactly.  Over counting daemons and with every
    edge an object of its own, a write to an up-to-date [root] returns and
    - leaves another allocated Variable out of date exactly when it was out
      of date before or is reachable from [root] along edges that are not out
      of date, through Variables that were not out of date;
    - leaves each Variable reachable in this way that was up to date, and
      [root] itself, with exactly its edges that were not out of date, in
      their order: the out-of-date edges are spliced out;
    - changes nothing in any other Variable that was out of date before or
      is not reachable in this way. *)
Theorem write_marks_exactly (fuel : nat) (root : vref) (v : value) (s : State) :
  instrumented s ->
  (nfresh s + 3 <= fuel)%nat ->
  distinct_identities s ->
  stale s root = false ->
  exists s',
    write fuel root v s = (Ok tt, s') /\
    (forall z, z <> root -> (z < length (heap s))%nat ->
       (stale s' z = true <-> stale s z = true \/ reaches s root z)) /\
    (forall z, stale s z = false -> reaches s root z ->
       (z < length (heap s))%nat ->
       _dependents (var s' z) = current_edges s z) /\
    (forall z, z <> root -> stale s z = true \/ ~ reaches s root z ->
       var s' z = var s z).
Proof.
  intros Hi Hfuel Hnd Hroot.
  set (w := written root v s).
  assert (Hflag : forall z, stale w z = stale s z).
  { intros z. unfold stale, w. rewrite var_written.
    by case_decide as E; [destruct E as [-> _]|]. }
  assert (Hoth : forall z, z <> root -> var w z = var s z).
  { intros z Hz. unfold w. rewrite var_written, decide_False; [done|].
    intros [? _]; congruence. }
  assert (Hlen : length (heap w) = length (heap s)) by apply length_heap_written.
  destruct (mark_exact fuel root w) as (s1 & Hm & Hp & Hc & Hx & [Hex Hpr]).
  { by apply instrumented_written. }
  { unfold w. by rewrite nfresh_written. }
  { intros z. unfold w. rewrite var_written.
    case_decide as E; [destruct E as [-> _]|]; apply Hnd. }
  rewrite Hlen in Hx.
  assert (Hmarked : forall z, reaches s root z -> (z < length (heap s))%nat ->
                              stale s1 z = true).
  { intros z Hreach Hz. apply (reaches_stale w s1 root z Hp Hc).
    - by rewrite Hlen.
    - by apply reaches_written.
    - by rewrite Hlen. }
  exists (upd_var root (set__outOfDate false) s1).
  split; [|split; [|split]].
  - unfold write, set_value, mark_top, bind, modify, ret; simpl.
    fold (written root v s). fold w. by rewrite Hm.
  - intros z Hz Hlt. unfold stale at 1. rewrite var_upd_var_ne by congruence.
    fold (stale s1 z). split.
    + intros Hz1. destruct (stale s z) eqn:Hzs; [by left|]. right.
      apply (reaches_written root v s z). apply Hex; [|done]. by rewrite Hflag.
    + intros [Hzs|Hreach].
      * apply (pass_stale_mono _ _ _ Hp). by rewrite Hflag.
      * by apply Hmarked.
  - intros z Hzs Hreach Hlt.
    assert (Hd : _dependents (var (upd_var root (set__outOfDate false) s1) z)
                 = _dependents (var s1 z)).
    { rewrite var_upd_var. by case_decide as E; [destruct E as [-> _]|]. }
    rewrite Hd, (Hpr z); [apply current_edges_written | by rewrite Hflag |].
    by apply Hmarked.
  - intros z Hz Hcase. rewrite var_upd_var_ne by congruence.
    rewrite <- (Hoth z Hz). destruct (stale s z) eqn:Hzs.
    + apply (pass_stale _ _ Hp). by rewrite Hflag.
    + destruct Hcase as [|Hno]; [done|].
      apply (pass_fresh _ _ Hp). destruct (stale s1 z) eqn:Hz1; [|done].
      exfalso. apply Hno. apply (reaches_written root v s z).
      apply Hex; [by rewrite Hflag | done].
Qed.

Lemma instrumented_pruning : instrumented Pruning.ready.
Proof. intros y. destruct y as [|[|y]]; vm_compute; auto. Qed.

Lemma distinct_identities_pruning : distinct_identities Pruning.ready.
Proof.
  intros z. destruct z as [|[|z]]; vm_compute;
    first [apply NoDup_nil_2 | apply NoDup_singleton].
Qed.

(** [z] still holds the edge to [y] that went out of date when [y] was
    recomputed without reading [z]; [z.value = 7] splices it out. *)
Lemma write_marks_exactly_witness :
  _dependents (var Pruning.ready Pruning.z) <> [] /\
  exists s',
    write 5 Pruning.z (VNum 7) Pruning.ready = (Ok tt, s') /\
    _dependents (var s' Pruning.z) = [].
Proof.
  split; [vm_compute; discriminate|].
  destruct (write_marks_exactly 5 Pruning.z (VNum 7) Pruning.ready)
    as (s' & Hw & _ & Hd & _).
  - apply instrumented_pruning.
  - vm_compute. lia.
  - apply distinct_identities_pruning.
  - reflexivity.
  - exists s'. split; [exact Hw|].
    rewrite (Hd Pruning.z); [vm_compute; reflexivity | reflexivity | apply reaches_root |].
    vm_compute. lia.
Defined.

(** * Edges are objects of their own *)

Lemma identified_same_heap (s s' : State) :
  heap s' = heap s -> next_oid s' = next_oid s -> keeps_identified s s'.
Proof.
  intros Hh Hn [H1 H2]. split.
  - intros z. unfold var. rewrite Hh. apply H1.
  - intros z d. unfold var. rewrite Hh, Hn. apply H2.
Qed.

Lemma identified_upd_var (x : vref) (f : Var -> Var) (s : State) :
  (forall v, _dependents (f v) = _dependents v) ->
  keeps_identified s (upd_var x f s).
Proof.
  intros Hf [H1 H2]. split.
  - intros z. rewrite var_upd_var. case_decide as E; [|apply H1].
    destruct E as [-> _]. rewrite Hf. apply H1.
  - intros z d. rewrite var_upd_var. case_decide as E; [|apply H2].
    destruct E as [-> _]. rewrite Hf. apply H2.
Qed.

Lemma identified_updateDependencies (x : vref) (s : State) :
  keeps_identified s (updateDependencies x s).
Proof.
  intros [H1 H2].
  destruct (demandingVariables (system s)) as [|dv rest] eqn:Hst.
  { unfold updateDependencies. rewrite Hst. by split. }
  assert (Hn : (next_oid s <= next_oid (updateDependencies x s))%nat).
  { unfold updateDependencies. rewrite Hst.
    destruct (list_find _ _) as [[i dep]|]; simpl; lia. }
  assert (Hoth : forall z, x <> z -> var (updateDependencies x s) z = var s z)
    by (intros z; apply var_updateDependencies_ne).
  destruct (decide (x < length (heap s))%nat) as [Hlt|Hge].
  - pose proof (dependents_updateDependencies x dv rest s Hst Hlt) as Hx.
    destruct (list_find _ _) as [[i dep]|] eqn:Hfind.
    + apply list_find_Some in Hfind as (Hi & _ & _).
      assert (Hoids : oid <$> _dependents (var (updateDependencies x s) x)
                      = oid <$> _dependents (var s x)).
      { rewrite Hx, list_fmap_insert. simpl. apply list_insert_id.
        by rewrite list_lookup_fmap, Hi. }
      split.
      * intros z. destruct (decide (x = z)) as [<-|Hne];
          [rewrite Hoids | rewrite Hoth by done]; apply H1.
      * intros z d Hd. apply (Nat.lt_le_trans _ (next_oid s)); [|exact Hn].
        destruct (decide (x = z)) as [<-|Hne]; [|rewrite Hoth in Hd by done; eauto].
        assert (Ho : oid d ∈ oid <$> _dependents (var s x)).
        { rewrite <- Hoids. apply list_elem_of_fmap. by exists d. }
        apply list_elem_of_fmap in Ho as (d' & -> & Hd'). eauto.
    + assert (Hn' : next_oid (updateDependencies x s) = S (next_oid s)).
      { unfold updateDependencies. rewrite Hst, Hfind. reflexivity. }
      split.
      * intros z. destruct (decide (x = z)) as [<-|Hne];
          [|rewrite Hoth by done; apply H1].
        rewrite Hx, fmap_app. apply NoDup_app. split; [apply H1|].
        split; [|apply NoDup_singleton].
        intros o Ho Ho'. apply list_elem_of_singleton in Ho'. simpl in Ho'. subst o.
        apply list_elem_of_fmap in Ho as (d & Hd & Hin).
        pose proof (H2 x d Hin). lia.
      * intros z d Hd. rewrite Hn'.
        destruct (decide (x = z)) as [<-|Hne].
        -- rewrite Hx in Hd. apply elem_of_app in Hd as [Hd|Hd].
           ++ pose proof (H2 x d Hd). lia.
           ++ apply list_elem_of_singleton in Hd. subst d. simpl. lia.
        -- rewrite Hoth in Hd by done. pose proof (H2 z d Hd). lia.
  - assert (Hsame : forall z, var (updateDependencies x s) z = var s z).
    { intros z. destruct (decide (x = z)) as [<-|Hne]; [|by apply Hoth].
      rewrite !var_out_of_range; [reflexivity | lia |].
      rewrite length_heap_updateDependencies. lia. }
    split.
    + intros z. rewrite Hsame. apply H1.
    + intros z d. rewrite Hsame. intros Hd. pose proof (H2 z d Hd). lia.
Qed.

Lemma keeps_identified_respected : respected keeps_identified.
Proof.
  split.
  - intros s H. exact H.
  - intros s1 s2 s3 H12 H23 H. apply H23, H12, H.
  - intros s x f _ Hdeps. by apply identified_upd_var.
  - intros s x. by apply identified_upd_var.
  - intros s x. apply identified_updateDependencies.
  - intros s x d [H1 H2]. unfold remove_dependent. split.
    + intros z. rewrite var_upd_var. case_decide as E; [|apply H1].
      destruct E as [-> _]. simpl. unfold splice1. rewrite list_fmap_delete.
      eapply sublist_NoDup; [apply H1 | apply sublist_delete].
    + intros z d'. rewrite var_upd_var. case_decide as E; [|apply H2].
      destruct E as [<- _]. simpl. unfold splice1. intros Hin.
      apply (H2 x). by eapply list_elem_of_delete_inv.
  - intros x s s' H. split; exact H.
  - intros s s' _ H. split; exact H.
  - intros; by apply identified_same_heap.
  - intros s v f t d [H1 H2]. split.
    + intros z. rewrite var_alloc. case_decide as E; [|apply H1].
      simpl. apply NoDup_nil_2.
    + intros z d'. rewrite var_alloc. case_decide as E; [|apply H2].
      simpl. intros Hin. by apply elem_of_nil in Hin.
  - intros; by apply identified_same_heap.
Qed.

Lemma identified_init : identified init.
Proof.
  split.
  - intros z. rewrite var_out_of_range by (simpl; lia). apply NoDup_nil_2.
  - intros z d. rewrite var_out_of_range by (simpl; lia). simpl.
    intros Hin. by apply elem_of_nil in Hin.
Qed.

(** No [_dependents] array ever holds the same Dependency object twice.
    Edges enter an array only as objects made on the spot by
    [new Dependency], are refreshed in place and leave by [splice]: whatever
    user code runs and whatever its outcome, from a state where every edge has
    an identity of its own, the state it leaves is such a state again; so are
    the states left by a read and by each setter. *)
Theorem edges_are_objects_of_their_own (fuel : nat) (p : Prog) (s : State) :
  identified s ->
  identified (snd (run fuel p s)) /\
  distinct_identities (snd (run fuel p s)) /\
  forall (x : vref) (v : value) (g : value -> Prog),
    identified (snd (read fuel x s)) /\
    identified (snd (write fuel x v s)) /\
    identified (snd (seed fuel x v s)) /\
    identified (snd (replace_formula fuel x g s)).
Proof.
  intros H.
  pose proof (preserves_run _ keeps_identified_respected fuel p s H) as Hrun.
  split; [exact Hrun|]. split; [apply Hrun|]. intros x v g.
  split; [|split; [|split]].
  - apply (preserves_read _ keeps_identified_respected fuel x s H).
  - apply (preserves_write _ keeps_identified_respected fuel x v s H).
  - apply (preserves_seed _ keeps_identified_respected fuel x v s H).
  - apply (preserves_replace_formula _ keeps_identified_respected fuel x g s H).
Qed.

(** From the state of the freshly loaded module. *)
Lemma edges_are_objects_of_their_own_witness :
  distinct_identities
    (snd (run 10 (NewVariable (VNum 1) None VNull None (fun z =>
                  NewVariable VNull (Some (reading z)) VNull None (fun x =>
                  GetValue x (fun _ => SetValue z (VNum 2) (Ret VNull)))))
              init)).
Proof.
  match goal with
  | |- distinct_identities (snd (run _ ?p _)) =>
      destruct (edges_are_objects_of_their_own 10 p init) as (_ & H & _)
  end; [|exact H].
  split.
  - intros z. vm_compute. apply NoDup_nil_2.
  - intros z d Hd. vm_compute in Hd. inversion Hd.
Defined.

(** * Peeking and formulas that write *)

(** [peek()] does not subscribe.  With no flush pending, recomputing an
    out-of-date [y = f(z.peek())] returns [f] of the value stored in [z], out
    of date or not, and leaves [z] exactly as it was, whatever edges it holds:
    no edge to [y] is recorded.  If [z] has no dependents at all, a later
    write to [z] leaves [y] up to date, and the next read of [y] still returns
    the value computed from the old [z]. *)
Theorem peek_does_not_subscribe (fuel fuel' fuel'' : nat) (y z : vref)
    (f : value -> value) (v : value) (s : State) :
  no_flush s ->
  y <> z ->
  stale s y = true ->
  _formula (var s y) = Some (peeks_then z f) ->
  exists s1,
    read (S (S fuel)) y s = (Ok (f (_value (var s z))), s1) /\
    var s1 z = var s z /\
    (_dependents (var s z) = [] ->
     exists s2,
       write (S fuel') z v s1 = (Ok tt, s2) /\
       stale s2 y = false /\
       read fuel'' y s2 = (Ok (f (_value (var s z))), updateDependencies y s2)).
Proof.
  intros Hq Hne Hy Hf.
  pose proof (stale_in_range s y Hy) as Hlt.
  assert (Hz : var (entering y s) z = var s z) by (by apply var_entering_ne).
  destruct (read_recomputes_to (S (S fuel)) y s (entering y s) _
              (f (_value (var s z))) Hq Hy Hf) as (Hr & Hlt1).
  { unfold peeks_then.
    change (run (S (S fuel)) (Peek z (fun v0 => Ret (f v0))) (entering y s))
      with ((v0 <- peek z ;; run (S fuel) (Ret (f v0))) (entering y s)).
    unfold bind, peek, gets. by rewrite Hz. }
  set (s1 := leaving y (f (_value (var s z))) (entering y s)) in *.
  assert (Hz1 : var s1 z = var s z).
  { unfold s1. rewrite var_leaving, decide_False by tauto. exact Hz. }
  assert (Hy1 : var s1 y = incr_tick (set__value (f (_value (var s z)))
                                        (var (entering y s) y)))
    by (unfold s1; by rewrite var_leaving, decide_True).
  exists s1. split; [exact Hr|]. split; [exact Hz1|]. intros Hd.
  destruct (write_leaf fuel' z v s1) as (s2 & Hw & Hsys & _ & Hoth & _).
  { by rewrite Hz1. }
  assert (Hy2 : var s2 y = var s1 y) by (apply Hoth; congruence).
  assert (Hst : stale s2 y = false).
  { unfold stale. rewrite Hy2, Hy1. simpl. by apply entering_clears. }
  exists s2. split; [exact Hw|]. split; [exact Hst|].
  rewrite (read_fresh fuel'' y s2); [by rewrite Hy2, Hy1| |exact Hst].
  unfold no_flush. rewrite Hsys. unfold s1, leaving; simpl.
  by apply no_flush_entering.
Qed.

(** [y = 10 * z.peek()] with [z] holding 1: [y.value; z.value = 7; y.value]
    reads 10 twice, and the first read leaves [z] without any edge. *)
Lemma peek_does_not_subscribe_witness :
  exists s1 s2,
    read 2 1%nat
      (declare VNull (Some (peeks_then 0%nat times10)) None
         (declare (VNum 1) None None init)) = (Ok (VNum 10), s1) /\
    _dependents (var s1 0%nat) = [] /\
    write 1 0%nat (VNum 7) s1 = (Ok tt, s2) /\
    fst (read 0 1%nat s2) = Ok (VNum 10).
Proof.
  destruct (peek_does_not_subscribe 0 0 0 1%nat 0%nat times10 (VNum 7)
              (declare VNull (Some (peeks_then 0%nat times10)) None
                 (declare (VNum 1) None None init)))
    as (s1 & Hr & Hz & Hrest).
  - left. reflexivity.
  - discriminate.
  - reflexivity.
  - reflexivity.
  - destruct (Hrest eq_refl) as (s2 & Hw & _ & Hr2).
    exists s1, s2. split; [exact Hr|]. split; [by rewrite Hz|].
    split; [exact Hw|]. by rewrite Hr2.
Defined.

Lemma nfresh_mono (s s' : State) :
  length (heap s) = length (heap s') ->
  (forall z, stale s z = true -> stale s' z = true) ->
  (nfresh s' <= nfresh s)%nat.
Proof. intros Hlen H. by apply count_fresh_mono. Qed.

Lemma count_fresh_alter_clear (h : list Var) (i : nat) :
  (count_fresh (alter (set__outOfDate false) i h) <= S (count_fresh h))%nat.
Proof.
  revert i. induction h as [|v h IH]; intros i; simpl; [lia|].
  destruct i as [|i]; simpl.
  - destruct (_outOfDate v); lia.
  - specialize (IH i).
    destruct (_outOfDate v); simpl; [exact IH | apply le_n_S, IH].
Qed.

Lemma nfresh_entering (x : vref) (s : State) :
  (nfresh (entering x s) <= S (nfresh s))%nat.
Proof.
  unfold entering, nfresh; simpl.
  etransitivity; [apply count_fresh_alter_clear|].
  apply le_n_S. apply (nfresh_mono s (updateDependencies x s)).
  - by rewrite length_heap_updateDependencies.
  - intros z Hz. unfold stale in *.
    by destruct (var_updateDependencies x s z) as (_ & _ & _ & _ & _ & ->).
Qed.

(** A formula that writes the Variable it has just read invalidates its own
    Variable.  Let [y] be out of date with the formula
    [function() { const v = n.value; n.value = v + 1; return v; }] and [n] be
    up to date, over counting daemons and with no flush pending (nothing
    queued, or a flush in progress).  The read of [y] returns the value of
    [n], leaves [n] one higher and up to date, and leaves [y] out of date
    again although it has just been computed: the write inside the formula
    finds the edge from [n] to [y] and marks [y].  The demand stack is
    restored and every condition holds again for the next read, which
    therefore returns the next number. *)
Theorem formula_that_writes_its_input (fuel : nat) (y n : vref) (s : State) :
  instrumented s ->
  (nfresh s + 6 <= fuel)%nat ->
  no_flush s ->
  y <> n ->
  stale s y = true ->
  stale s n = false ->
  (n < length (heap s))%nat ->
  _formula (var s y) = Some (bumping n) ->
  exists s',
    read fuel y s = (Ok (_value (var s n)), s') /\
    _value (var s' n) = plus 1 (_value (var s n)) /\
    _value (var s' y) = _value (var s n) /\
    tick (var s' y) = tick (var s y) + 1 /\
    stale s' y = true /\
    stale s' n = false /\
    _formula (var s' y) = Some (bumping n) /\
    demandingVariables (system s') = demandingVariables (system s) /\
    (forall z, stale s z = true -> stale s' z = true) /\
    instrumented s' /\ no_flush s' /\ (nfresh s' <= nfresh s)%nat /\
    length (heap s') = length (heap s).
Proof.
  intros Hi Hfuel Hq Hne Hy Hn Hnlt Hf.
  pose proof (stale_in_range s y Hy) as Hylt.
  destruct fuel as [|[|F]]; [lia|lia|].
  set (v := _value (var s n)).
  set (se := entering y s).
  set (sd := updateDependencies n se).
  assert (Hlen_e : length (heap se) = length (heap s)) by apply length_heap_entering.
  assert (Hlen_d : length (heap sd) = length (heap s))
    by (unfold sd; by rewrite length_heap_updateDependencies).
  assert (Hqe : no_flush se) by (by apply no_flush_entering).
  assert (Hne_e : var se n = var s n) by (by apply var_entering_ne).
  assert (Hyd : var sd y = var se y)
    by (apply var_updateDependencies_ne; congruence).
  assert (Hnd : same_but_dependents (var s n) (var sd n)).
  { rewrite <- Hne_e. apply var_updateDependencies. }
  destruct Hnd as (Nv & Nf & Nt & Nd & Ntk & No).
  assert (Htye : tick (var se y) = tick (var s y)).
  { unfold se. rewrite var_entering by done. simpl.
    by destruct (var_updateDependencies y s y) as (_ & _ & _ & _ & -> & _). }
  assert (Hfye : _formula (var se y) = Some (bumping n)).
  { unfold se. rewrite var_entering by done. simpl.
    destruct (var_updateDependencies y s y) as (_ & -> & _). exact Hf. }
  (* the daemons are those of [s] all along *)
  assert (Hdae_e : forall x, _outOfDateDaemon (var se x) = _outOfDateDaemon (var s x)).
  { intros x. destruct (decide (y = x)) as [<-|Hx].
    - unfold se. rewrite var_entering by done. simpl.
      by destruct (var_updateDependencies y s y) as (_ & _ & _ & -> & _).
    - unfold se. by rewrite var_entering_ne. }
  assert (Hdae_d : forall x, _outOfDateDaemon (var sd x) = _outOfDateDaemon (var s x)).
  { intros x. rewrite <- Hdae_e. unfold sd.
    by destruct (var_updateDependencies n se x) as (_ & _ & _ & -> & _). }
  assert (Hid : instrumented sd) by (by apply (instrumented_same_daemons s)).
  assert (Hflag_d : forall z, z <> y -> stale sd z = stale s z).
  { intros z Hz. unfold stale, sd.
    destruct (var_updateDependencies n se z) as (_ & _ & _ & _ & _ & ->).
    unfold se. rewrite var_entering_ne by congruence. reflexivity. }
  assert (Hnfd : (nfresh sd <= S (nfresh s))%nat).
  { etransitivity; [|apply (nfresh_entering y s)]. fold se.
    apply (nfresh_mono se sd); [congruence|].
    intros z Hz. unfold stale, sd in *.
    by destruct (var_updateDependencies n se z) as (_ & _ & _ & _ & _ & ->). }
  (* the write inside the formula *)
  destruct (write_instrumented (S (S F) - 2) n (plus 1 v) sd Hid)
    as (s1 & Hw & Hp & Hc & Hroot); [lia|].
  replace (S (S F) - 2)%nat with F in Hw by lia.
  specialize (Hroot ltac:(lia)).
  set (w := written n (plus 1 v) sd) in *.
  assert (Hwy : var w y = var sd y).
  { unfold w. rewrite var_written, decide_False; [done | intros [? _]; congruence]. }
  assert (Hlen_w : length (heap w) = length (heap s))
    by (unfold w; by rewrite length_heap_written).
  assert (Hlen_1 : length (heap s1) = length (heap s))
    by (by rewrite (pass_length _ _ Hp)).
  assert (Hedge : live_edge w n y).
  { destruct (updateDependencies_edge n y (demandingVariables (system s)) se)
      as (dep & Hin & Hdv & Hdt).
    { unfold se, entering; simpl. by rewrite system_updateDependencies. }
    { lia. }
    exists dep. split; [|split; [exact Hdv|]].
    - unfold w. rewrite var_written. by case_decide.
    - unfold outOfDate. rewrite Hdv, Hdt, Hwy, Hyd. apply Z.ltb_ge. lia. }
  assert (Hwn : stale w n = false).
  { unfold stale, w. rewrite var_written, decide_True by (split; [done|lia]).
    simpl. by rewrite No. }
  assert (Hy1 : stale s1 y = true).
  { apply (Hc n y Hwn Hroot Hedge). lia. }
  assert (Hrun : run (S (S F)) (bumping n (_thisFormula (var s y))) se
                 = (Ok v, upd_var n (set__outOfDate false) s1)).
  { unfold bumping.
    change (run (S (S F)) (GetValue n (fun v0 => SetValue n (plus 1 v0) (Ret v0))) se)
      with ((v0 <- get_value (run (S F)) n ;;
             run (S F) (SetValue n (plus 1 v0) (Ret v0))) se).
    unfold bind at 1. rewrite (get_value_fresh _ n se Hqe); [|by rewrite Hne_e].
    rewrite Hne_e. fold v. fold sd.
    change (run (S F) (SetValue n (plus 1 v) (Ret v)) sd)
      with ((write F n (plus 1 v) ;;; run F (Ret v)) sd).
    unfold bind. rewrite Hw. destruct F as [|F']; [lia|]. reflexivity. }
  destruct (read_recomputes_to (S (S F)) y s _ _ v Hq Hy Hf Hrun) as (Hr & Hlt1).
  set (s2 := upd_var n (set__outOfDate false) s1) in *.
  assert (Hy2 : var s2 y = var s1 y) by (apply var_upd_var_ne; congruence).
  assert (Hn2 : var s2 n = set__outOfDate false (var s1 n))
    by (apply var_upd_var_eq; lia).
  destruct (pass_fields _ _ Hp y) as (_ & Fy & _ & _ & Ty).
  destruct (pass_fields _ _ Hp n) as (Vn & _).
  unfold w in Vn. rewrite var_written, decide_True in Vn by (split; [done|lia]).
  simpl in Vn. rewrite Hwy, Hyd in Fy, Ty.
  assert (Hsy : var (leaving y v s2) y = incr_tick (set__value v (var s2 y)))
    by (by rewrite var_leaving, decide_True).
  assert (Hso : forall z, z <> y -> var (leaving y v s2) z = var s2 z).
  { intros z Hz. rewrite var_leaving, decide_False; [done | intros [? _]; congruence]. }
  assert (Hmono : forall z, stale s z = true -> stale (leaving y v s2) z = true).
  { intros z Hz. unfold stale at 1. destruct (decide (z = y)) as [->|Hzy].
    - rewrite Hsy. simpl. by rewrite Hy2.
    - rewrite Hso by done. assert (z <> n) by (intros ->; congruence).
      unfold s2. rewrite var_upd_var_ne by congruence.
      apply (pass_stale_mono _ _ _ Hp). unfold stale, w.
      rewrite var_written, decide_False; [|intros [? _]; congruence].
      fold (stale sd z). by rewrite Hflag_d. }
  exists (leaving y v s2). split; [exact Hr|].
  split; [by rewrite Hso, Hn2 by congruence|].
  split; [by rewrite Hsy|].
  split; [rewrite Hsy; simpl; by rewrite Hy2, Ty, Htye|].
  split; [by apply Hmono|].
  split; [unfold stale; by rewrite Hso, Hn2 by congruence|].
  split; [rewrite Hsy; simpl; by rewrite Hy2, Fy|].
  assert (Hsys : system s2 = system se).
  { unfold s2. rewrite system_upd_var, (pass_system _ _ Hp).
    unfold w, written. rewrite !system_upd_var. unfold sd.
    by rewrite system_updateDependencies. }
  split.
  { change (demandingVariables (system (leaving y v s2)))
      with (tail (demandingVariables (system s2))).
    rewrite Hsys. unfold se, entering; simpl.
    by rewrite system_updateDependencies. }
  split; [exact Hmono|].
  assert (Hlen_2 : length (heap (leaving y v s2)) = length (heap s)).
  { change (heap (leaving y v s2))
      with (heap (upd_var y incr_tick (upd_var y (set__value v) s2))).
    rewrite !length_heap_upd_var. unfold s2. by rewrite length_heap_upd_var. }
  split; [|split; [|split]].
  - assert (Hi2 : instrumented s2).
    { apply instrumented_upd_flag. apply (pass_instrumented w s1 Hp).
      by apply instrumented_written. }
    intros x. destruct (decide (x = y)) as [->|Hxy].
    + rewrite Hsy. simpl. apply Hi2.
    + rewrite Hso by done. apply Hi2.
  - unfold no_flush.
    change (daemonQueue (system (leaving y v s2))) with (daemonQueue (system s2)).
    change (executingDaemons (system (leaving y v s2)))
      with (executingDaemons (system s2)).
    rewrite Hsys. exact Hqe.
  - by apply nfresh_mono.
  - exact Hlen_2.
Qed.

Lemma instrumented_bumping : instrumented Bumping.start.
Proof. intros y. destruct y as [|[|[|y]]]; vm_compute; auto. Qed.

(** The repository's test of [thisFormula]: [evens.value] is 0 and, read
    again, 1. *)
Lemma formula_that_writes_its_input_witness :
  exists s1 s2,
    read 10 Bumping.evens Bumping.start = (Ok (VNum 0), s1) /\
    read 10 Bumping.evens s1 = (Ok (VNum 1), s2).
Proof.
  destruct (formula_that_writes_its_input 10 Bumping.evens Bumping.n Bumping.start)
    as (s1 & Hr1 & Hv1 & _ & _ & Hy1 & Hn1 & Hf1 & _ & _ & Hi1 & Hq1 & Hnf1 & Hl1).
  - apply instrumented_bumping.
  - vm_compute. lia.
  - left. reflexivity.
  - discriminate.
  - reflexivity.
  - reflexivity.
  - vm_compute. lia.
  - reflexivity.
  - destruct (formula_that_writes_its_input 10 Bumping.evens Bumping.n s1)
      as (s2 & Hr2 & _); try done.
    + assert (nfresh Bumping.start = 1%nat) by reflexivity. lia.
    + rewrite Hl1. vm_compute. lia.
    + exists s1, s2. split; [exact Hr1|]. rewrite Hr2, Hv1. reflexivity.
Defined.

(** * The demand stack on normal return *)

Lemma restores_bind {A B : Type} (m : M A) (f : A -> M B) :
  restores m -> (forall a, restores (f a)) -> restores (bind m f).
Proof.
  intros Hm Hf s r s' Hc Heq. unfold bind in Heq.
  destruct (m s) as [[a|e|] s1] eqn:E; try discriminate.
  destruct (Hm s a s1 Hc E) as [Hc1 Hs1].
  destruct (Hf a s1 r s' Hc1 Heq) as [Hc' Hs']. split; [exact Hc' | congruence].
Qed.

Lemma restores_ret {A : Type} (a : A) : restores (ret a).
Proof. intros s r s' Hc Heq. injection Heq as _ <-. by split. Qed.

Lemma restores_gets {A : Type} (f : State -> A) : restores (gets f).
Proof. intros s r s' Hc Heq. injection Heq as _ <-. by split. Qed.

Lemma restores_throw {A : Type} (e : exn) : restores (throw (A := A) e).
Proof. intros s r s' Hc Heq. discriminate. Qed.

Lemma restores_modify (f : State -> State) :
  (forall s, catch_free s ->
     catch_free (f s) /\
     demandingVariables (system (f s)) = demandingVariables (system s)) ->
  restores (modify f).
Proof. intros H s r s' Hc Heq. injection Heq as _ <-. by apply H. Qed.

Lemma catch_free_same (s s' : State) :
  (forall x, _formula (var s' x) = _formula (var s x) /\
             _outOfDateDaemon (var s' x) = _outOfDateDaemon (var s x)) ->
  daemonQueue (system s') = daemonQueue (system s) ->
  catch_free s -> catch_free s'.
Proof.
  intros Hv Hq [H1 H2 H3]. split.
  - intros x f. destruct (Hv x) as [-> _]. apply H1.
  - intros x d. destruct (Hv x) as [_ ->]. apply H2.
  - by rewrite Hq.
Qed.

Lemma catch_free_upd (x : vref) (f : Var -> Var) (s : State) :
  (forall v, _formula (f v) = _formula v) ->
  (forall v, _outOfDateDaemon (f v) = _outOfDateDaemon v) ->
  catch_free s ->
  catch_free (upd_var x f s) /\
  demandingVariables (system (upd_var x f s)) = demandingVariables (system s).
Proof.
  intros Hf Hd Hc. split; [|reflexivity].
  apply (catch_free_same s); [|reflexivity|exact Hc].
  intros y. rewrite var_upd_var. case_decide as E; [destruct E as [-> _]|]; auto.
Qed.

Lemma catch_free_set_formula (x : vref) (f : option (value -> Prog)) (s : State) :
  (forall f', f = Some f' -> forall t, no_catch (f' t)) ->
  catch_free s ->
  catch_free (upd_var x (set__formula f) s) /\
  demandingVariables (system (upd_var x (set__formula f) s))
    = demandingVariables (system s).
Proof.
  intros Hf [H1 H2 H3]. split; [|reflexivity]. split.
  - intros y g. rewrite var_upd_var. case_decide as E; [|apply H1].
    simpl. apply Hf.
  - intros y d. rewrite var_upd_var. case_decide as E; [|apply H2].
    destruct E as [-> _]. simpl. apply H2.
  - exact H3.
Qed.

Lemma catch_free_set_daemon (x : vref) (d : option (value -> Prog)) (s : State) :
  (forall d', d = Some d' -> forall t, no_catch (d' t)) ->
  catch_free s ->
  catch_free (upd_var x (set__outOfDateDaemon d) s) /\
  demandingVariables (system (upd_var x (set__outOfDateDaemon d) s))
    = demandingVariables (system s).
Proof.
  intros Hd [H1 H2 H3]. split; [|reflexivity]. split.
  - intros y g. rewrite var_upd_var. case_decide as E; [|apply H1].
    destruct E as [-> _]. simpl. apply H1.
  - intros y d'. rewrite var_upd_var. case_decide as E; [|apply H2].
    simpl. apply Hd.
  - exact H3.
Qed.

Lemma catch_free_alloc (v : value) (f : option (value -> Prog)) (t : value)
    (d : option (value -> Prog)) (s : State) :
  (forall f', f = Some f' -> forall t', no_catch (f' t')) ->
  (forall d', d = Some d' -> forall t', no_catch (d' t')) ->
  catch_free s -> catch_free (snd (alloc (Variable_new v f t d) s)).
Proof.
  intros Hf Hd [H1 H2 H3]. split.
  - intros y g. rewrite var_alloc. case_decide as E; [apply Hf | apply H1].
  - intros y g. rewrite var_alloc. case_decide as E; [apply Hd | apply H2].
  - exact H3.
Qed.

Lemma catch_free_updateDependencies (x : vref) (s : State) :
  catch_free s ->
  catch_free (updateDependencies x s) /\
  demandingVariables (system (updateDependencies x s))
    = demandingVariables (system s).
Proof.
  intros Hc. split; [|by rewrite system_updateDependencies].
  apply (catch_free_same s); [| by rewrite system_updateDependencies | exact Hc].
  intros y. by destruct (var_updateDependencies x s y) as (_ & -> & _ & -> & _).
Qed.

Section RestoringCallbacks.

Variable call : Prog -> M value.
Variable mark_rec : vref -> list vref -> M (list vref).
Hypothesis call_restores : forall p, no_catch p -> restores (call p).
Hypothesis mark_restores : forall x m, restores (mark_rec x m).

Lemma restores_forEach_daemons (batch : list Prog) :
  Forall no_catch batch -> restores (forEach_daemons call batch).
Proof.
  induction 1 as [|d rest Hd _ IH]; simpl; [apply restores_ret|].
  apply restores_bind; [by apply call_restores | intros _; exact IH].
Qed.

Lemma restores_executeDaemons : restores (executeDaemons call).
Proof.
  intros s r s' Hc Heq. unfold executeDaemons in Heq.
  destruct (daemonQueue (system s)) as [|d q] eqn:Hq.
  { injection Heq as _ <-. by split. }
  destruct (executingDaemons (system s)) eqn:Hx.
  { injection Heq as _ <-. by split. }
  assert (Hb : restores (forEach_daemons call (d :: q) ;;; modify clear_executing)).
  { apply restores_bind.
    - apply restores_forEach_daemons. rewrite <- Hq. apply (cf_queue _ Hc).
    - intros _. apply restores_modify. intros s0 Hc0. split; [|reflexivity].
      by apply (catch_free_same s0). }
  destruct (Hb (take_batch s) r s') as [Hc' Hs']; [|exact Heq|by split].
  destruct Hc as [H1 H2 H3]. split; [exact H1 | exact H2 | apply Forall_nil_2].
Qed.

Lemma restores_computeFormula (this : vref) : restores (computeFormula call this).
Proof.
  intros s r s' Hc Heq. unfold computeFormula in Heq.
  unfold bind at 1, gets at 1 in Heq.
  destruct (_outOfDate (var s this)) eqn:Hst.
  2: { injection Heq as _ <-. by split. }
  unfold bind at 1 2 3, modify at 1 2, gets at 1 in Heq. simpl in Heq.
  set (s1 := upd_var this (set__outOfDate false) (push_demanding this s)) in *.
  assert (Hc1 : catch_free s1).
  { apply (catch_free_same s); [|reflexivity|exact Hc].
    intros y. unfold s1. rewrite var_upd_var.
    by case_decide as E; [destruct E as [-> _]|]. }
  destruct (_formula (var s1 this)) as [f|] eqn:Hf; [|discriminate].
  unfold bind at 1 2, gets at 1 in Heq.
  destruct (call (f (_thisFormula (var s1 this))) s1) as [[v|e|] s2] eqn:Hcall;
    try discriminate.
  destruct (call_restores _ (cf_formula _ Hc1 this f Hf _) s1 v s2 Hc1 Hcall)
    as [Hc2 Hs2].
  unfold bind, modify in Heq. injection Heq as _ <-. split.
  - apply (catch_free_same s2); [|reflexivity|exact Hc2].
    intros y. change (var (pop_demanding ?s0) y) with (var s0 y).
    rewrite !var_upd_var. repeat case_decide; destruct_and?; subst; auto.
  - simpl. rewrite Hs2. reflexivity.
Qed.

Lemma restores_get_value (this : vref) : restores (get_value call this).
Proof.
  unfold get_value, sweep.
  apply restores_bind; [apply restores_executeDaemons|]. intros _.
  apply restores_bind.
  - apply restores_bind; [|intros _; apply restores_computeFormula].
    apply restores_modify. intros s. apply catch_free_updateDependencies.
  - intros _. apply restores_gets.
Qed.

Lemma restores_executeOutOfDateDaemon (x : vref) :
  restores (executeOutOfDateDaemon call x).
Proof.
  intros s r s' Hc Heq. unfold executeOutOfDateDaemon in Heq.
  unfold bind at 1, gets at 1 in Heq.
  destruct (_outOfDateDaemon (var s x)) as [d|] eqn:Hd.
  - unfold bind at 1, gets at 1 in Heq.
    pose proof (call_restores _ (cf_daemon _ Hc x d Hd (_thisFormula (var s x))))
      as Hcall.
    apply (restores_bind _ (fun _ => ret tt) Hcall (fun _ => restores_ret tt)
             s r s' Hc Heq).
  - injection Heq as _ <-. by split.
Qed.

Lemma restores_forEach_dependents (n k : nat) (this : vref)
    (marked : list vref) (removals : list Dependency) :
  restores (forEach_dependents mark_rec n k this marked removals).
Proof.
  revert k marked removals.
  induction n as [|n IH]; intros k marked removals; simpl.
  - apply restores_ret.
  - apply restores_bind; [apply restores_gets|]. intros [dep|]; [|apply IH].
    apply restores_bind; [apply restores_gets|]. intros [|]; [apply IH|].
    apply restores_bind; [apply mark_restores|]. intros m. apply IH.
Qed.

Lemma restores_forEach_removals (this : vref) (removals : list Dependency) :
  restores (forEach_removals this removals).
Proof.
  apply restores_modify. intros s Hc.
  destruct (foldl_remove_dependent this removals s) as (A & _ & _ & D & _).
  simpl in A, D. split; [|by rewrite A].
  apply (catch_free_same s); [|by rewrite A|exact Hc].
  intros y. by destruct (D y) as (_ & -> & _ & -> & _).
Qed.

Lemma restores_mark_body (this : vref) (marked : list vref) :
  restores (mark_body call mark_rec this marked).
Proof.
  unfold mark_body.
  apply restores_bind; [apply restores_gets|]. intros b.
  destruct (negb b && negb (bool_decide (this ∈ marked)));
    [|apply restores_ret].
  apply restores_bind.
  { apply restores_modify. intros s. by apply catch_free_upd. }
  intros _. apply restores_bind; [apply restores_executeOutOfDateDaemon|].
  intros _. apply restores_bind; [apply restores_gets|]. intros len.
  apply restores_bind; [apply restores_forEach_dependents|]. intros r.
  apply restores_bind; [apply restores_forEach_removals|]. intros _.
  apply restores_ret.
Qed.

Lemma restores_mark_top (this : vref) : restores (mark_top mark_rec this).
Proof.
  apply restores_bind; [apply mark_restores|]. intros _. apply restores_ret.
Qed.

Lemma restores_set_value (this : vref) (v : value) :
  restores (set_value mark_rec this v).
Proof.
  unfold set_value.
  apply restores_bind.
  { apply restores_modify. intros s. by apply catch_free_upd. }
  intros _. apply restores_bind.
  { apply restores_modify. intros s. by apply catch_free_set_formula. }
  intros _. apply restores_bind.
  { apply restores_modify. intros s. by apply catch_free_set_daemon. }
  intros _. apply restores_bind; [apply restores_mark_top|].
  intros _. apply restores_modify. intros s. by apply catch_free_upd.
Qed.

Lemma restores_set_formulaValue (this : vref) (v : value) :
  restores (set_formulaValue mark_rec this v).
Proof.
  unfold set_formulaValue.
  apply restores_bind.
  { apply restores_modify. intros s. by apply catch_free_upd. }
  intros _. apply restores_bind; [apply restores_mark_top|].
  intros _. apply restores_modify. intros s. by apply catch_free_upd.
Qed.

Lemma restores_set_formula (this : vref) (f : value -> Prog) :
  (forall t, no_catch (f t)) -> restores (set_formula mark_rec this f).
Proof.
  intros Hf. unfold set_formula.
  apply restores_bind; [|intros _; apply restores_mark_top].
  apply restores_modify. intros s. apply catch_free_set_formula.
  intros f' [= <-]. exact Hf.
Qed.

End RestoringCallbacks.

Lemma restores_copy (this : vref) : restores (copy this).
Proof.
  intros s r s' Hc Heq. unfold copy, bind, gets, new_Variable in Heq.
  destruct (_formula (var s this)) as [f|] eqn:Hf; injection Heq as _ <-;
    (split; [|reflexivity]); apply catch_free_alloc; try done.
  - intros f' [= <-]. by apply (cf_formula _ Hc this).
  - intros d' Hd. by apply (cf_daemon _ Hc this).
Qed.

Lemma restores_run_mark (fuel : nat) :
  (forall p, no_catch p -> restores (run fuel p)) /\
  (forall x m, restores (mark fuel x m)).
Proof.
  induction fuel as [|n [IHrun IHmark]].
  - split; intros; intros s r s' _ Heq; discriminate.
  - split.
    + intros p Hp. destruct Hp; simpl.
      * apply restores_ret.
      * apply restores_throw.
      * apply restores_bind; [by apply restores_get_value|]. intros; by apply IHrun.
      * apply restores_bind; [apply restores_gets|]. intros; by apply IHrun.
      * apply restores_bind; [by apply restores_set_value|]. intros; by apply IHrun.
      * apply restores_bind; [by apply restores_set_formulaValue|].
        intros; by apply IHrun.
      * apply restores_bind; [by apply restores_set_formula|]. intros; by apply IHrun.
      * apply restores_bind; [|intros; by apply IHrun].
        apply restores_modify. intros s. by apply catch_free_upd.
      * apply restores_bind; [|intros; by apply IHrun].
        apply restores_modify. intros s. by apply catch_free_set_daemon.
      * apply restores_bind; [|intros; by apply IHrun].
        intros s r s' Hc Heq. unfold new_Variable in Heq. injection Heq as _ <-.
        split; [by apply catch_free_alloc | reflexivity].
      * apply restores_bind; [apply restores_copy|]. intros; by apply IHrun.
      * apply restores_bind; [|intros; by apply IHrun].
        apply restores_modify. intros s [H1 H2 H3]. split; [|reflexivity].
        split; [exact H1 | exact H2 |]. simpl. apply Forall_app. split; [done|].
        by apply Forall_singleton.
      * apply restores_bind; [|intros; by apply IHrun].
        apply restores_modify. intros s Hc. split; [|reflexivity].
        by apply (catch_free_same s).
      * apply restores_bind; [apply restores_gets|]. intros; by apply IHrun.
    + intros x m. simpl. by apply restores_mark_body.
Qed.

(** Without [try ... catch], a normal return restores the demand stack.
    From a state whose formulas and daemons catch nothing, a read, a write, a
    seed, a formula replacement and any catch-free user code that return
    normally leave the demand stack exactly as they found it, and no formula
    or daemon that catches has been installed. *)
Theorem normal_return_restores_demand_stack (fuel : nat) (s : State) :
  catch_free s ->
  (forall (p : Prog) (r : value) (s' : State),
      no_catch p ->
      run fuel p s = (Ok r, s') ->
      catch_free s' /\
      demandingVariables (system s') = demandingVariables (system s)) /\
  (forall (x : vref) (r : value) (s' : State),
      read fuel x s = (Ok r, s') ->
      catch_free s' /\
      demandingVariables (system s') = demandingVariables (system s)) /\
  (forall (x : vref) (v : value) (s' : State),
      write fuel x v s = (Ok tt, s') ->
      catch_free s' /\
      demandingVariables (system s') = demandingVariables (system s)) /\
  (forall (x : vref) (v : value) (s' : State),
      seed fuel x v s = (Ok tt, s') ->
      catch_free s' /\
      demandingVariables (system s') = demandingVariables (system s)) /\
  (forall (x : vref) (g : value -> Prog) (s' : State),
      (forall t, no_catch (g t)) ->
      replace_formula fuel x g s = (Ok tt, s') ->
      catch_free s' /\
      demandingVariables (system s') = demandingVariables (system s)).
Proof.
  intros Hc. destruct (restores_run_mark fuel) as [Hrun Hmark].
  split; [|split; [|split; [|split]]].
  - intros p r s' Hp. by apply (Hrun p Hp s r s').
  - intros x r s'. by apply (restores_get_value (run fuel) Hrun x s r s').
  - intros x v s'. by apply (restores_set_value (mark fuel) Hmark x v s tt s').
  - intros x v s'. by apply (restores_set_formulaValue (mark fuel) Hmark x v s tt s').
  - intros x g s' Hg. by apply (restores_set_formula (mark fuel) Hmark x g Hg s tt s').
Qed.

(** The repository's second test: [x.value = 1] and the following
    [y.value], which recomputes, both leave the demand stack empty. *)
Lemma normal_return_restores_demand_stack_witness :
  demandingVariables
    (system (snd (read 5 Propagation.y
                    (snd (write 5 Propagation.x (VNum 1) Propagation.wired)))))
    = [].
Proof.
  destruct (normal_return_restores_demand_stack 5 Propagation.wired)
    as (_ & _ & Hw & _).
  - split.
    + intros x f H t. destruct x as [|[|x]]; vm_compute in H; try discriminate.
      injection H as <-. repeat (constructor; intros).
    + intros x d H t. destruct x as [|[|x]]; vm_compute in H; try discriminate.
      injection H as <-. repeat (constructor; intros).
    + apply Forall_nil_2.
  - destruct (Hw Propagation.x (VNum 1)
                (snd (write 5 Propagation.x (VNum 1) Propagation.wired)))
      as [Hc Hs]; [vm_compute; reflexivity|].
    destruct (normal_return_restores_demand_stack 5 _ Hc) as (_ & Hr & _).
    destruct (Hr Propagation.y (VNum 10)
                (snd (read 5 Propagation.y
                        (snd (write 5 Propagation.x (VNum 1) Propagation.wired)))))
      as [_ Hs2]; [vm_compute; reflexivity|].
    rewrite Hs2, Hs. reflexivity.
Defined.

(** * The daemon of the Variable that is assigned *)

Lemma instrumented_set_daemon (x : vref) (d : option (value -> Prog)) (s : State) :
  d = None \/ d = Some (counting x) ->
  instrumented s -> instrumented (upd_var x (set__outOfDateDaemon d) s).
Proof.
  intros Hd Hi y. rewrite var_upd_var. case_decide as E; [|apply Hi].
  destruct E as [<- _]. exact Hd.
Qed.

(** [x.outOfDateDaemon = d] takes effect for [formulaValue] and never for
    [value].  For an up-to-date [x] over counting daemons: after installing the
    counting daemon, seeding [x] runs it exactly once and keeps it; after
    installing [null], seeding [x] runs no daemon for [x]; and a write to [x]
    runs no daemon for [x] even if one has just been installed, because the
    write removes the daemon before it marks. *)
Theorem own_daemon_runs_on_seed_not_on_write (fuel : nat) (x : vref) (v : value)
    (s : State) :
  instrumented s ->
  (nfresh s + 3 <= fuel)%nat ->
  (x < length (heap s))%nat ->
  stale s x = false ->
  (exists s1,
     seed fuel x v (snd (set_outOfDateDaemon x (Some (counting x)) s)) = (Ok tt, s1) /\
     counter s1 x = counter s x + 1 /\
     _outOfDateDaemon (var s1 x) = Some (counting x)) /\
  (exists s2,
     seed fuel x v (snd (set_outOfDateDaemon x None s)) = (Ok tt, s2) /\
     counter s2 x = counter s x) /\
  (exists s3,
     write fuel x v (snd (set_outOfDateDaemon x (Some (counting x)) s)) = (Ok tt, s3) /\
     counter s3 x = counter s x /\
     _outOfDateDaemon (var s3 x) = None).
Proof.
  intros Hi Hfuel Hlt Hx.
  assert (Hset : forall d, snd (set_outOfDateDaemon x d s)
                           = upd_var x (set__outOfDateDaemon d) s) by reflexivity.
  assert (Hseed : forall d, d = None \/ d = Some (counting x) ->
            exists s1,
              seed fuel x v (upd_var x (set__outOfDateDaemon d) s) = (Ok tt, s1) /\
              counter s1 x = counter s x + (if non_null d then 1 else 0) /\
              _outOfDateDaemon (var s1 x) = d).
  { intros d Hd. set (sA := upd_var x (set__outOfDateDaemon d) s).
    assert (HvA : var sA x = set__outOfDateDaemon d (var s x))
      by (by apply var_upd_var_eq).
    assert (HltA : (x < length (heap sA))%nat)
      by (unfold sA; by rewrite length_heap_upd_var).
    destruct (seed_instrumented fuel x v sA) as (s1 & Hs & Hp & _ & Hst).
    { by apply instrumented_set_daemon. }
    { unfold sA. by rewrite nfresh_upd_var_same. }
    specialize (Hst HltA).
    assert (Hv0 : var (seeded_with x v sA) x
                  = set__value v (set__outOfDateDaemon d (var s x))).
    { unfold seeded_with. by rewrite var_upd_var_eq, HvA. }
    exists (upd_var x (set__outOfDate false) s1). split; [exact Hs|]. split.
    - rewrite counter_upd_var, (pass_counter _ _ Hp x).
      unfold seeded_with at 1, sA at 1. rewrite !counter_upd_var. f_equal.
      unfold fires, stale. rewrite Hv0. simpl. fold (stale s1 x).
      unfold stale in Hx. by rewrite Hx, Hst.
    - rewrite var_upd_var_eq by (by rewrite (pass_length _ _ Hp);
                                 unfold seeded_with; rewrite length_heap_upd_var).
      simpl. destruct (pass_fields _ _ Hp x) as (_ & _ & _ & -> & _).
      by rewrite Hv0. }
  rewrite !Hset. split; [|split].
  - destruct (Hseed (Some (counting x))) as (s1 & H1 & H2 & H3); [by right|].
    by exists s1.
  - destruct (Hseed None) as (s2 & H1 & H2 & _); [by left|].
    exists s2. split; [exact H1|]. simpl in H2. lia.
  - set (sA := upd_var x (set__outOfDateDaemon (Some (counting x))) s).
    destruct (write_instrumented fuel x v sA) as (s1 & Hw & Hp & _ & _).
    { apply instrumented_set_daemon; [by right | exact Hi]. }
    { unfold sA. by rewrite nfresh_upd_var_same. }
    assert (HltA : (x < length (heap sA))%nat)
      by (unfold sA; by rewrite length_heap_upd_var).
    exists (upd_var x (set__outOfDate false) s1). split; [exact Hw|]. split.
    + rewrite counter_upd_var, (pass_counter _ _ Hp x).
      assert (Hc : counter (written x v sA) x = counter s x) by reflexivity.
      rewrite Hc. unfold fires. rewrite (daemon_written x v sA). simpl.
      rewrite andb_false_r. lia.
    + rewrite var_upd_var_eq
        by (by rewrite (pass_length _ _ Hp), length_heap_written).
      simpl. destruct (pass_fields _ _ Hp x) as (_ & _ & _ & -> & _).
      apply daemon_written.
Qed.

(** In the diamond, for [a]. *)
Lemma own_daemon_runs_on_seed_not_on_write_witness :
  (exists s1,
     seed 10 Diamond.a (VNum 9)
       (snd (set_outOfDateDaemon Diamond.a (Some (counting Diamond.a))
               (Diamond.wired (counting 3)))) = (Ok tt, s1) /\
     counter s1 Diamond.a = 1) /\
  (exists s3,
     write 10 Diamond.a (VNum 9)
       (snd (set_outOfDateDaemon Diamond.a (Some (counting Diamond.a))
               (Diamond.wired (counting 3)))) = (Ok tt, s3) /\
     counter s3 Diamond.a = 0).
Proof.
  destruct (own_daemon_runs_on_seed_not_on_write 10 Diamond.a (VNum 9)
              (Diamond.wired (counting 3)))
    as ((s1 & H1 & C1 & _) & _ & (s3 & H3 & C3 & _)).
  - intros y. destruct y as [|[|[|[|y]]]]; vm_compute; auto.
  - vm_compute. lia.
  - vm_compute. lia.
  - reflexivity.
  - split; [by exists s1 | by exists s3].
Defined.

(** * The flush comes first *)

Lemma read_after_flush (fuel : nat) (y : vref) (s sf : State) :
  executeDaemons (run fuel) s = (Ok tt, sf) ->
  no_flush sf ->
  read fuel y s = read fuel y sf.
Proof.
  intros Hflush Hq. unfold read, get_value.
  rewrite (bind_Ok _ _ _ _ _ Hflush).
  by rewrite (bind_Ok _ _ _ _ _ (executeDaemons_skip (run fuel) sf Hq)).
Qed.

(** A read runs the queued daemons before it looks at its Variable, so what
    they write is seen by the very read that flushed them.  Let the system be
    idle with the one daemon [function() { z.value = v; }] queued, and let
    [y = f(z.value)] hold an edge from an up-to-date [z], over counting
    out-of-date daemons.  Then [y.value] returns [f v], whether [y] was up to
    date or not; afterwards [z] holds [v], the queue is empty and no flush is
    in progress. *)
Theorem flush_precedes_sweep (fuel : nat) (y z : vref) (f : value -> value)
    (v : value) (s : State) :
  instrumented s ->
  (nfresh s + 5 <= fuel)%nat ->
  executingDaemons (system s) = None ->
  daemonQueue (system s) = [SetValue z v (Ret VNull)] ->
  y <> z ->
  stale s z = false ->
  live_edge s z y ->
  _formula (var s y) = Some (reads_then z f) ->
  exists s',
    read fuel y s = (Ok (f v), s') /\
    _value (var s' z) = v /\
    stale s' y = false /\
    daemonQueue (system s') = [] /\
    executingDaemons (system s') = None.
Proof.
  intros Hi Hfuel Hidle Hqueue Hne Hzf Hedge Hf.
  pose proof (formula_in_range s y _ Hf) as Hy.
  destruct fuel as [|[|n]]; [lia|lia|].
  destruct (write_marks_dependent (S n) y z v (take_batch s))
    as (s1 & Hw & Hsys & Hlen & Hy1 & Hz1 & Vz & Fy & Ty); try done.
  { change (nfresh (take_batch s)) with (nfresh s). lia. }
  change (length (heap (take_batch s))) with (length (heap s)) in Hlen.
  change (var (take_batch s) y) with (var s y) in Fy, Ty.
  assert (Hd : run (S (S n)) (SetValue z v (Ret VNull)) (take_batch s)
               = (Ok VNull, s1)).
  { change (run (S (S n)) (SetValue z v (Ret VNull)) (take_batch s))
      with ((write (S n) z v ;;; run (S n) (Ret VNull)) (take_batch s)).
    unfold bind. rewrite Hw. reflexivity. }
  assert (Hflush : executeDaemons (run (S (S n))) s = (Ok tt, clear_executing s1)).
  { rewrite executeDaemons_flush by (by rewrite ?Hqueue). rewrite Hqueue.
    rewrite (bind_Ok _ _ _ _ _
               (forEach_daemons_in_order (S (S n)) _ (take_batch s) s1
                  (runs_cons _ _ _ _ _ _ _ Hd (runs_nil _ s1)))).
    reflexivity. }
  set (sf := clear_executing s1) in *.
  assert (Hqf : no_flush sf) by (left; unfold sf; simpl; by rewrite Hsys).
  rewrite (read_after_flush _ y s _ Hflush Hqf).
  assert (Hzf' : var sf z = var s1 z) by reflexivity.
  assert (Hyf' : var sf y = var s1 y) by reflexivity.
  assert (Hsy : stale sf y = true) by (unfold stale; by rewrite Hyf').
  assert (Hsz : stale sf z = false) by (unfold stale; by rewrite Hzf').
  assert (Hfy : _formula (var sf y) = Some (reads_then z f)) by (by rewrite Hyf', Fy).
  rewrite (read_reads_then n y z f sf Hqf Hne Hsy Hsz Hfy).
  rewrite Hzf', Vz. eexists. split; [reflexivity|].
  assert (Hylt : (y < length (heap (updateDependencies z (entering y sf))))%nat).
  { rewrite length_heap_updateDependencies, length_heap_entering.
    change (length (heap sf)) with (length (heap s1)). lia. }
  split; [|split; [|split]].
  - rewrite var_leaving, decide_False by tauto.
    destruct (var_updateDependencies z (entering y sf) z) as (-> & _).
    by rewrite var_entering_ne, Hzf'.
  - unfold stale. rewrite var_leaving, decide_True by done. simpl.
    rewrite var_updateDependencies_ne by congruence.
    apply entering_clears. change (length (heap sf)) with (length (heap s1)). lia.
  - unfold leaving; simpl. rewrite system_updateDependencies.
    unfold entering; simpl. rewrite system_updateDependencies.
    unfold sf; simpl. by rewrite Hsys.
  - unfold leaving; simpl. rewrite system_updateDependencies.
    unfold entering; simpl. rewrite system_updateDependencies. reflexivity.
Qed.

(** After [y.value] in the repository's second test:
    [addDaemon(function() { x.value = 3; }); y.value] reads 30 although [y]
    was up to date with 0. *)
Lemma flush_precedes_sweep_witness :
  stale (addDaemon (SetValue Propagation.x (VNum 3) (Ret VNull)) Propagation.wired)
        Propagation.y = false /\
  exists s',
    read 10 Propagation.y
      (addDaemon (SetValue Propagation.x (VNum 3) (Ret VNull)) Propagation.wired)
      = (Ok (VNum 30), s').
Proof.
  split; [vm_compute; reflexivity|].
  destruct (flush_precedes_sweep 10 Propagation.y Propagation.x times10 (VNum 3)
              (addDaemon (SetValue Propagation.x (VNum 3) (Ret VNull))
                 Propagation.wired))
    as (s' & Hr & _).
  - intros y. destruct y as [|[|y]]; vm_compute; auto.
  - vm_compute. lia.
  - vm_compute. reflexivity.
  - vm_compute. reflexivity.
  - discriminate.
  - vm_compute. reflexivity.
  - exists {| oid := 0%nat; dep_variable := 1%nat; dep_tick := 1 |}.
    split; [vm_compute; apply list_elem_of_here | split; vm_compute; reflexivity].
  - vm_compute. reflexivity.
  - exists s'. exact Hr.
Defined.

(** * Seeding and its dependents *)

(** A seed of an up-to-date [z] marks the Variable behind a followed edge. *)
Lemma seed_marks_dependent (fuel : nat) (y z : vref) (v : value) (s : State) :
  instrumented s ->
  (nfresh s + 3 <= fuel)%nat ->
  y <> z ->
  stale s z = false ->
  live_edge s z y ->
  (y < length (heap s))%nat ->
  exists s1,
    seed fuel z v s = (Ok tt, s1) /\
    system s1 = system s /\
    length (heap s1) = length (heap s) /\
    stale s1 y = true /\
    stale s1 z = false /\
    _value (var s1 z) = v /\
    _formula (var s1 z) = _formula (var s z) /\
    tick (var s1 z) = tick (var s z) /\
    _formula (var s1 y) = _formula (var s y) /\
    tick (var s1 y) = tick (var s y).
Proof.
  intros Hi Hfuel Hne Hzf Hedge Hy.
  pose proof (live_edge_in_range s z y Hedge) as Hz.
  destruct (seed_instrumented fuel z v s Hi Hfuel) as (s0 & Hw & Hp & Hc & Hroot).
  set (s1 := upd_var z (set__outOfDate false) s0) in *.
  set (w := seeded_with z v s) in *.
  assert (Hwz : var w z = set__value v (var s z)) by (by apply var_upd_var_eq).
  assert (Hwy : var w y = var s y) by (apply var_upd_var_ne; congruence).
  assert (Hlenw : length (heap w) = length (heap s))
    by (unfold w, seeded_with; by rewrite length_heap_upd_var).
  assert (Hlen0 : length (heap s0) = length (heap s))
    by (by rewrite (pass_length _ _ Hp)).
  assert (Hy0 : stale s0 y = true).
  { apply (reaches_stale w s0 z y Hp Hc).
    - intros _. by apply Hroot.
    - apply (reaches_same_graph s).
      + intros x. unfold w, seeded_with. rewrite var_upd_var.
        by case_decide as E; [destruct E as [-> _]|].
      + apply (reaches_step s z z y); [apply reaches_root | exact Hzf | exact Hedge].
    - by rewrite Hlenw. }
  assert (Hy1 : var s1 y = var s0 y) by (apply var_upd_var_ne; congruence).
  assert (Hz1 : var s1 z = set__outOfDate false (var s0 z))
    by (apply var_upd_var_eq; lia).
  destruct (pass_fields _ _ Hp y) as (_ & Fy & _ & _ & Ty).
  destruct (pass_fields _ _ Hp z) as (Vz & Fz & _ & _ & Tz).
  rewrite Hwy in Fy, Ty. rewrite Hwz in Vz, Fz, Tz. simpl in Vz, Fz, Tz.
  exists s1. split; [exact Hw|].
  split; [unfold s1; by rewrite system_upd_var, (pass_system _ _ Hp)|].
  split; [unfold s1; by rewrite length_heap_upd_var|].
  split; [unfold stale; by rewrite Hy1|].
  split; [unfold stale; by rewrite Hz1|].
  split; [by rewrite Hz1|]. split; [by rewrite Hz1|]. split; [by rewrite Hz1|].
  by rewrite Hy1.
Qed.

(** [formulaValue] overrides a formula for its dependents.  Let
    [y = f(z.value)] hold an edge from an up-to-date [z], over counting
    daemons and with no flush pending (nothing queued, or a flush in
    progress); [z] may have a formula of its own, which may in turn read [y].
    After [z.formulaValue = v] the Variable [y] is out of date, and the next
    read of [y] returns [f v] without invoking the formula of [z]: [z] keeps
    its formula, stays up to date and still holds [v]. *)
Theorem seed_reaches_dependent (fuel fuel' : nat) (y z : vref)
    (f : value -> value) (v : value) (s : State) :
  instrumented s ->
  (nfresh s + 3 <= fuel)%nat ->
  no_flush s ->
  y <> z ->
  stale s z = false ->
  live_edge s z y ->
  _formula (var s y) = Some (reads_then z f) ->
  exists s1 s2,
    seed fuel z v s = (Ok tt, s1) /\
    stale s1 y = true /\
    read (S (S fuel')) y s1 = (Ok (f v), s2) /\
    tick (var s2 y) = tick (var s y) + 1 /\
    stale s2 y = false /\
    _value (var s2 z) = v /\
    _formula (var s2 z) = _formula (var s z) /\
    tick (var s2 z) = tick (var s z) /\
    stale s2 z = false.
Proof.
  intros Hi Hfuel Hq Hne Hzf Hedge Hf.
  pose proof (live_edge_in_range s z y Hedge) as Hz.
  pose proof (formula_in_range s y _ Hf) as Hy.
  destruct (seed_marks_dependent fuel y z v s Hi Hfuel Hne Hzf Hedge Hy)
    as (s1 & Hw & Hsys & Hlen & Hy1 & Hz1 & Vz & Fz & Tz & Fy & Ty).
  destruct (recompute_reads_then fuel' y z f s1)
    as (s2 & Hr & _ & Ht & Hs & _ & _ & Hzz & _); try done.
  - unfold no_flush. by rewrite Hsys.
  - lia.
  - by rewrite Fy.
  - destruct Hzz as (Z1 & Z2 & _ & _ & Z5 & Z6).
    exists s1, s2. split; [exact Hw|]. split; [exact Hy1|].
    rewrite Vz in Hr. split; [exact Hr|]. split; [by rewrite Ht, Ty|].
    split; [exact Hs|]. split; [by rewrite Z1|]. split; [by rewrite Z2|].
    split; [by rewrite Z5|]. unfold stale in *. by rewrite Z6.
Qed.

(** Celsius and fahrenheit of the repository's last test, with integers:
    after both were read, [celsius.formulaValue = 100] and then
    [fahrenheit.value] is 132, and celsius still holds 100. *)
Lemma seed_reaches_dependent_witness :
  exists s1 s2,
    seed 10 Conversion.celsius (VNum 100) Conversion.both_read = (Ok tt, s1) /\
    read 2 Conversion.fahrenheit s1 = (Ok (VNum 132), s2) /\
    _value (var s2 Conversion.celsius) = VNum 100.
Proof.
  destruct (seed_reaches_dependent 10 0 Conversion.fahrenheit Conversion.celsius
              (plus 32) (VNum 100) Conversion.both_read)
    as (s1 & s2 & Hw & _ & Hr & _ & _ & Hv & _).
  - intros y. destruct y as [|[|y]]; vm_compute; auto.
  - vm_compute. lia.
  - left. vm_compute. reflexivity.
  - discriminate.
  - vm_compute. reflexivity.
  - vm_compute. eexists. split; [apply list_elem_of_here|]. split; reflexivity.
  - vm_compute. reflexivity.
  - exists s1, s2. split; [exact Hw|]. split; [exact Hr | exact Hv].
Defined.

(** * The out-of-date daemon and its context *)

(** The mark of an up-to-date Variable with a daemon and, once the daemon has
    run, no dependents. *)
Lemma mark_leaf_daemon (fuel : nat) (x : vref) (marked : list vref)
    (s s1 : State) (d : value -> Prog) (r : value) :
  stale s x = false -> x ∉ marked ->
  _outOfDateDaemon (var s x) = Some d ->
  run fuel (d (_thisFormula (var s x))) (upd_var x (set__outOfDate true) s)
    = (Ok r, s1) ->
  _dependents (var s1 x) = [] ->
  mark (S fuel) x marked s = (Ok marked, s1).
Proof.
  intros Hx Hm Hd Hrun Hdeps.
  assert (Hlt : (x < length (heap s))%nat).
  { destruct (decide (x < length (heap s))%nat) as [|Hge]; [done|].
    rewrite var_out_of_range in Hd by lia. discriminate. }
  simpl. unfold mark_body. unfold bind at 1, gets at 1. fold (stale s x).
  rewrite Hx, (bool_decide_eq_false_2 _ Hm); simpl.
  unfold bind at 1, modify at 1.
  assert (Hex : executeOutOfDateDaemon (run fuel) x
                  (upd_var x (set__outOfDate true) s) = (Ok tt, s1)).
  { unfold executeOutOfDateDaemon, bind, gets; simpl.
    rewrite var_upd_var_eq by done; simpl. rewrite Hd.
    rewrite var_upd_var_eq by done; simpl. rewrite Hrun. reflexivity. }
  rewrite (bind_Ok _ _ _ _ _ Hex).
  unfold bind at 1, gets at 1. rewrite Hdeps. simpl.
  unfold bind, ret, forEach_removals, modify. reflexivity.
Qed.

(** The out-of-date daemon runs bound to [thisFormula], after the flag is set
    and the new value stored.  Let [x] be up to date with daemon [d].  When
    [x.formulaValue = v] marks [x], it calls [d] with [this] the context of
    [x], in the state where [x] already holds [v] and is flagged out of date;
    if the daemon returns and [x] then has no dependents, the assignment
    returns in the state the daemon left, with [x] flagged up to date. *)
Theorem daemon_runs_bound_to_context (fuel : nat) (x : vref) (v r : value)
    (d : value -> Prog) (s s1 : State) :
  stale s x = false ->
  _outOfDateDaemon (var s x) = Some d ->
  run fuel (d (_thisFormula (var s x)))
      (upd_var x (set__outOfDate true) (seeded_with x v s)) = (Ok r, s1) ->
  _dependents (var s1 x) = [] ->
  seed (S fuel) x v s = (Ok tt, upd_var x (set__outOfDate false) s1).
Proof.
  intros Hx Hd Hrun Hdeps.
  assert (Hlt : (x < length (heap s))%nat).
  { destruct (decide (x < length (heap s))%nat) as [|Hge]; [done|].
    rewrite var_out_of_range in Hd by lia. discriminate. }
  assert (Hv : var (seeded_with x v s) x = set__value v (var s x))
    by (by apply var_upd_var_eq).
  assert (Hm : mark (S fuel) x [] (seeded_with x v s) = (Ok [], s1)).
  { apply (mark_leaf_daemon fuel x [] (seeded_with x v s) s1 d r).
    - unfold stale. by rewrite Hv.
    - apply not_elem_of_nil.
    - by rewrite Hv.
    - by rewrite Hv.
    - exact Hdeps. }
  unfold seed, set_formulaValue, mark_top, bind, modify, ret; cbv beta.
  fold (seeded_with x v s). by rewrite Hm.
Qed.

(** [x.formulaValue = 7] where the daemon of [x] is
    [function() { w.thisFormula = this; }] and the context of [x] is 4:
    afterwards the context of [w] is 4. *)
Lemma daemon_runs_bound_to_context_witness :
  exists s',
    seed 3 ContextDaemon.x (VNum 7) ContextDaemon.start = (Ok tt, s') /\
    _thisFormula (var s' ContextDaemon.w) = VNum 4.
Proof.
  eexists. split.
  - apply (daemon_runs_bound_to_context 2 ContextDaemon.x (VNum 7) VNull
             ContextDaemon.daemon ContextDaemon.start
             (snd (run 2 (ContextDaemon.daemon (VNum 4))
                     (upd_var ContextDaemon.x (set__outOfDate true)
                        (seeded_with ContextDaemon.x (VNum 7) ContextDaemon.start))))).
    + reflexivity.
    + reflexivity.
    + vm_compute. reflexivity.
    + vm_compute. reflexivity.
  - vm_compute. reflexivity.
Defined.

(** * Laziness *)

(** Writes compute nothing, and however many precede a read, the read
    computes once.  Let [y = f(z.value)] hold an edge from an up-to-date [z],
    over counting daemons and with no flush pending (nothing queued, or a
    flush in progress).  Two writes to [z] in a row leave the stored value
    and the generation of [y] as they were: no formula has run.  The read of
    [y] that follows returns [f] of the last value written and advances the
    generation of [y] by one, not by two. *)
Theorem writes_coalesce (fuel fuel' : nat) (y z : vref) (f : value -> value)
    (v1 v2 : value) (s : State) :
  instrumented s ->
  (nfresh s + 3 <= fuel)%nat ->
  no_flush s ->
  y <> z ->
  stale s z = false ->
  live_edge s z y ->
  _formula (var s y) = Some (reads_then z f) ->
  exists s1 s2 s3,
    write fuel z v1 s = (Ok tt, s1) /\
    write fuel z v2 s1 = (Ok tt, s2) /\
    _value (var s2 y) = _value (var s y) /\
    tick (var s2 y) = tick (var s y) /\
    stale s2 y = true /\
    read (S (S fuel')) y s2 = (Ok (f v2), s3) /\
    tick (var s3 y) = tick (var s y) + 1 /\
    stale s3 y = false.
Proof.
  intros Hi Hfuel Hq Hne Hzf Hedge Hf.
  pose proof (live_edge_in_range s z y Hedge) as Hz.
  pose proof (formula_in_range s y _ Hf) as Hy.
  (* the first write *)
  destruct (write_instrumented fuel z v1 s Hi Hfuel) as (a & Hw1 & Hpa & Hca & Hra).
  set (s1 := upd_var z (set__outOfDate false) a) in *.
  assert (Hwy : var (written z v1 s) y = var s y)
    by (rewrite var_written, decide_False by (intros [? _]; congruence); reflexivity).
  assert (Hlena : length (heap a) = length (heap s))
    by (by rewrite (pass_length _ _ Hpa), length_heap_written).
  assert (Hya : stale a y = true).
  { apply (reaches_stale (written z v1 s) a z y Hpa Hca).
    - intros _. by apply Hra.
    - apply (reaches_written z v1 s y).
      apply (reaches_step s z z y); [apply reaches_root | exact Hzf | exact Hedge].
    - by rewrite length_heap_written. }
  assert (Hy1 : var s1 y = var a y) by (apply var_upd_var_ne; congruence).
  destruct (pass_fields _ _ Hpa y) as (Va & Fa & _ & _ & Ta).
  rewrite Hwy in Va, Fa, Ta.
  assert (Hi1 : instrumented s1).
  { apply instrumented_upd_flag. apply (pass_instrumented _ _ Hpa).
    by apply instrumented_written. }
  assert (Hn1 : (nfresh s1 <= nfresh s)%nat).
  { apply nfresh_mono.
    - unfold s1. by rewrite length_heap_upd_var.
    - intros w Hw. assert (w <> z) by (intros ->; congruence).
      unfold stale, s1. rewrite var_upd_var_ne by congruence.
      apply (pass_stale_mono _ _ _ Hpa). unfold stale.
      rewrite var_written, decide_False; [done | intros [? _]; congruence]. }
  (* the second write *)
  destruct (write_instrumented fuel z v2 s1 Hi1) as (b & Hw2 & Hpb & _ & _); [lia|].
  set (s2 := upd_var z (set__outOfDate false) b) in *.
  assert (Hlen1 : length (heap s1) = length (heap s))
    by (unfold s1; by rewrite length_heap_upd_var).
  assert (Hlenb : length (heap b) = length (heap s))
    by (by rewrite (pass_length _ _ Hpb), length_heap_written).
  assert (Hw1y : var (written z v2 s1) y = var s1 y)
    by (rewrite var_written, decide_False by (intros [? _]; congruence); reflexivity).
  assert (Hyb : var b y = var s1 y).
  { rewrite <- Hw1y. apply (pass_stale _ _ Hpb). unfold stale.
    by rewrite Hw1y, Hy1. }
  assert (Hy2 : var s2 y = var a y).
  { unfold s2. rewrite var_upd_var_ne by congruence. by rewrite Hyb. }
  assert (Hz2 : var s2 z = set__outOfDate false (var b z))
    by (apply var_upd_var_eq; lia).
  destruct (pass_fields _ _ Hpb z) as (Vz & _).
  rewrite var_written, decide_True in Vz by (split; [done|lia]). simpl in Vz.
  destruct (recompute_reads_then fuel' y z f s2)
    as (s3 & Hr & _ & Ht & Hs & _); try done.
  - unfold no_flush, s2. rewrite system_upd_var, (pass_system _ _ Hpb).
    unfold written. rewrite !system_upd_var. unfold s1.
    rewrite system_upd_var, (pass_system _ _ Hpa). exact Hq.
  - unfold s2. rewrite length_heap_upd_var. lia.
  - unfold stale. by rewrite Hy2.
  - unfold stale. by rewrite Hz2.
  - by rewrite Hy2, Fa.
  - exists s1, s2, s3. split; [exact Hw1|]. split; [exact Hw2|].
    split; [by rewrite Hy2|]. split; [by rewrite Hy2|].
    split; [unfold stale; by rewrite Hy2|].
    rewrite Hz2 in Hr. simpl in Hr. rewrite Vz in Hr.
    split; [exact Hr|]. split; [by rewrite Ht, Hy2, Ta | exact Hs].
Qed.

(** After [y.value] in the repository's second test: [x.value = 1;
    x.value = 2; y.value] reads 20 and [y] has been computed twice in all. *)
Lemma writes_coalesce_witness :
  exists s1 s2 s3,
    write 5 Propagation.x (VNum 1) Propagation.wired = (Ok tt, s1) /\
    write 5 Propagation.x (VNum 2) s1 = (Ok tt, s2) /\
    read 2 Propagation.y s2 = (Ok (VNum 20), s3) /\
    tick (var s3 Propagation.y) = 2.
Proof.
  destruct (writes_coalesce 5 0 Propagation.y Propagation.x times10 (VNum 1) (VNum 2)
              Propagation.wired)
    as (s1 & s2 & s3 & Hw1 & Hw2 & _ & _ & _ & Hr & Ht & _).
  - intros y. destruct y as [|[|y]]; vm_compute; auto.
  - vm_compute. lia.
  - left. reflexivity.
  - discriminate.
  - reflexivity.
  - exists {| oid := 0%nat; dep_variable := 1%nat; dep_tick := 1 |}.
    split; [vm_compute; apply list_elem_of_here | split; reflexivity].
  - reflexivity.
  - exists s1, s2, s3. split; [exact Hw1|]. split; [exact Hw2|].
    split; [exact Hr | exact Ht].
Defined.

(** * Formulas that write what they read *)

Lemma bind_OutOfFuel {A B : Type} (m : M A) (k : A -> M B) (s : State) :
  fst (m s) = OutOfFuel -> fst (bind m k s) = OutOfFuel.
Proof. unfold bind. destruct (m s) as [[a|e|] s']; simpl; congruence. Qed.

(** With counting daemons a write returns or runs out of fuel; it never
    throws. *)
Lemma write_returns_or_runs_out (fuel : nat) (x : vref) (v : value) (s : State) :
  instrumented s ->
  fst (write fuel x v s) = OutOfFuel \/
  exists s1,
    write fuel x v s = (Ok tt, upd_var x (set__outOfDate false) s1) /\
    pass (written x v s) s1 /\ closed_under_edges (written x v s) s1 /\
    ((x < length (heap s))%nat -> stale s1 x = true).
Proof.
  intros Hi.
  destruct (write_instrumented (Nat.max fuel (nfresh s + 3)) x v s Hi)
    as (s1 & Hbig & Hp & Hc & Hx); [lia|].
  destruct (write fuel x v s) as [[[]|e|] s'] eqn:E; [right|exfalso|by left].
  - pose proof (write_more_fuel fuel (Nat.max fuel (nfresh s + 3)) x v
                  ltac:(lia) s _ _ E ltac:(discriminate)) as H.
    rewrite Hbig in H. injection H as <-. by exists s1.
  - pose proof (write_more_fuel fuel (Nat.max fuel (nfresh s + 3)) x v
                  ltac:(lia) s _ _ E ltac:(discriminate)) as H.
    rewrite Hbig in H. discriminate.
Qed.

(** Entered in such a pair, the formula does not return, whatever the fuel:
    its write to [n] marks the Variable whose formula is running, the read of
    the other Variable enters the other formula, and that one does the
    same. *)
Lemma restless_never_returns (n : vref) (k : nat) :
  forall fuel, (fuel <= k)%nat ->
  forall x y s t, restless_pair n x y s ->
  fst (run fuel (restless n y t) s) = OutOfFuel.
Proof.
  induction k as [|k IH]; intros fuel Hfuel x y s t Hrp.
  { replace fuel with 0%nat by lia. reflexivity. }
  destruct Hrp as [Hxy Hnx Hny Hn Hfx Hfy Hi Hq Hnf Hys [rest Htop]].
  pose proof (formula_in_range s x _ Hfx) as Hx.
  pose proof (formula_in_range s y _ Hfy) as Hy.
  destruct fuel as [|f1]; [reflexivity|].
  unfold restless.
  change (run (S f1) (GetValue n (fun _ => SetValue n (VNum 0) (GetValue y Ret))) s)
    with ((v <- get_value (run f1) n ;;
           run f1 (SetValue n (VNum 0) (GetValue y Ret))) s).
  unfold bind at 1. rewrite (get_value_fresh _ n s Hq Hnf).
  set (sd := updateDependencies n s).
  destruct f1 as [|f2]; [reflexivity|].
  change (run (S f2) (SetValue n (VNum 0) (GetValue y Ret)) sd)
    with ((write f2 n (VNum 0) ;;; run f2 (GetValue y Ret)) sd).
  (* the state after the read of [n] *)
  assert (Hsame : forall z, same_but_dependents (var s z) (var sd z))
    by (intros z; apply var_updateDependencies).
  assert (Hlen_d : length (heap sd) = length (heap s))
    by apply length_heap_updateDependencies.
  assert (Hid : instrumented sd).
  { apply (instrumented_same_daemons s); [|exact Hi]. intros z.
    by destruct (Hsame z) as (_ & _ & _ & -> & _). }
  destruct (write_returns_or_runs_out f2 n (VNum 0) sd Hid)
    as [Hout | (s1 & Hw & Hp & Hc & Hroot)].
  { by apply bind_OutOfFuel. }
  unfold bind. rewrite Hw.
  set (w := written n (VNum 0) sd) in *.
  set (s2 := upd_var n (set__outOfDate false) s1).
  specialize (Hroot ltac:(lia)).
  assert (Hw_oth : forall z, z <> n -> var w z = var sd z).
  { intros z Hz. unfold w. rewrite var_written, decide_False; [done|].
    intros [? _]; congruence. }
  assert (Hlen_w : length (heap w) = length (heap s))
    by (unfold w; by rewrite length_heap_written).
  assert (Hlen_1 : length (heap s1) = length (heap s))
    by (by rewrite (pass_length _ _ Hp)).
  assert (Hlen_2 : length (heap s2) = length (heap s))
    by (unfold s2; by rewrite length_heap_upd_var).
  assert (H2_oth : forall z, z <> n -> var s2 z = var s1 z).
  { intros z Hz. unfold s2. apply var_upd_var_ne. congruence. }
  (* the write marked [x], whose formula is running *)
  assert (Hedge : live_edge w n x).
  { destruct (updateDependencies_edge n x rest s Htop Hn) as (dep & Hin & Hdv & Hdt).
    exists dep. split; [|split; [exact Hdv|]].
    - unfold w. rewrite var_written. by case_decide.
    - unfold outOfDate. rewrite Hdv, Hdt, Hw_oth by congruence. fold sd.
      destruct (Hsame x) as (_ & _ & _ & _ & -> & _). apply Z.ltb_ge. lia. }
  assert (Hwn : stale w n = false).
  { unfold stale, w. rewrite var_written, decide_True by (split; [done|lia]).
    simpl. destruct (Hsame n) as (_ & _ & _ & _ & _ & ->). exact Hnf. }
  assert (Hx1 : stale s1 x = true) by (apply (Hc n x Hwn Hroot Hedge); lia).
  assert (Hy1 : stale s1 y = true).
  { apply (pass_stale_mono _ _ _ Hp). unfold stale.
    rewrite Hw_oth by congruence.
    destruct (Hsame y) as (_ & _ & _ & _ & _ & ->). exact Hys. }
  assert (Hform : forall z, z <> n -> _formula (var s2 z) = _formula (var s z)).
  { intros z Hz. rewrite H2_oth by done.
    destruct (pass_fields _ _ Hp z) as (_ & -> & _).
    rewrite Hw_oth by done. by destruct (Hsame z) as (_ & -> & _). }
  assert (Hsys : system s2 = system s).
  { unfold s2. rewrite system_upd_var, (pass_system _ _ Hp).
    unfold w, written. rewrite !system_upd_var. unfold sd.
    apply system_updateDependencies. }
  assert (Hq2 : no_flush s2) by (unfold no_flush; by rewrite Hsys).
  assert (Hi2 : instrumented s2).
  { apply instrumented_upd_flag. apply (pass_instrumented _ _ Hp).
    by apply instrumented_written. }
  (* the read of [y] enters the formula of [y] *)
  destruct f2 as [|f3]; [reflexivity|].
  change (run (S f3) (GetValue y Ret) s2)
    with ((v <- get_value (run f3) y ;; run f3 (Ret v)) s2).
  apply bind_OutOfFuel.
  rewrite (get_value_stale _ y s2 (restless n x) Hq2).
  2: { rewrite H2_oth by congruence. exact Hy1. }
  2: { rewrite Hform by congruence. exact Hfy. }
  apply bind_OutOfFuel. apply (IH f3 ltac:(lia) y x).
  assert (Hin : forall z, z <> y -> var (entering y s2) z = var s2 z).
  { intros z Hz. apply var_entering_ne. congruence. }
  split.
  - congruence.
  - exact Hny.
  - exact Hnx.
  - rewrite length_heap_entering. lia.
  - rewrite var_entering by lia. simpl.
    destruct (var_updateDependencies y s2 y) as (_ & -> & _).
    rewrite Hform by congruence. exact Hfy.
  - rewrite Hin by congruence. rewrite Hform by congruence. exact Hfx.
  - apply (instrumented_same_daemons s2); [|exact Hi2]. intros z.
    destruct (decide (z = y)) as [->|Hz]; [|by rewrite Hin].
    rewrite var_entering by lia. simpl.
    by destruct (var_updateDependencies y s2 y) as (_ & _ & _ & -> & _).
  - by apply no_flush_entering.
  - unfold stale. rewrite Hin by congruence. unfold s2.
    by rewrite var_upd_var_eq by lia.
  - unfold stale. rewrite Hin by congruence. rewrite H2_oth by congruence.
    exact Hx1.
  - unfold entering; simpl. eexists. reflexivity.
Qed.

(** C4 (counterexample): [a] and [b] read each other; each formula also reads
    and writes [n].  No amount of fuel lets the read of [a] return: every
    entry into a formula leads to an entry into the other.  Nor does the read
    of [c], whose formula and that of [d] only read each other, return when
    the daemon [function() { a.value; }] is queued: the read of [c] flushes it
    first. *)
Lemma C4_writing_formulas_never_return_counterexample :
  (_formula (var Restless.start Restless.a)
     = Some (restless Restless.n Restless.b) /\
   _formula (var Restless.start Restless.b)
     = Some (restless Restless.n Restless.a) /\
   forall fuel, fst (read fuel Restless.a Restless.start) = OutOfFuel) /\
  (_formula (var Restless.queued Restless.c)
     = Some (reads_then Restless.d (plus 1)) /\
   _formula (var Restless.queued Restless.d)
     = Some (reads_then Restless.c (plus 1)) /\
   forall fuel, fst (read fuel Restless.c Restless.queued) = OutOfFuel).
Proof.
  split.
  - split; [reflexivity|]. split; [reflexivity|]. intros fuel.
    unfold read.
    rewrite (get_value_stale _ Restless.a Restless.start
               (restless Restless.n Restless.b));
      [|left; reflexivity|reflexivity|reflexivity].
    apply bind_OutOfFuel.
    apply (restless_never_returns Restless.n fuel fuel (le_n _)
             Restless.a Restless.b).
    split; try discriminate; try (vm_compute; reflexivity).
    + vm_compute. lia.
    + intros z. destruct z as [|[|[|z]]]; vm_compute; auto.
    + left. vm_compute. reflexivity.
    + eexists. vm_compute. reflexivity.
  - split; [reflexivity|]. split; [reflexivity|]. intros fuel.
    unfold read, get_value. apply bind_OutOfFuel.
    rewrite executeDaemons_flush; [|reflexivity|discriminate].
    apply bind_OutOfFuel.
    change (daemonQueue (system Restless.queued))
      with [GetValue Restless.a (fun _ => Ret VNull)].
    simpl forEach_daemons. apply bind_OutOfFuel.
    destruct fuel as [|f1]; [reflexivity|].
    change (run (S f1) (GetValue Restless.a (fun _ => Ret VNull))
              (take_batch Restless.queued))
      with ((v <- get_value (run f1) Restless.a ;; run f1 (Ret VNull))
              (take_batch Restless.queued)).
    apply bind_OutOfFuel.
    rewrite (get_value_stale _ Restless.a (take_batch Restless.queued)
               (restless Restless.n Restless.b));
      [|right; discriminate|reflexivity|reflexivity].
    apply bind_OutOfFuel.
    apply (restless_never_returns Restless.n f1 f1 (le_n _)
             Restless.a Restless.b).
    split; try discriminate; try (vm_compute; reflexivity).
    + vm_compute. lia.
    + intros z. destruct z as [|[|[|[|[|z]]]]]; vm_compute; auto.
    + right. vm_compute. discriminate.
    + eexists. vm_compute. reflexivity.
Qed.

(** * Formulas that only read each other *)

Lemma same_but_dependents_trans (u v w : Var) :
  same_but_dependents u v -> same_but_dependents v w -> same_but_dependents u w.
Proof.
  intros (?&?&?&?&?&?) (?&?&?&?&?&?). repeat split; congruence.
Qed.

Lemma edges_only_refl (s : State) : edges_only s s.
Proof. repeat split. Qed.

Lemma edges_only_trans (s1 s2 s3 : State) :
  edges_only s1 s2 -> edges_only s2 s3 -> edges_only s1 s3.
Proof.
  intros (Hs & Hl & Hv) (Hs' & Hl' & Hv').
  split; [congruence|]. split; [congruence|]. intros z.
  exact (same_but_dependents_trans _ _ _ (Hv z) (Hv' z)).
Qed.

Lemma edges_only_updateDependencies (x : vref) (s : State) :
  edges_only s (updateDependencies x s).
Proof.
  split; [apply system_updateDependencies|].
  split; [apply length_heap_updateDependencies|].
  intros z. apply var_updateDependencies.
Qed.

Lemma edges_only_no_flush (s s' : State) :
  edges_only s s' -> no_flush s -> no_flush s'.
Proof. intros (Hs & _) H. unfold no_flush. by rewrite Hs. Qed.

Lemma edges_only_stale (s s' : State) (z : vref) :
  edges_only s s' -> stale s' z = stale s z.
Proof. intros (_ & _ & Hv). unfold stale. by destruct (Hv z) as (_&_&_&_&_&->). Qed.

(** With every Variable it may read up to date, such a body returns and
    changes nothing but edges. *)
Lemma reads_only_fresh (allowed : vref -> Prop) (p : Prog) :
  reads_only allowed p ->
  forall s, no_flush s -> (forall x, allowed x -> stale s x = false) ->
  exists n r s',
    (forall fuel, (n <= fuel)%nat -> run fuel p s = (Ok r, s')) /\
    edges_only s s'.
Proof.
  induction 1 as [v | x k Hx _ IH | x k _ IH]; intros s Hq Hfresh.
  - exists 1%nat, v, s. split; [|apply edges_only_refl].
    intros [|fuel] Hf; [lia|reflexivity].
  - pose proof (edges_only_updateDependencies x s) as He.
    destruct (IH (_value (var s x)) (updateDependencies x s))
      as (n & r & s' & Hrun & He').
    + exact (edges_only_no_flush _ _ He Hq).
    + intros z Hz. rewrite (edges_only_stale _ _ z He). by apply Hfresh.
    + exists (S n), r, s'. split; [|exact (edges_only_trans _ _ _ He He')].
      intros [|fuel] Hf; [lia|].
      change (run (S fuel) (GetValue x k) s)
        with ((v <- get_value (run fuel) x ;; run fuel (k v)) s).
      rewrite (bind_Ok _ _ _ _ _ (get_value_fresh _ x s Hq (Hfresh x Hx))).
      apply Hrun. lia.
  - destruct (IH (_value (var s x)) s Hq Hfresh) as (n & r & s' & Hrun & He').
    exists (S n), r, s'. split; [|exact He'].
    intros [|fuel] Hf; [lia|].
    change (run (S fuel) (Peek x k) s)
      with ((v <- peek x ;; run fuel (k v)) s).
    unfold bind, peek, gets. apply Hrun. lia.
Qed.

Lemma edges_only_at_most_one (b : vref) (s s' : State) :
  edges_only s s' -> at_most_one_recomputation b s s'.
Proof.
  intros (Hs & Hl & Hv). split; [done|]. split; [done|]. split; [by intros|].
  destruct (Hv b) as (_ & -> & _ & _ & -> & _). split; [done|lia].
Qed.

Lemma at_most_one_after_edges (b : vref) (s1 s2 s3 : State) :
  edges_only s1 s2 -> at_most_one_recomputation b s2 s3 ->
  at_most_one_recomputation b s1 s3.
Proof.
  intros (Hs & Hl & Hv) (Hs' & Hl' & Hv' & Hf' & Ht').
  split; [congruence|]. split; [congruence|]. split.
  - intros z Hz. exact (same_but_dependents_trans _ _ _ (Hv z) (Hv' z Hz)).
  - destruct (Hv b) as (_ & Hf & _ & _ & Ht & _). split; [congruence|lia].
Qed.

(** A read of an out-of-date Variable whose formula is such a body, every
    other Variable it may read being up to date: the formula is entered once
    and all of them are up to date afterwards. *)
Lemma read_enters_once (allowed : vref -> Prop) (b : vref)
    (fb : value -> Prog) (s : State) :
  (forall t, reads_only allowed (fb t)) ->
  no_flush s ->
  (forall x, allowed x -> x <> b -> stale s x = false) ->
  stale s b = true ->
  _formula (var s b) = Some fb ->
  exists n r s',
    (forall fuel, (n <= fuel)%nat -> read fuel b s = (Ok r, s')) /\
    system s' = system s /\ length (heap s') = length (heap s) /\
    (forall z, z <> b -> same_but_dependents (var s z) (var s' z)) /\
    _formula (var s' b) = _formula (var s b) /\
    tick (var s' b) = tick (var s b) + 1 /\
    stale s' b = false.
Proof.
  intros Hfb Hq Hfresh Hb Hf.
  pose proof (stale_in_range _ _ Hb) as Hlt.
  destruct (entering_clears b s Hlt) as [Hb1 _].
  destruct (reads_only_fresh allowed _ (Hfb (_thisFormula (var s b))) (entering b s))
    as (n & r & s1 & Hrun & (Hs1 & Hl1 & Hv1)).
  { by apply no_flush_entering. }
  { intros x Hx. destruct (decide (x = b)) as [->|Hxb]; [exact Hb1|].
    unfold stale. rewrite var_entering_ne by congruence. by apply Hfresh. }
  exists n, r, (leaving b r s1).
  assert (Hlt1 : (b < length (heap s1))%nat)
    by (rewrite Hl1, length_heap_entering; exact Hlt).
  split; [|split; [|split; [|split; [|split; [|split]]]]].
  - intros fuel Hfuel.
    exact (proj1 (read_recomputes_to fuel b s s1 fb r Hq Hb Hf (Hrun fuel Hfuel))).
  - unfold leaving. change (system (pop_demanding ?t))
      with {| demandingVariables := tail (demandingVariables (system t));
              daemonQueue := daemonQueue (system t);
              executingDaemons := executingDaemons (system t) |}.
    rewrite !system_upd_var, Hs1. unfold entering. rewrite system_upd_var.
    change (system (push_demanding b ?t))
      with {| demandingVariables := b :: demandingVariables (system t);
              daemonQueue := daemonQueue (system t);
              executingDaemons := executingDaemons (system t) |}.
    simpl. rewrite system_updateDependencies. by destruct (system s).
  - unfold leaving. change (heap (pop_demanding ?t)) with (heap t).
    rewrite !length_heap_upd_var, Hl1. apply length_heap_entering.
  - intros z Hz. rewrite var_leaving, decide_False by (intros [? _]; congruence).
    eapply same_but_dependents_trans; [|apply Hv1].
    rewrite var_entering_ne by congruence. apply same_but_dependents_refl.
  - rewrite var_leaving, decide_True by done. simpl.
    destruct (Hv1 b) as (_ & -> & _). rewrite var_entering by done. simpl.
    by destruct (var_updateDependencies b s b) as (_ & -> & _).
  - rewrite var_leaving, decide_True by done. simpl.
    destruct (Hv1 b) as (_ & _ & _ & _ & -> & _). rewrite var_entering by done.
    simpl. by destruct (var_updateDependencies b s b) as (_ & _ & _ & _ & -> & _).
  - unfold stale. rewrite var_leaving, decide_True by done. simpl.
    destruct (Hv1 b) as (_ & _ & _ & _ & _ & ->). exact Hb1.
Qed.

(** With [b] out of date and every other Variable it may read up to date,
    such a body returns; [b] is recomputed at most once, at the first read of
    [b]. *)
Lemma reads_only_one_stale (allowed : vref -> Prop) (b : vref)
    (fb : value -> Prog) (p : Prog) :
  reads_only allowed p ->
  (forall t, reads_only allowed (fb t)) ->
  forall s, no_flush s ->
  (forall x, allowed x -> x <> b -> stale s x = false) ->
  stale s b = true ->
  _formula (var s b) = Some fb ->
  exists n r s',
    (forall fuel, (n <= fuel)%nat -> run fuel p s = (Ok r, s')) /\
    at_most_one_recomputation b s s'.
Proof.
  induction 1 as [v | x k Hx Hk IH | x k Hk IH]; intros Hfb s Hq Hfresh Hb Hf.
  - exists 1%nat, v, s. split.
    + intros [|fuel] Hfuel; [lia|reflexivity].
    + apply edges_only_at_most_one, edges_only_refl.
  - destruct (decide (x = b)) as [->|Hxb].
    + (* the first read of [b] *)
      destruct (read_enters_once allowed b fb s Hfb Hq Hfresh Hb Hf)
        as (n1 & r1 & s1 & Hread & Hs1 & Hl1 & Hv1 & Hf1 & Ht1 & Hb1).
      destruct (reads_only_fresh allowed _ (Hk r1) s1)
        as (n2 & r & s2 & Hrun & (Hs2 & Hl2 & Hv2)).
      { unfold no_flush. by rewrite Hs1. }
      { intros z Hz. destruct (decide (z = b)) as [->|Hzb]; [exact Hb1|].
        unfold stale. destruct (Hv1 z Hzb) as (_&_&_&_&_&->). by apply Hfresh. }
      exists (S (Nat.max n1 n2)), r, s2. split.
      * intros [|fuel] Hfuel; [lia|].
        change (run (S fuel) (GetValue b k) s)
          with ((v <- read fuel b ;; run fuel (k v)) s).
        rewrite (bind_Ok _ _ _ _ _ (Hread fuel ltac:(lia))).
        apply Hrun. lia.
      * split; [congruence|]. split; [congruence|]. split; [|split].
        -- intros z Hz.
           exact (same_but_dependents_trans _ _ _ (Hv1 z Hz) (Hv2 z)).
        -- destruct (Hv2 b) as (_ & -> & _). exact Hf1.
        -- destruct (Hv2 b) as (_ & _ & _ & _ & -> & _). lia.
    + pose proof (edges_only_updateDependencies x s) as He.
      destruct (IH (_value (var s x)) Hfb (updateDependencies x s))
        as (n & r & s' & Hrun & Hres).
      * exact (edges_only_no_flush _ _ He Hq).
      * intros z Hz Hzb. rewrite (edges_only_stale _ _ z He). by apply Hfresh.
      * by rewrite (edges_only_stale _ _ b He).
      * destruct He as (_ & _ & Hv). destruct (Hv b) as (_ & -> & _). exact Hf.
      * exists (S n), r, s'. split.
        -- intros [|fuel] Hfuel; [lia|].
           change (run (S fuel) (GetValue x k) s)
             with ((v <- get_value (run fuel) x ;; run fuel (k v)) s).
           rewrite (bind_Ok _ _ _ _ _ (get_value_fresh _ x s Hq (Hfresh x Hx Hxb))).
           apply Hrun. lia.
        -- exact (at_most_one_after_edges b _ _ _ He Hres).
  - destruct (IH (_value (var s x)) Hfb s Hq Hfresh Hb Hf)
      as (n & r & s' & Hrun & Hres).
    exists (S n), r, s'. split; [|exact Hres].
    intros [|fuel] Hfuel; [lia|].
    change (run (S fuel) (Peek x k) s)
      with ((v <- peek x ;; run fuel (k v)) s).
    unfold bind, peek, gets. apply Hrun. lia.
Qed.

Lemma reads_only_mono (P Q : vref -> Prop) (p : Prog) :
  (forall x, P x -> Q x) -> reads_only P p -> reads_only Q p.
Proof.
  intros HPQ. induction 1 as [v | x k Hx _ IH | x k _ IH].
  - apply reads_only_Ret.
  - apply reads_only_GetValue; [by apply HPQ | exact IH].
  - apply reads_only_Peek. exact IH.
Qed.

(** A read of one Variable of such a pair. *)
Lemma mutual_reads_only (s : State) (a b : vref)
    (others : vref -> Prop) (fa fb : value -> Prog) :
  a <> b ->
  _formula (var s a) = Some fa ->
  _formula (var s b) = Some fb ->
  (forall t, reads_only (pair_or a b others) (fa t)) ->
  (forall t, reads_only (pair_or a b others) (fb t)) ->
  (forall z, others z -> stale s z = false) ->
  no_flush s ->
  exists n r s',
    (forall fuel, (n <= fuel)%nat -> read fuel a s = (Ok r, s')) /\
    demandingVariables (system s') = demandingVariables (system s) /\
    stale s' a = false /\
    tick (var s' a) = tick (var s a) + (if stale s a then 1 else 0) /\
    tick (var s b) <= tick (var s' b) <= tick (var s b) + 1 /\
    (stale s a = false ->
     r = _value (var s a) /\ tick (var s' b) = tick (var s b)).
Proof.
  intros Hab Hfa Hfb Hra Hrb Hoth Hq.
  pose proof (formula_in_range _ _ _ Hfa) as Hla.
  destruct (stale s a) eqn:Ha.
  2: { exists 0%nat, (_value (var s a)), (updateDependencies a s).
       pose proof (edges_only_updateDependencies a s) as (Hs & _ & Hv).
       split; [intros; by apply read_fresh|].
       split; [by rewrite Hs|].
       split; [unfold stale; by destruct (Hv a) as (_&_&_&_&_&->)|].
       split; [destruct (Hv a) as (_&_&_&_&->&_); lia|].
       split; [destruct (Hv b) as (_&_&_&_&->&_); lia|].
       intros _. split; [done|]. by destruct (Hv b) as (_&_&_&_&->&_). }
  set (s1 := entering a s).
  assert (Hq1 : no_flush s1) by (by apply no_flush_entering).
  assert (Hb1 : var s1 b = var s b) by (by apply var_entering_ne).
  destruct (entering_clears a s Hla) as [Ha1 _]. fold s1 in Ha1.
  assert (Hta1 : tick (var s1 a) = tick (var s a)).
  { unfold s1. rewrite var_entering by done. simpl.
    by destruct (var_updateDependencies a s a) as (_&_&_&_&->&_). }
  assert (Hstack1 : demandingVariables (system s1)
                    = a :: demandingVariables (system s)).
  { unfold s1, entering. rewrite system_upd_var. simpl.
    by rewrite system_updateDependencies. }
  assert (Hfresh1 : forall x, pair_or a b others x -> x <> b -> stale s1 x = false).
  { intros x [-> | [-> | Hx]] Hxb; [exact Ha1 | done |].
    destruct (decide (x = a)) as [->|Hxa]; [exact Ha1|].
    unfold stale, s1. rewrite var_entering_ne by congruence. by apply Hoth. }
  assert (Hinner : exists n r s2,
            (forall fuel, (n <= fuel)%nat ->
               run fuel (fa (_thisFormula (var s a))) s1 = (Ok r, s2)) /\
            at_most_one_recomputation b s1 s2).
  { destruct (stale s1 b) eqn:Hsb.
    - apply (reads_only_one_stale (pair_or a b others) b fb); try done.
      by rewrite Hb1.
    - destruct (reads_only_fresh _ _ (Hra (_thisFormula (var s a))) s1 Hq1)
        as (n & r & s2 & Hrun & He).
      { intros x Hx. destruct (decide (x = b)) as [->|Hxb]; [exact Hsb|].
        by apply Hfresh1. }
      exists n, r, s2. split; [exact Hrun|]. by apply edges_only_at_most_one. }
  destruct Hinner as (n & r & s2 & Hrun & (Hs2 & Hl2 & Hv2 & _ & Ht2)).
  assert (Hlt2 : (a < length (heap s2))%nat).
  { rewrite Hl2. unfold s1. by rewrite length_heap_entering. }
  exists n, r, (leaving a r s2).
  split; [|split; [|split; [|split; [|split]]]].
  - intros fuel Hfuel.
    exact (proj1 (read_recomputes_to fuel a s s2 fa r Hq Ha Hfa (Hrun fuel Hfuel))).
  - unfold leaving. change (system (pop_demanding ?t))
      with {| demandingVariables := tail (demandingVariables (system t));
              daemonQueue := daemonQueue (system t);
              executingDaemons := executingDaemons (system t) |}.
    rewrite !system_upd_var, Hs2.
    cbv beta iota delta [demandingVariables]. fold (demandingVariables (system s1)).
    by rewrite Hstack1.
  - unfold stale. rewrite var_leaving, decide_True by done. simpl.
    destruct (Hv2 a Hab) as (_&_&_&_&_&->). exact Ha1.
  - rewrite var_leaving, decide_True by done. simpl.
    destruct (Hv2 a Hab) as (_&_&_&_&->&_). lia.
  - rewrite var_leaving, decide_False by (intros [? _]; congruence).
    rewrite <- Hb1. exact Ht2.
  - discriminate.
Qed.

(** C4 (amended): let the formulas of two distinct Variables [a] and [b] do
    nothing but read the values of [a], of [b] and of Variables that are up
    to date (the Variables of [others]), peek, and return a result computed
    from what they obtained; and let no flush be pending.  Then a read of
    either Variable returns, with every fuel from some amount on, whatever
    the flags of [a] and [b] and the edges.  The demand stack is as before,
    the Variable read is up to date, it was recomputed exactly once if it was
    out of date and not at all otherwise (the stored value is returned then),
    and the other Variable at most once: a nested read of a Variable whose
    formula is running finds its flag cleared and returns the stored value.
    When the formulas are [f(b.value)] and [g(a.value)], three units of fuel
    suffice for the read of [a] and the result is [f] of the stored value of
    [b] if only [a] is out of date, and [f (g v)] if both are, where [v] is
    the value stored in [a] before the read. *)
Theorem C4_mutual_formulas_terminate (s : State) (a b : vref)
    (others : vref -> Prop) (fa fb : value -> Prog) :
  a <> b ->
  _formula (var s a) = Some fa ->
  _formula (var s b) = Some fb ->
  (forall t, reads_only (pair_or a b others) (fa t)) ->
  (forall t, reads_only (pair_or a b others) (fb t)) ->
  (forall z, others z -> stale s z = false) ->
  no_flush s ->
  (exists n r s',
     (forall fuel, (n <= fuel)%nat -> read fuel a s = (Ok r, s')) /\
     demandingVariables (system s') = demandingVariables (system s) /\
     stale s' a = false /\
     tick (var s' a) = tick (var s a) + (if stale s a then 1 else 0) /\
     tick (var s b) <= tick (var s' b) <= tick (var s b) + 1 /\
     (stale s a = false ->
      r = _value (var s a) /\ tick (var s' b) = tick (var s b))) /\
  (exists n r s',
     (forall fuel, (n <= fuel)%nat -> read fuel b s = (Ok r, s')) /\
     demandingVariables (system s') = demandingVariables (system s) /\
     stale s' b = false /\
     tick (var s' b) = tick (var s b) + (if stale s b then 1 else 0) /\
     tick (var s a) <= tick (var s' a) <= tick (var s a) + 1 /\
     (stale s b = false ->
      r = _value (var s b) /\ tick (var s' a) = tick (var s a))) /\
  (forall f g, fa = reads_then b f -> fb = reads_then a g ->
   forall fuel, (3 <= fuel)%nat ->
   exists r s',
     read fuel a s = (Ok r, s') /\
     (stale s a = false -> r = _value (var s a)) /\
     (stale s a = true -> stale s b = false -> r = f (_value (var s b))) /\
     (stale s a = true -> stale s b = true -> r = f (g (_value (var s a))))).
Proof.
  intros Hab Hfa Hfb Hra Hrb Hoth Hq.
  assert (Hswap : forall x, pair_or a b others x -> pair_or b a others x).
  { intros x [-> | [-> | Hx]]; [right; by left | by left | right; by right]. }
  split; [|split].
  - exact (mutual_reads_only s a b others fa fb Hab Hfa Hfb Hra Hrb Hoth Hq).
  - apply (mutual_reads_only s b a others fb fa); try done.
    + intros t. exact (reads_only_mono _ _ _ Hswap (Hrb t)).
    + intros t. exact (reads_only_mono _ _ _ Hswap (Hra t)).
  - intros f g -> -> fuel Hfuel.
    exact (mutual_reads_then fuel s a b f g Hab Hfa Hfb Hq Hfuel).
Qed.

(** Celsius and fahrenheit, both out of date at construction: the first read
    of celsius returns [(0 + 32) - 32], computed from the value 0 stored in
    celsius, and each of the two is recomputed once. *)
Lemma C4_mutual_formulas_witness :
  (exists n r s',
     (forall fuel, (n <= fuel)%nat ->
        read fuel Circular.celsius Circular.start = (Ok r, s')) /\
     demandingVariables (system s') = [] /\
     stale s' Circular.celsius = false /\
     tick (var s' Circular.celsius) = 1 /\
     0 <= tick (var s' Circular.fahrenheit) <= 1) /\
  (exists n r s',
     (forall fuel, (n <= fuel)%nat ->
        read fuel Circular.fahrenheit Circular.start = (Ok r, s')) /\
     tick (var s' Circular.fahrenheit) = 1) /\
  (forall fuel, (3 <= fuel)%nat ->
   exists r s',
     read fuel Circular.celsius Circular.start = (Ok r, s') /\
     r = plus (-32) (plus 32 (VNum 0))).
Proof.
  destruct (C4_mutual_formulas_terminate Circular.start Circular.celsius
              Circular.fahrenheit (fun _ => False)
              (reads_then Circular.fahrenheit (plus (-32)))
              (reads_then Circular.celsius (plus 32))) as (H1 & H2 & H3).
  - discriminate.
  - reflexivity.
  - reflexivity.
  - intros t. apply reads_only_GetValue; [right; by left|].
    intros v. apply reads_only_Ret.
  - intros t. apply reads_only_GetValue; [by left|].
    intros v. apply reads_only_Ret.
  - intros z [].
  - left; reflexivity.
  - split; [|split].
    + destruct H1 as (n & r & s' & Hr & Hst & Hfl & Hta & Htb & _).
      exists n, r, s'. repeat split; try assumption; apply Htb.
    + destruct H2 as (n & r & s' & Hr & _ & _ & Htb & _).
      exists n, r, s'. split; assumption.
    + intros fuel Hfuel.
      destruct (H3 (plus (-32)) (plus 32) eq_refl eq_refl fuel Hfuel)
        as (r & s' & Hr & _ & _ & Hv).
      exists r, s'. split; [exact Hr | by apply Hv].
Defined.
